(** * youtube_music_metadata: metadata fetching and tag writing

    A shallow embedding of [youtube_music_metadata/utilities.py], of the
    legacy top-level [__main__.py] and of the dispatch performed by
    [scripts/download_youtube_audio.py], together with the properties the
    specification states about them.

    Byte strings ([bytes] objects such as the standard output of the
    downloader) are lists of 8-bit characters.  The file system, the HTTP
    client, the downloader process and the tag library are explicit parts of
    a [world] value that every operation threads through. *)

From Stdlib Require Import Ascii String ZArith Lia Bool.
From stdpp Require Import base option list gmap strings pretty.

Set Warnings "-register-all".

Open Scope char_scope.
Open Scope list_scope.

(** ** Byte strings *)

Abbreviation bytes := (list ascii).

(** The byte string written as a literal in the source. *)
Definition b (s : string) : bytes := list_ascii_of_string s.

Definition LF : ascii := "010".
Definition CR : ascii := "013".
Definition TAB : ascii := "009".
Definition DQUOTE : ascii := "034".

(** [s.startswith(p)] *)
Fixpoint startswith (p s : bytes) : bool :=
  match p, s with
  | [], _ => true
  | a :: p', c :: s' => Ascii.eqb a c && startswith p' s'
  | _ :: _, [] => false
  end.

(** [s.endswith(p)] *)
Definition endswith (p s : bytes) : bool :=
  startswith (rev p) (rev s).

(** [s.replace(old, new)] for a non-empty [old]: the occurrences of [old] are
    found from left to right and do not overlap.  [skip] counts the bytes of
    the occurrence just replaced that are still to be passed over. *)
Fixpoint replace_go (old new : bytes) (skip : nat) (s : bytes) : bytes :=
  match s with
  | [] => []
  | c :: s' =>
      match skip with
      | S k => replace_go old new k s'
      | O =>
          if startswith old s
          then new ++ replace_go old new (length old - 1) s'
          else c :: replace_go old new 0 s'
      end
  end.

Definition replace (old new s : bytes) : bytes := replace_go old new 0 s.

(** ** The JSON decoder

    [json.loads] belongs to the Python standard library.  It is modelled as a
    scanner that cuts the text into tokens, dropping the white space between
    them, followed by a recursive-descent parser on the tokens.  String and
    number tokens keep their lexeme: the Python value of a leaf is a function
    of its lexeme, and the [dict] built for an object is a function of the
    list of its members, so equal trees denote equal Python values.  Every
    rejection stands for [json.JSONDecodeError].  The interpreter's recursion
    limit and the decoding of the bytes to text are not part of the model. *)

Inductive literal := LNull | LTrue | LFalse | LNaN | LInfinity | LNegInfinity.

Inductive token :=
  | TLBrace | TRBrace | TLBrack | TRBrack | TComma | TColon
  | TStr (lexeme : bytes)
  | TNum (lexeme : bytes)
  | TLit (l : literal).

(** States of the automaton for the number syntax: an optional minus sign,
    an integer part that is zero or starts with a non-zero digit, an optional
    fraction, an optional exponent. *)
Inductive numstate :=
  | NMinus | NZero | NInt | NDot | NFrac | NExp | NExpSign | NExpDig.

Inductive mode :=
  | MDefault
  | MStr (acc : bytes)
  | MEsc (acc : bytes)
  | MHex (acc : bytes) (due : nat)
  | MNum (st : numstate) (acc : bytes)
  | MLit (l : literal) (seen : nat).

(** How a literal is spelled. *)
Definition spelling (l : literal) : bytes :=
  match l with
  | LNull => b "null"
  | LTrue => b "true"
  | LFalse => b "false"
  | LNaN => b "NaN"
  | LInfinity => b "Infinity"
  | LNegInfinity => b "-Infinity"
  end.

Definition is_ws (c : ascii) : bool :=
  Ascii.eqb c " " || Ascii.eqb c TAB || Ascii.eqb c LF || Ascii.eqb c CR.

Definition is_digit (c : ascii) : bool :=
  let n := nat_of_ascii c in (48 <=? n)%nat && (n <=? 57)%nat.

Definition is_digit19 (c : ascii) : bool :=
  let n := nat_of_ascii c in (49 <=? n)%nat && (n <=? 57)%nat.

Definition is_hex (c : ascii) : bool :=
  let n := nat_of_ascii c in
  is_digit c || ((65 <=? n)%nat && (n <=? 70)%nat)
             || ((97 <=? n)%nat && (n <=? 102)%nat).

Definition is_control (c : ascii) : bool := (nat_of_ascii c <? 32)%nat.

Definition is_escape (c : ascii) : bool :=
  existsb (Ascii.eqb c) (b "\/bfnrt") || Ascii.eqb c DQUOTE.

Definition num_accepting (st : numstate) : bool :=
  match st with
  | NZero | NInt | NFrac | NExpDig => true
  | _ => false
  end.

Definition is_exp (c : ascii) : bool := Ascii.eqb c "e" || Ascii.eqb c "E".

(** One more byte of a number: the next state, or [None] when the byte does
    not continue the number. *)
Definition num_step (st : numstate) (c : ascii) : option numstate :=
  match st with
  | NMinus => if Ascii.eqb c "0" then Some NZero
              else if is_digit19 c then Some NInt else None
  | NZero => if Ascii.eqb c "." then Some NDot
             else if is_exp c then Some NExp else None
  | NInt => if is_digit c then Some NInt
            else if Ascii.eqb c "." then Some NDot
            else if is_exp c then Some NExp else None
  | NDot => if is_digit c then Some NFrac else None
  | NFrac => if is_digit c then Some NFrac
             else if is_exp c then Some NExp else None
  | NExp => if is_digit c then Some NExpDig
            else if Ascii.eqb c "+" || Ascii.eqb c "-" then Some NExpSign
            else None
  | NExpSign => if is_digit c then Some NExpDig else None
  | NExpDig => if is_digit c then Some NExpDig else None
  end.

(** A byte met between two tokens. *)
Definition default_step (c : ascii) : option (list token * mode) :=
  if is_ws c then Some ([], MDefault)
  else if Ascii.eqb c "{" then Some ([TLBrace], MDefault)
  else if Ascii.eqb c "}" then Some ([TRBrace], MDefault)
  else if Ascii.eqb c "[" then Some ([TLBrack], MDefault)
  else if Ascii.eqb c "]" then Some ([TRBrack], MDefault)
  else if Ascii.eqb c "," then Some ([TComma], MDefault)
  else if Ascii.eqb c ":" then Some ([TColon], MDefault)
  else if Ascii.eqb c DQUOTE then Some ([], MStr [])
  else if Ascii.eqb c "-" then Some ([], MNum NMinus [c])
  else if Ascii.eqb c "0" then Some ([], MNum NZero [c])
  else if is_digit19 c then Some ([], MNum NInt [c])
  else if Ascii.eqb c "n" then Some ([], MLit LNull 1)
  else if Ascii.eqb c "t" then Some ([], MLit LTrue 1)
  else if Ascii.eqb c "f" then Some ([], MLit LFalse 1)
  else if Ascii.eqb c "N" then Some ([], MLit LNaN 1)
  else if Ascii.eqb c "I" then Some ([], MLit LInfinity 1)
  else None.

(** The scanner reads one byte: the tokens completed by it and the next
    mode.  Accumulators hold the lexeme read so far, last byte first; in a
    literal, [seen] counts the bytes of its spelling already read. *)
Definition lex_step (m : mode) (c : ascii) : option (list token * mode) :=
  match m with
  | MDefault => default_step c
  | MStr acc =>
      if Ascii.eqb c DQUOTE then Some ([TStr (rev acc)], MDefault)
      else if Ascii.eqb c "\" then Some ([], MEsc (c :: acc))
      else if is_control c then None
      else Some ([], MStr (c :: acc))
  | MEsc acc =>
      if is_escape c then Some ([], MStr (c :: acc))
      else if Ascii.eqb c "u" then Some ([], MHex (c :: acc) 4)
      else None
  | MHex acc due =>
      if is_hex c then
        match due with
        | S (S k) => Some ([], MHex (c :: acc) (S k))
        | _ => Some ([], MStr (c :: acc))
        end
      else None
  | MNum st acc =>
      match num_step st c with
      | Some st' => Some ([], MNum st' (c :: acc))
      | None =>
          match st with
          | NMinus =>
              if Ascii.eqb c "I"
              then Some ([], MLit LNegInfinity 2) else None
          | _ =>
              if num_accepting st then
                '(out, m') ← default_step c;
                Some (TNum (rev acc) :: out, m')
              else None
          end
      end
  | MLit l seen =>
      match drop seen (spelling l) with
      | x :: due =>
          if Ascii.eqb c x then
            match due with
            | [] => Some ([TLit l], MDefault)
            | _ => Some ([], MLit l (S seen))
            end
          else None
      | [] => None
      end
  end.

(** The scanner at the end of the text. *)
Definition lex_end (m : mode) : option (list token) :=
  match m with
  | MDefault => Some []
  | MNum st acc => if num_accepting st then Some [TNum (rev acc)] else None
  | _ => None
  end.

Fixpoint lex_run (m : mode) (s : bytes) : option (list token * mode) :=
  match s with
  | [] => Some ([], m)
  | c :: s' =>
      '(out, m1) ← lex_step m c;
      '(rest, m2) ← lex_run m1 s';
      Some (out ++ rest, m2)
  end.

Definition lex (s : bytes) : option (list token) :=
  '(toks, m) ← lex_run MDefault s;
  last ← lex_end m;
  Some (toks ++ last).

(** The decoded document.  The members of an object are kept in the order of
    the text; [dict] keeps the last value of a repeated key. *)
Inductive json :=
  | JLit (l : literal)
  | JNum (lexeme : bytes)
  | JStr (lexeme : bytes)
  | JArr (items : list json)
  | JObj (members : list (bytes * json)).

(** The parser.  [parse_array] and [parse_object] stand at the place where
    the next item, or the next member, is due; [acc] holds what the container
    has so far, last first.  A container that is opened and closed at once is
    the empty one; a comma before the closing bracket is rejected. *)
Fixpoint parse_value (fuel : nat) (ts : list token) : option (json * list token) :=
  match fuel with
  | O => None
  | S fuel' =>
      match ts with
      | TStr s :: r => Some (JStr s, r)
      | TNum s :: r => Some (JNum s, r)
      | TLit l :: r => Some (JLit l, r)
      | TLBrack :: TRBrack :: r => Some (JArr [], r)
      | TLBrack :: r => parse_array fuel' [] r
      | TLBrace :: TRBrace :: r => Some (JObj [], r)
      | TLBrace :: r => parse_object fuel' [] r
      | _ => None
      end
  end
with parse_array (fuel : nat) (acc : list json) (ts : list token)
    : option (json * list token) :=
  match fuel with
  | O => None
  | S fuel' =>
      match parse_value fuel' ts with
      | Some (v, TComma :: r) => parse_array fuel' (v :: acc) r
      | Some (v, TRBrack :: r) => Some (JArr (rev (v :: acc)), r)
      | _ => None
      end
  end
with parse_object (fuel : nat) (acc : list (bytes * json)) (ts : list token)
    : option (json * list token) :=
  match fuel with
  | O => None
  | S fuel' =>
      match ts with
      | TStr k :: TColon :: r =>
          match parse_value fuel' r with
          | Some (v, TComma :: r') => parse_object fuel' ((k, v) :: acc) r'
          | Some (v, TRBrace :: r') => Some (JObj (rev ((k, v) :: acc)), r')
          | _ => None
          end
      | _ => None
      end
  end.

(** [json.loads(s)]: the whole text is one value, white space apart.  [None]
    is [json.JSONDecodeError]. *)
Definition loads (s : bytes) : option json :=
  toks ← lex s;
  match parse_value (S (length toks)) toks with
  | Some (v, []) => Some v
  | _ => None
  end.

(** ** Outcomes of the operations

    An operation returns a value or raises.  [Exception] is the plain
    [Exception] that [utilities.py] raises with a message; the other
    constructors are the exceptions of the libraries, [OSError] standing for
    its subclasses and [MutagenError] for those of the tag library. *)

Inductive exn :=
  | JSONDecodeError
  | KeyError (key : string)
  | TypeError
  | AttributeError
  | ValueError
  | OSError
  | ConnectionError
  | MutagenError
  | Exception (message : string).

Inductive result (A : Type) :=
  | Ok (a : A)
  | Raise (e : exn).
Arguments Ok {A} a.
Arguments Raise {A} e.

(** Lines 115 to 121 of [fetch_metadata] in [utilities.py] (125 to 132 in
    [__main__.py]): what is made of the standard output of a downloader that
    exited with code 0.  The second [json.loads] runs inside the handler of
    the first, so its own [JSONDecodeError] leaves the function.  The bare
    [except:] clause catches what is not a [JSONDecodeError]; the decoder of
    this model raises nothing else.  [boundary] and [closing] are the byte
    strings looked for by the two calls of [replace]: a closing brace, a line
    feed and an opening brace; a closing brace and a line feed. *)
Definition boundary : bytes := [ "}"; LF; "{" ].
Definition closing : bytes := [ "}"; LF ].

Definition repair (stdout : bytes) : bytes :=
  b "[" ++ replace closing (b "}") (replace boundary (b "},{") stdout) ++ b "]".

Definition decode_stdout (stdout : bytes) : result json :=
  match loads stdout with
  | Some metadata => Ok metadata
  | None =>
      match loads (repair stdout) with
      | Some metadata => Ok metadata
      | None => Raise JSONDecodeError
      end
  end.

(** [sep.join(parts)] *)
Fixpoint join {A} (sep : list A) (parts : list (list A)) : list A :=
  match parts with
  | [] => []
  | [t] => t
  | t :: rest => t ++ sep ++ join sep rest
  end.

(** A closing brace directly followed, as a token, by an opening brace. *)
Definition is_rbrace (t : token) : bool :=
  match t with TRBrace => true | _ => false end.

Definition is_lbrace (t : token) : bool :=
  match t with TLBrace => true | _ => false end.

Definition starts_lbrace (ts : list token) : bool :=
  match ts with t :: _ => is_lbrace t | [] => false end.

Fixpoint no_adj (ts : list token) : bool :=
  match ts with
  | [] => true
  | t :: r => negb (is_rbrace t && starts_lbrace r) && no_adj r
  end.

(** The tokens a value can start with. *)
Definition starts_value (ts : list token) : bool :=
  match ts with
  | (TStr _ | TNum _ | TLit _ | TLBrack | TLBrace) :: _ => true
  | _ => false
  end.

(** [consumes p ts v rest]: the parser [p] reads [v] off the front of [ts]
    and leaves [rest].  The tokens it read have no closing brace next to an
    opening one, and any fuel that is at least their number lets [p] read the
    same value in front of any other continuation. *)
Definition consumes (p : nat -> list token -> option (json * list token))
    (ts : list token) (v : json) (rest : list token) : Prop :=
  exists pre,
    ts = pre ++ rest /\ starts_value pre = true /\ no_adj pre = true /\
    forall fuel x, length pre <= fuel -> p fuel (pre ++ x) = Some (v, x).

(** [t] is the text of one JSON object, from its opening brace to its
    closing brace, and [json.loads] reads it as the object with the members
    [o]. *)
Definition object_text (t : bytes) (o : list (bytes * json)) : Prop :=
  (exists body, t = "{" :: body ++ [ "}" ]) /\ loads t = Some (JObj o).

(** What the proofs below use of an object text: its tokens [toks], which
    the repair leaves alone. *)
Definition piece (t : bytes) (toks : list token) (o : list (bytes * json)) : Prop :=
  (exists body, t = "{" :: body ++ [ "}" ]) /\
  lex_run MDefault t = Some (toks, MDefault) /\
  lex_run MDefault (replace closing (b "}") t) = Some (toks, MDefault) /\
  replace boundary (b "},{") t = t /\
  starts_value toks = true /\
  forall fuel x, length toks <= fuel ->
    parse_value fuel (toks ++ x) = Some (JObj o, x).

(** The downloader's output for several items: one object per line, the last
    line with or without its line feed. *)
Definition is_tail (tail : bytes) : Prop := tail = [] \/ tail = [LF].

Open Scope string_scope.

(** ** Paths

    A [pathlib.Path] is the list of its components below the root. *)

Abbreviation path := (list string).

Definition parent (p : path) : path := removelast p.

Definition name (p : path) : string := List.last p ""%string.

Definition as_posix (p : path) : string :=
  String.append "/" (String.concat "/" p).

(** [Path.cwd() / name] *)
Definition child (dir : path) (n : string) : path := dir ++ [n].

(** [s.rfind(".")] *)
Fixpoint rfind_dot (s : bytes) : option nat :=
  match s with
  | [] => None
  | c :: s' =>
      match rfind_dot s' with
      | Some i => Some (S i)
      | None => if Ascii.eqb c "." then Some 0 else None
      end
  end.

(** [Path.suffix]: the name from its last dot on, unless that dot is the
    first or the last byte of the name. *)
Definition suffix (p : path) : string :=
  let n := b (name p) in
  match rfind_dot n with
  | Some i =>
      if (0 <? i)%nat && (i <? length n - 1)%nat
      then string_of_list_ascii (drop i n) else ""%string
  | None => ""%string
  end.

(** [str.lower] on the ASCII letters. *)
Definition lower_ascii (c : ascii) : ascii :=
  let n := nat_of_ascii c in
  if (65 <=? n)%nat && (n <=? 90)%nat then ascii_of_nat (n + 32) else c.

Definition lower (s : string) : string :=
  string_of_list_ascii (map lower_ascii (b s)).

(** [s.endswith(p)] on text. *)
Definition str_endswith (p s : string) : bool := endswith (b p) (b s).

(** ** Python values

    What [json.loads] hands to the program, and what the program stores in
    tag objects.  [PyNum] keeps the lexeme of the number.  A [dict] is the
    list of its items in insertion order, each key once. *)

Inductive pyobj :=
  | PyNone
  | PyBool (v : bool)
  | PyNum (lexeme : bytes)
  | PyStr (s : string)
  | PyBytes (data : bytes)
  | PyList (items : list pyobj)
  | PyDict (items : list (string * pyobj)).

(** [d[k] = v] *)
Fixpoint dict_set (d : list (string * pyobj)) (k : string) (v : pyobj)
    : list (string * pyobj) :=
  match d with
  | [] => [(k, v)]
  | (k', v') :: d' =>
      if String.eqb k' k then (k', v) :: d' else (k', v') :: dict_set d' k v
  end.

(** [d.get(k)] *)
Fixpoint dict_get (d : list (string * pyobj)) (k : string) : option pyobj :=
  match d with
  | [] => None
  | (k', v) :: d' => if String.eqb k' k then Some v else dict_get d' k
  end.

(** [dict(pairs)] *)
Definition dict_of_pairs (pairs : list (string * pyobj)) : list (string * pyobj) :=
  fold_left (fun d kv => dict_set d (fst kv) (snd kv)) pairs [].

Section ToPython.
(** The text denoted by the lexeme of a JSON string, escapes resolved: part
    of the decoder that is left as a parameter. *)
Variable py_str : bytes -> string.

Definition literal_to_python (l : literal) : pyobj :=
  match l with
  | LNull => PyNone
  | LTrue => PyBool true
  | LFalse => PyBool false
  | LNaN | LInfinity | LNegInfinity => PyNum (spelling l)
  end.

(** The Python object for a decoded document. *)
Fixpoint to_python (j : json) : pyobj :=
  match j with
  | JLit l => literal_to_python l
  | JNum lexeme => PyNum lexeme
  | JStr lexeme => PyStr (py_str lexeme)
  | JArr items => PyList (map to_python items)
  | JObj members =>
      PyDict (dict_of_pairs
                (map (fun kv => (py_str (fst kv), to_python (snd kv))) members))
  end.
End ToPython.

(** ** Media files and the tag library (mutagen)

    The tag library is not part of the repository.  Its model keeps what the
    program relies on: a constructor reads the tags of the file at a path
    into an object of its own, assignments change that object only, and
    [save] replaces the tags of the file by those of the object.

    On disk, the atoms of an MP4 file are texts or cover images, an ID3 tag
    maps the hash key of a frame to the frame, and the comments of an Opus
    file are a list of pairs. *)

Inductive imageformat := FORMAT_JPEG | FORMAT_PNG.

Inductive atom :=
  | Text (values : list string)
  | Covers (images : list (imageformat * bytes)).

Inductive frame :=
  | APIC (encoding : Z) (mime : string) (type : Z) (desc : string) (data : bytes)
  | OtherFrame (id : string) (payload : bytes).

Definition HashKey (f : frame) : string :=
  match f with
  | APIC _ _ _ desc _ => String.append "APIC:" desc
  | OtherFrame id _ => id
  end.

Inductive content :=
  | Blob (data : bytes)
  | Mp4File (audio : bytes) (tags : option (gmap string atom))
  | Mp3File (audio : bytes) (tags : option (gmap string frame))
  | OpusFile (audio : bytes) (comments : list (string * string)).

(** In an [MP4] object a tag is a Python value or, for covers read from the
    file, an [MP4Cover]. *)
Inductive mp4value :=
  | Value (v : pyobj)
  | CoverObjects (images : list (imageformat * bytes)).

(** What the object holds for an atom of the file. *)
Definition atom_load (a : atom) : mp4value :=
  match a with
  | Text values => Value (PyList (map PyStr values))
  | Covers images => CoverObjects images
  end.

Definition as_str (v : pyobj) : option string :=
  match v with PyStr s => Some s | _ => None end.

(** The texts written for a value: a [str] counts as the list of itself;
    any other value is iterated, which is not possible for [None], a boolean
    or a number, and every item must be a [str].  Iterating a [dict] gives
    its keys, and iterating [bytes] gives numbers, so that only the empty
    [bytes] pass. *)
Definition render_text (v : pyobj) : option (list string) :=
  match v with
  | PyStr s => Some [s]
  | PyList items => mapM as_str items
  | PyDict items => Some (map fst items)
  | PyBytes [] => Some []
  | _ => None
  end.

(** The images written for the value of [covr]: plain [bytes] carry no
    format and are written as JPEG, the default of the library. *)
Definition render_cover_item (v : pyobj) : option (imageformat * bytes) :=
  match v with
  | PyBytes data => Some (FORMAT_JPEG, data)
  | _ => None
  end.

Definition atom_render (key : string) (v : mp4value) : option atom :=
  match v with
  | CoverObjects images =>
      if String.eqb key "covr" then Some (Covers images) else None
  | Value v =>
      if String.eqb key "covr" then
        match v with
        | PyList items => Covers <$> mapM render_cover_item items
        | _ => None
        end
      else Text <$> render_text v
  end.

(** All the tags of an object, rendered; [None] when one of them cannot be. *)
Definition render_tags (tags : gmap string mp4value) : option (gmap string atom) :=
  if decide (map_Forall (fun k v => is_Some (atom_render k v)) tags)
  then Some (map_imap atom_render tags)
  else None.

(** ** The world *)

Record filesystem := {
  files : gmap path content;
  dirs : gset path;
}.

Inductive container := MP4 | MP3 | OggOpus.

(** What the program does to its surroundings, in order. *)
Inductive event :=
  | EMkdir (p : path)
  | ERun (command : list string)
  | EGet (url : string)
  | EWrite (p : path)
  | ERead (p : path)
  | EOpen (c : container) (p : path)
  | ESave (c : container) (p : path)
  | EPrint (text : string)
  | EPprint (command : list string)
  | EPrintJson (v : pyobj)
  | ELogError (message : string)
  | EDictConfig.

Record world := {
  fs : filesystem;
  trace : list event;
}.

(** The end of a child process: it did not start, or it exited with a code
    after writing to its standard output and to the disk. *)
Inductive completed :=
  | NotStarted
  | Completed (returncode : Z) (stdout : bytes) (fs_after : filesystem).

Inductive response :=
  | NoResponse
  | Response (status_code : Z) (content : bytes).

(** What surrounds the program. *)
Record env := {
  cwd : path;
  project_root : path;
  YT_DLP_PATH : path;
  subprocess_run : list string -> filesystem -> completed;
  requests_get : string -> response;
  py_str : bytes -> string;
  dictConfig_ok : pyobj -> bool;
}.

(** ** Operations as state transformers that may raise *)

Definition M (A : Type) : Type := world -> result A * world.

#[global] Instance M_ret : MRet M := fun A a w => (Ok a, w).

#[global] Instance M_bind : MBind M := fun A B f m w =>
  match m w with
  | (Ok a, w') => f a w'
  | (Raise e, w') => (Raise e, w')
  end.

Definition raise {A} (e : exn) : M A := fun w => (Raise e, w).

(** The world after one more event. *)
Definition record (e : event) (w : world) : world :=
  {| fs := fs w; trace := trace w ++ [e] |}.

Definition emit (e : event) : M unit := fun w => (Ok tt, record e w).

Definition get_fs : M filesystem := fun w => (Ok (fs w), w).

(** The world with another disk. *)
Definition set_fs (f : filesystem) (w : world) : world :=
  {| fs := f; trace := trace w |}.

Definition put_fs (f : filesystem) : M unit := fun w => (Ok tt, set_fs f w).

(** The result of a run and the world it leaves. *)
Definition outcome {A} (m : M A) (w : world) : result A := fst (m w).
Definition final {A} (m : M A) (w : world) : world := snd (m w).

(** ** The file system, the network and child processes *)

(** The path and the directories above it, the root apart. *)
Definition ancestors (p : path) : list path :=
  map (fun n => take n p) (seq 1 (length p)).

(** The disk once the directories down to [p] are made, and once the file
    at [p] holds [c]. *)
Definition made (f : filesystem) (p : path) : filesystem :=
  {| files := files f; dirs := dirs f ∪ list_to_set (ancestors p) |}.

Definition written (f : filesystem) (p : path) (c : content) : filesystem :=
  {| files := <[p := c]> (files f); dirs := dirs f |}.

Definition is_file (f : filesystem) (p : path) : bool :=
  bool_decide (is_Some (files f !! p)).

Definition is_dir (f : filesystem) (p : path) : bool :=
  bool_decide (p = []) || bool_decide (p ∈ dirs f).

(** [p.mkdir(parents=True, exist_ok=True)]: fails when the path or a
    directory above it is a file, and otherwise makes the directories that
    are missing. *)
Definition mkdir_parents (p : path) : M unit :=
  emit (EMkdir p);;
  f ← get_fs;
  if existsb (is_file f) (ancestors p) then raise OSError
  else put_fs (made f p).

(** [open(p, "wb")] followed by [write(data)]. *)
Definition write_bytes (p : path) (data : bytes) : M unit :=
  emit (EWrite p);;
  f ← get_fs;
  if is_dir f p || negb (is_dir f (parent p)) then raise OSError
  else put_fs (written f p (Blob data)).

(** [open(p, "rb")] followed by [read()], and [p.read_text()].  The bytes of
    a media file are not modelled. *)
Definition read_bytes (p : path) : M bytes :=
  emit (ERead p);;
  f ← get_fs;
  match files f !! p with
  | Some (Blob data) => mret data
  | _ => raise OSError
  end.

(** [p.exists()] *)
Definition exists_ (p : path) : M bool :=
  f ← get_fs; mret (is_file f p || is_dir f p).

Section Surroundings.
Variable E : env.

(** [requests.get(url)]: the content of the response, whatever its status;
    an exception when there is no response. *)
Definition requests_get_content (url : string) : M bytes :=
  emit (EGet url);;
  match requests_get E url with
  | NoResponse => raise ConnectionError
  | Response _ content => mret content
  end.

(** [subprocess.run(command, shell=False)]: the return code and the
    standard output. *)
Definition run (command : list string) : M (Z * bytes) :=
  emit (ERun command);;
  f ← get_fs;
  match subprocess_run E command f with
  | NotStarted => raise OSError
  | Completed returncode stdout f' => put_fs f';; mret (returncode, stdout)
  end.
End Surroundings.

(** ** The tag library *)

(** The [tags] attribute of an [MP4] object; [None] when the file has no
    tags. *)
Abbreviation mp4obj := (option (gmap string mp4value)).

Definition tags_load (tags : option (gmap string atom)) : mp4obj :=
  option_map (fun t : gmap string atom => atom_load <$> t) tags.

(** [MP4(p)] *)
Definition MP4_open (p : path) : M mp4obj :=
  emit (EOpen MP4 p);;
  f ← get_fs;
  match files f !! p with
  | Some (Mp4File _ tags) => mret (tags_load tags)
  | _ => raise MutagenError
  end.

(** The object once [v] is stored under [key]; an object without tags gets
    empty tags first. *)
Definition MP4_stored (obj : mp4obj) (key : string) (v : pyobj) : mp4obj :=
  Some (<[key := Value v]> (default ∅ obj)).

(** [obj[key] = v]: the tags render the value when it is assigned, and a
    value that cannot be rendered (for a text atom: what is neither a [str]
    nor a sequence of [str]) is refused with a [TypeError]. *)
Definition MP4_setitem (obj : mp4obj) (key : string) (v : pyobj) : M mp4obj :=
  match atom_render key (Value v) with
  | Some _ => mret (MP4_stored obj key v)
  | None => raise TypeError
  end.

(** [obj.tags[key] = v]: there must be tags, and the value is rendered as
    above. *)
Definition MP4_tags_setitem (obj : mp4obj) (key : string) (v : pyobj) : M mp4obj :=
  match obj with
  | None => raise TypeError
  | Some tags =>
      match atom_render key (Value v) with
      | Some _ => mret (Some (<[key := Value v]> tags))
      | None => raise TypeError
      end
  end.

(** [obj.save(p)]: nothing to do for an object without tags; otherwise the
    tags are rendered and then put in the place of those of the file. *)
Definition MP4_save (obj : mp4obj) (p : path) : M unit :=
  emit (ESave MP4 p);;
  match obj with
  | None => mret tt
  | Some tags =>
      f ← get_fs;
      match files f !! p, render_tags tags with
      | Some (Mp4File audio _), Some atoms =>
          put_fs (written f p (Mp4File audio (Some atoms)))
      | _, _ => raise MutagenError
      end
  end.

(** The [tags] attribute of an [MP3] object opened with [ID3=ID3]. *)
Abbreviation mp3obj := (option (gmap string frame)).

(** [MP3(p, ID3=ID3)] *)
Definition MP3_open (p : path) : M mp3obj :=
  emit (EOpen MP3 p);;
  f ← get_fs;
  match files f !! p with
  | Some (Mp3File _ tags) => mret tags
  | _ => raise MutagenError
  end.

(** [obj.tags.add(frame)]: the frame takes the place of the one with the
    same hash key. *)
Definition MP3_tags_add (obj : mp3obj) (f : frame) : M mp3obj :=
  match obj with
  | None => raise AttributeError
  | Some tags => mret (Some (<[HashKey f := f]> tags))
  end.

(** [obj.save(p)] *)
Definition MP3_save (obj : mp3obj) (p : path) : M unit :=
  emit (ESave MP3 p);;
  match obj with
  | None => mret tt
  | Some tags =>
      f ← get_fs;
      match files f !! p with
      | Some (Mp3File audio _) =>
          put_fs (written f p (Mp3File audio (Some tags)))
      | _ => raise MutagenError
      end
  end.

(** The comments of an [OggOpus] object. *)
Abbreviation opusobj := (list (string * pyobj)).

(** [OggOpus(p)] *)
Definition OggOpus_open (p : path) : M opusobj :=
  emit (EOpen OggOpus p);;
  f ← get_fs;
  match files f !! p with
  | Some (OpusFile _ comments) =>
      mret (map (fun kv => (fst kv, PyStr (snd kv))) comments)
  | _ => raise MutagenError
  end.

Definition values_of (v : pyobj) : list pyobj :=
  match v with PyList items => items | _ => [v] end.

Definition same_key (k k' : string) : bool := String.eqb (lower k) (lower k').

(** [obj[key] = v]: the comments of that key, whatever the case of its
    letters, are dropped and the new ones are added at the end. *)
Definition OggOpus_setitem (obj : opusobj) (key : string) (v : pyobj) : opusobj :=
  filter (fun kv => negb (same_key key (fst kv))) obj
  ++ map (fun x => (key, x)) (values_of v).

(** [obj.save()], on the file it was opened from: every comment must be a
    [str]. *)
Definition OggOpus_save (obj : opusobj) (p : path) : M unit :=
  emit (ESave OggOpus p);;
  f ← get_fs;
  match files f !! p, mapM (fun kv => (fun s => (fst kv, s)) <$> as_str (snd kv)) obj with
  | Some (OpusFile audio _), Some comments =>
      put_fs (written f p (OpusFile audio comments))
  | Some (OpusFile _ _), None => raise ValueError
  | _, _ => raise MutagenError
  end.

(** [d[key]] for the value [d] that [json.loads] returned. *)
Definition getitem (d : pyobj) (key : string) : M pyobj :=
  match d with
  | PyDict items =>
      match dict_get items key with
      | Some v => mret v
      | None => raise (KeyError key)
      end
  | _ => raise TypeError
  end.
(** ** [youtube_music_metadata/utilities.py] *)

(** An [MP4Cover] as the source builds it: the image and whatever was given
    as [imageformat]. *)
Record MP4Cover := {
  cover_data : bytes;
  cover_imageformat : string;
}.

(** The tag keys of [set_m4a_metadata]; their first byte is the copyright
    sign, written [\xa9] in the source. *)
Definition KEY_nam : string := String "169" "nam".
Definition KEY_ART : string := String "169" "ART".
Definition KEY_day : string := String "169" "day".
Definition KEY_cmt : string := String "169" "cmt".

Definition OUTPUT_TEMPLATE : string := "%(title)s.%(ext)s".

(** The test on the address of the cover shared by the two branches of
    [set_cover]. *)
Definition is_jpeg_url (cover : string) : bool :=
  str_endswith ".jpg" cover || str_endswith ".jpeg" cover.

Module Utilities.
Section WithEnv.
Variable E : env.

Definition download_failed (url : string) (returncode : Z) : string :=
  String.concat "" [
    "Subprocess call failed for url "; url;
    " when attempting to download video with metadata with code: ";
    pretty returncode ]%string.

Definition metadata_failed (url : string) (returncode : Z) : string :=
  String.concat "" [
    "Subprocess call failed for url `"; url;
    "` when attempting to write metadata with code: ";
    pretty returncode ]%string.

Definition download_audio_with_metadata (url : string) (file_path : option path)
    : M unit :=
  let file_path := default (child (cwd E) OUTPUT_TEMPLATE) file_path in
  mkdir_parents (parent file_path);;
  let command := [
    as_posix (YT_DLP_PATH E); "--embed-thumbnail"; "--add-metadata";
    "--extract-audio"; "-o"; as_posix file_path; url ]%string in
  emit (EPprint command);;
  response ← run E command;
  if negb (fst response =? 0)%Z
  then raise (Exception (download_failed url (fst response)))
  else mret tt.

Definition fetch_metadata (url : string) : M pyobj :=
  let command := [ as_posix (YT_DLP_PATH E); "--dump-json"; url ]%string in
  response ← run E command;
  if (fst response =? 0)%Z then
    match decode_stdout (snd response) with
    | Ok metadata => mret (to_python (py_str E) metadata)
    | Raise e => raise e
    end
  else raise (Exception (metadata_failed url (fst response))).

Definition download_thumbnail (url : string) (file_path : option path) : M unit :=
  let file_path := default (child (cwd E) OUTPUT_TEMPLATE) file_path in
  mkdir_parents (parent file_path);;
  response ← run E [
    as_posix (YT_DLP_PATH E); "--write-thumbnail"; "--skip-download";
    "-o"; as_posix file_path; url ]%string;
  if negb (fst response =? 0)%Z
  then raise (Exception (download_failed url (fst response)))
  else mret tt.

(** [cover] is what the caller passes as the address of the image;
    [requests.get] rejects what is not text with a [ValueError]. *)
Definition set_cover (cover : pyobj) (file_path : option path) : M unit :=
  let file_path := default (child (cwd E) "cover.jpg") file_path in
  mkdir_parents (parent file_path);;
  match cover with
  | PyStr cover =>
      content ← requests_get_content E cover;
      let cover_path := child (cwd E) "cover.jpg" in
      write_bytes cover_path content;;
      if str_endswith ".mp3" (as_posix file_path) then
        MP3file ← MP3_open file_path;
        let mime := if is_jpeg_url cover then "image/jpg" else "image/png" in
        albumart ← read_bytes cover_path;
        MP3file ← MP3_tags_add MP3file (APIC 3 mime 3 "Cover" albumart);
        MP3_save MP3file file_path
      else
        MP4file ← MP4_open file_path;
        let cover_format :=
          if is_jpeg_url cover
          then "MP4Cover.FORMAT_JPEG" else "MP4Cover.FORMAT_PNG" in
        data ← read_bytes cover_path;
        let albumart :=
          {| cover_data := data; cover_imageformat := cover_format |} in
        MP4file ← MP4_tags_setitem MP4file "covr"
                    (PyList [PyBytes (cover_data albumart)]);
        MP4_save MP4file file_path
  | _ => raise ValueError
  end.

Definition set_m4a_metadata (file_path : path) (file_metadata : pyobj) : M unit :=
  tags ← MP4_open file_path;
  title ← getitem file_metadata "title";
  tags ← MP4_setitem tags KEY_nam title;
  channel ← getitem file_metadata "channel";
  tags ← MP4_setitem tags KEY_ART channel;
  upload_date ← getitem file_metadata "upload_date";
  tags ← MP4_setitem tags KEY_day upload_date;
  webpage_url ← getitem file_metadata "webpage_url";
  tags ← MP4_setitem tags KEY_cmt webpage_url;
  description ← getitem file_metadata "description";
  tags ← MP4_setitem tags "desc" description;
  thumbnail ← getitem file_metadata "thumbnail";
  set_cover thumbnail (Some file_path);;
  MP4_save tags file_path.

Definition set_opus_metadata (file_path : path) (file_metadata : pyobj) : M unit :=
  tags ← OggOpus_open file_path;
  title ← getitem file_metadata "title";
  let tags := OggOpus_setitem tags "TITLE" title in
  channel ← getitem file_metadata "channel";
  let tags := OggOpus_setitem tags "ARTIST" channel in
  upload_date ← getitem file_metadata "upload_date";
  let tags := OggOpus_setitem tags "DATE" upload_date in
  webpage_url ← getitem file_metadata "webpage_url";
  let tags := OggOpus_setitem tags "COMMENT" webpage_url in
  description ← getitem file_metadata "description";
  let tags := OggOpus_setitem tags "DESCRIPTION" description in
  OggOpus_save tags file_path.

Definition load_logging_config (config_path : path) : M pyobj :=
  text ← read_bytes config_path;
  match loads text with
  | Some config => mret (to_python (py_str E) config)
  | None => raise ValueError
  end.
End WithEnv.
End Utilities.

(** ** [__main__.py], the earlier script

    Its functions log a failure of the downloader and go on. *)

Module Legacy.
Section WithEnv.
Variable E : env.

Definition YOUTUBE_DL : path := cwd E ++ [".venv"; "Scripts"; "youtube-dl.exe"]%string.

Definition data_template : path := cwd E ++ ["data"; OUTPUT_TEMPLATE]%string.

Definition failed (url what : string) (returncode : Z) : string :=
  String.concat "" [
    "Subprocess call failed for url `"; url; "` when attempting to "; what;
    " with code: "; pretty returncode ]%string.

Definition download_audio_with_metadata (url : string) : M unit :=
  callResponse ← run E [
    as_posix YOUTUBE_DL; "--embed-thumbnail"; "--add-metadata";
    "--extract-audio"; "-o"; as_posix data_template; url ]%string;
  if negb (fst callResponse =? 0)%Z
  then emit (ELogError (failed url "download video with metadata" (fst callResponse)))
  else mret tt.

Definition fetch_metadata (url : string) : M pyobj :=
  let metadata := PyDict [] in
  callResponse ← run E [ as_posix YOUTUBE_DL; "-j"; url ]%string;
  if (fst callResponse =? 0)%Z then
    match decode_stdout (snd callResponse) with
    | Ok metadata => mret (to_python (py_str E) metadata)
    | Raise e => raise e
    end
  else
    emit (ELogError (failed url "write metadata" (fst callResponse)));;
    mret metadata.

Definition download_thumbnail (url : string) : M unit :=
  callResponse ← run E [
    as_posix YOUTUBE_DL; "--write-thumbnail"; "--skip-download";
    "-o"; as_posix data_template; url ]%string;
  if negb (fst callResponse =? 0)%Z
  then emit (ELogError (failed url "write thumbnail" (fst callResponse)))
  else mret tt.

Definition set_cover (file_path : path) (cover : pyobj) : M unit :=
  match cover with
  | PyStr cover =>
      content ← requests_get_content E cover;
      let cover_path := child (cwd E) "cover.jpg" in
      write_bytes cover_path content;;
      if str_endswith ".mp3" (as_posix file_path) then
        MP3file ← MP3_open file_path;
        let mime := if is_jpeg_url cover then "image/jpg" else "image/png" in
        albumart ← read_bytes cover_path;
        MP3file ← MP3_tags_add MP3file (APIC 3 mime 3 "Cover" albumart);
        MP3_save MP3file file_path
      else
        MP4file ← MP4_open file_path;
        let cover_format :=
          if is_jpeg_url cover
          then "MP4Cover.FORMAT_JPEG" else "MP4Cover.FORMAT_PNG" in
        data ← read_bytes cover_path;
        let albumart :=
          {| cover_data := data; cover_imageformat := cover_format |} in
        MP4file ← MP4_tags_setitem MP4file "covr"
                    (PyList [PyBytes (cover_data albumart)]);
        MP4_save MP4file file_path
  | _ => raise ValueError
  end.

Definition set_m4a_metadata (file_path : path) (file_metadata : pyobj) : M unit :=
  tags ← MP4_open file_path;
  title ← getitem file_metadata "title";
  tags ← MP4_setitem tags KEY_nam title;
  channel ← getitem file_metadata "channel";
  tags ← MP4_setitem tags KEY_ART channel;
  upload_date ← getitem file_metadata "upload_date";
  tags ← MP4_setitem tags KEY_day upload_date;
  webpage_url ← getitem file_metadata "webpage_url";
  tags ← MP4_setitem tags KEY_cmt webpage_url;
  description ← getitem file_metadata "description";
  tags ← MP4_setitem tags "desc" description;
  thumbnail ← getitem file_metadata "thumbnail";
  set_cover file_path thumbnail;;
  MP4_save tags file_path.
End WithEnv.
End Legacy.

(** ** [scripts/download_youtube_audio.py] *)

Module Script.
(** The parsed command line. *)
Record args := {
  url : string;
  output_file_path : option path;
  no_m4a_metadata : bool;
  metadata_only : bool;
  download_thumbnail : bool;
  set_m4a_metadata : option path;
  log_config : option path;
}.

Section WithEnv.
Variable E : env.

Definition default_config_path : path :=
  project_root E ++ ["config"; "default_logging_config.json"]%string.

(** [logging.config.dictConfig(config)] *)
Definition dictConfig (config : pyobj) : M unit :=
  if dictConfig_ok E config then emit EDictConfig else raise ValueError.

(** The choice of the logging configuration at the start of [main]. *)
Definition LOGGER_CONFIG (a : args) : M pyobj :=
  match log_config a return M pyobj with
  | Some p =>
      found ← exists_ p;
      if (found : bool) then Utilities.load_logging_config E p
      else Utilities.load_logging_config E default_config_path
  | None => Utilities.load_logging_config E default_config_path
  end.

Definition logging_setup (a : args) : M unit :=
  config ← LOGGER_CONFIG a;
  dictConfig config.

Definition unsupported (file_extension : string) : string :=
  String.append "Unsupported file format: " file_extension.

(** The branch of [main] taken with [--set-m4a-metadata], from the
    metadata on (lines 91 to 98). *)
Definition write_tags (file_path : path) (metadata : pyobj) : M unit :=
  let file_extension := lower (suffix file_path) in
  if String.eqb file_extension ".m4a" then
    Utilities.set_m4a_metadata E file_path metadata
  else if String.eqb file_extension ".opus" then
    Utilities.set_opus_metadata file_path metadata
  else emit (EPrint (unsupported file_extension)).

Definition main (a : args) : M unit :=
  logging_setup a;;
  if metadata_only a then
    metadata ← Utilities.fetch_metadata E (url a);
    emit (EPrintJson metadata)
  else if download_thumbnail a then
    Utilities.download_thumbnail E (url a) None
  else
    match set_m4a_metadata a with
    | Some file_path =>
        metadata ← Utilities.fetch_metadata E (url a);
        write_tags file_path metadata
    | None =>
        Utilities.download_audio_with_metadata E (url a) (output_file_path a)
    end.
End WithEnv.
End Script.

(** ** Auxiliary notions for the statements *)

(** The values of the keys [keys] of [d], looked up one after the other as
    the tag writers do. *)
Fixpoint lookup_all (d : pyobj) (keys : list string) : result (list pyobj) :=
  match keys with
  | [] => Ok []
  | k :: ks =>
      match d with
      | PyDict items =>
          match dict_get items k with
          | Some v =>
              match lookup_all d ks with
              | Ok vs => Ok (v :: vs)
              | Raise e => Raise e
              end
          | None => Raise (KeyError k)
          end
      | _ => Raise TypeError
      end
  end.

(** What [set_m4a_metadata] gets from the metadata before it calls
    [set_cover], in the order of the source: each of the keys [texts] is
    looked up and its value assigned at once, which the tag library refuses
    for a value that is no text; the keys [others] are only looked up. *)
Fixpoint read_fields (d : pyobj) (texts others : list string)
    : result (list pyobj) :=
  match texts with
  | [] => lookup_all d others
  | k :: ks =>
      match d with
      | PyDict items =>
          match dict_get items k with
          | Some v =>
              match render_text v with
              | Some _ =>
                  match read_fields d ks others with
                  | Ok vs => Ok (v :: vs)
                  | Raise e => Raise e
                  end
              | None => Raise TypeError
              end
          | None => Raise (KeyError k)
          end
      | _ => Raise TypeError
      end
  end.

(** The keys read by [set_m4a_metadata] and by [set_opus_metadata], in the
    order of the source. *)
Definition m4a_fields : list string :=
  ["title"; "channel"; "upload_date"; "webpage_url"; "description"; "thumbnail"].

Definition opus_fields : list string :=
  ["title"; "channel"; "upload_date"; "webpage_url"; "description"].

(** The values [set_m4a_metadata] goes on with: the five texts, each
    accepted by the tag library, and the thumbnail. *)
Definition m4a_read (d : pyobj) : result (list pyobj) :=
  read_fields d opus_fields ["thumbnail"].

(** The record [items] has the field [k], and its value is a text for the
    tag library. *)
Definition text_at (items : list (string * pyobj)) (k : string) : Prop :=
  exists v, dict_get items k = Some v /\ is_Some (render_text v).

(** The tags of the object of [set_m4a_metadata] after its five
    assignments. *)
Definition m4a_assigned (obj : mp4obj) (title channel upload_date webpage_url
    description : pyobj) : mp4obj :=
  MP4_stored (MP4_stored (MP4_stored (MP4_stored (MP4_stored obj
    KEY_nam title) KEY_ART channel) KEY_day upload_date) KEY_cmt webpage_url)
    "desc" description.

(** The comments of the object of [set_opus_metadata] after its five
    assignments. *)
Definition opus_assigned (obj : opusobj) (title channel upload_date webpage_url
    description : pyobj) : opusobj :=
  OggOpus_setitem (OggOpus_setitem (OggOpus_setitem (OggOpus_setitem
    (OggOpus_setitem obj "TITLE" title) "ARTIST" channel) "DATE" upload_date)
    "COMMENT" webpage_url) "DESCRIPTION" description.

#[global] Instance container_eq_dec : EqDecision container.
Proof. solve_decision. Defined.

(** [e] is a call of [save] on the file at [p] by the class [c]. *)
Definition is_save (c : container) (p : path) (e : event) : bool :=
  match e with
  | ESave c' p' => bool_decide (c' = c) && bool_decide (p' = p)
  | _ => false
  end.

Fixpoint saves (c : container) (p : path) (evs : list event) : nat :=
  match evs with
  | [] => 0
  | e :: evs' => (if is_save c p e then 1 else 0) + saves c p evs'
  end.

(** The events of a run from [w] to [w']. *)
Definition new_events (w w' : world) : list event :=
  drop (length (trace w)) (trace w').

(** The five texts that [set_m4a_metadata] assigns. *)
Definition m4a_texts (title channel upload_date webpage_url description : pyobj)
    : gmap string mp4value :=
  <["desc" := Value description]> (<[KEY_cmt := Value webpage_url]>
    (<[KEY_day := Value upload_date]> (<[KEY_ART := Value channel]>
      (<[KEY_nam := Value title]> ∅)))).

(** Atoms that are rendered as themselves when they are read again. *)
Definition stable (D : gmap string atom) : Prop :=
  forall k a, D !! k = Some a -> atom_render k (atom_load a) = Some a.
(** ** Sample surroundings *)

Definition home : path := ["home"; "user"].
Definition track_m4a : path := home ++ ["track.m4a"].
Definition track_mp3 : path := home ++ ["track.mp3"].
Definition track_opus : path := home ++ ["track.opus"].
Definition video_url : string := "https://example.com/v".

(** Surroundings in which the downloader ends as given without touching the
    disk and every address answers with the same response. *)
Definition sample_env (ended : filesystem -> completed) (answer : response) : env := {|
  cwd := home;
  project_root := ["opt"; "youtube_music_metadata"];
  YT_DLP_PATH := ["opt"; "venv"; "Scripts"; "yt-dlp.exe"];
  subprocess_run := fun _ f => ended f;
  requests_get := fun _ => answer;
  py_str := string_of_list_ascii;
  dictConfig_ok := fun _ => true;
|}.

Definition exits (returncode : Z) (stdout : bytes) : filesystem -> completed :=
  fun f => Completed returncode stdout f.

Definition cover_bytes : bytes := b "JFIF image".
Definition answers : response := Response 200 cover_bytes.

Definition on_disk (fls : list (path * content)) : world := {|
  fs := {| files := list_to_map fls; dirs := list_to_set (ancestors home) |};
  trace := [];
|}.

(** The text of a JSON object whose values are strings. *)
Definition quoted (s : string) : bytes := DQUOTE :: b s ++ [DQUOTE].

Definition member (k v : string) : bytes := quoted k ++ b ": " ++ quoted v.

Definition object_of (members : list bytes) : bytes :=
  b "{" ++ join (b ", ") members ++ b "}".

(** The record of the example of the specification, as text and as the value
    that [json.loads] makes of it. *)
Definition song_a_text : bytes :=
  object_of [
    member "title" "Song A"; member "channel" "Artist X";
    member "upload_date" "20230115"; member "webpage_url" "https://example.com/v";
    member "description" "desc"; member "thumbnail" "https://example.com/cover.jpg" ].

Definition song_a : pyobj :=
  PyDict [
    ("title", PyStr "Song A"); ("channel", PyStr "Artist X");
    ("upload_date", PyStr "20230115"); ("webpage_url", PyStr "https://example.com/v");
    ("description", PyStr "desc"); ("thumbnail", PyStr "https://example.com/cover.jpg") ].

Definition song_b_text : bytes :=
  object_of [ member "title" "Song B"; member "channel" "Artist Y" ].

(** The record of the example without its [thumbnail]. *)
Definition song_a_fields : list (string * pyobj) :=
  [ ("title", PyStr "Song A"); ("channel", PyStr "Artist X");
    ("upload_date", PyStr "20230115"); ("webpage_url", PyStr "https://example.com/v");
    ("description", PyStr "desc") ].

(** The number of pictures embedded in a file; in an Opus file a picture is
    a comment of key [METADATA_BLOCK_PICTURE]. *)
Definition is_apic (f : frame) : bool :=
  match f with APIC _ _ _ _ _ => true | _ => false end.

Definition pictures (c : content) : nat :=
  match c with
  | Blob _ => 0
  | Mp4File _ None => 0
  | Mp4File _ (Some tags) =>
      match tags !! "covr" with
      | Some (Covers images) => length images
      | _ => 0
      end
  | Mp3File _ None => 0
  | Mp3File _ (Some tags) =>
      length (filter (fun kf => is_apic (snd kf) = true) (map_to_list tags))
  | OpusFile _ comments =>
      length (filter (fun kv => same_key "METADATA_BLOCK_PICTURE" (fst kv) = true)
                comments)
  end.

(** ** [change_dir] of [utilities.py]

    The context manager that [utilities.py] uses, when it is imported, to
    ask [poetry] for its environment from the directory of the project.  The
    working directory is part of the state of the process; only here does the
    program change it. *)

Module ChangeDir.
Record process := {
  getcwd : path;
  disk : filesystem;
}.

Definition P (A : Type) : Type := process -> result A * process.

(** [os.getcwd()]: fails when the working directory is gone. *)
Definition os_getcwd : P path := fun s =>
  if is_dir (disk s) (getcwd s) then (Ok (getcwd s), s) else (Raise OSError, s).

(** [os.chdir(d)] for an absolute [d]. *)
Definition os_chdir (d : path) : P unit := fun s =>
  if is_dir (disk s) d
  then (Ok tt, {| getcwd := d; disk := disk s |})
  else (Raise OSError, s).

(** [with change_dir(destination): body].  What precedes [yield] runs on
    entry; the [finally] clause runs when [body] ends, by returning or by
    raising, and what it raises takes the place of the exception of
    [body]. *)
Definition change_dir {A} (destination : path) (body : P A) : P A := fun s =>
  match os_getcwd s with
  | (Raise e, s0) => (Raise e, s0)
  | (Ok orig_dir, s0) =>
      match os_chdir destination s0 with
      | (Raise e, s1) => (Raise e, s1)
      | (Ok _, s1) =>
          match body s1 with
          | (r, s2) =>
              match os_chdir orig_dir s2 with
              | (Raise e, s3) => (Raise e, s3)
              | (Ok _, s3) => (r, s3)
              end
          end
      end
  end.
End ChangeDir.

(** ** Further notions for the statements *)

(** The events that are calls of the tag library, calls of its MP3 class,
    and requests to the network. *)
Definition is_tag_event (e : event) : bool :=
  match e with EOpen _ _ | ESave _ _ => true | _ => false end.

Definition is_mp3_event (e : event) : bool :=
  match e with EOpen MP3 _ | ESave MP3 _ => true | _ => false end.

Definition is_network_event (e : event) : bool :=
  match e with EGet _ => true | _ => false end.

(** [m] adds to the trace, and only events that satisfy [P]. *)
Definition emits_only (P : event -> bool) {A} (m : M A) : Prop :=
  forall w, exists evs, trace (snd (m w)) = (trace w ++ evs)%list /\ forallb P evs = true.

(** The command line [a] with another value for one of its options. *)
Definition with_no_m4a_metadata (v : bool) (a : Script.args) : Script.args := {|
  Script.url := Script.url a;
  Script.output_file_path := Script.output_file_path a;
  Script.no_m4a_metadata := v;
  Script.metadata_only := Script.metadata_only a;
  Script.download_thumbnail := Script.download_thumbnail a;
  Script.set_m4a_metadata := Script.set_m4a_metadata a;
  Script.log_config := Script.log_config a;
|}.

Definition with_output_file_path (v : option path) (a : Script.args) : Script.args := {|
  Script.url := Script.url a;
  Script.output_file_path := v;
  Script.no_m4a_metadata := Script.no_m4a_metadata a;
  Script.metadata_only := Script.metadata_only a;
  Script.download_thumbnail := Script.download_thumbnail a;
  Script.set_m4a_metadata := Script.set_m4a_metadata a;
  Script.log_config := Script.log_config a;
|}.

Definition with_log_config (v : option path) (a : Script.args) : Script.args := {|
  Script.url := Script.url a;
  Script.output_file_path := Script.output_file_path a;
  Script.no_m4a_metadata := Script.no_m4a_metadata a;
  Script.metadata_only := Script.metadata_only a;
  Script.download_thumbnail := Script.download_thumbnail a;
  Script.set_m4a_metadata := Script.set_m4a_metadata a;
  Script.log_config := v;
|}.

(** The keys of the five texts of [set_m4a_metadata], and whether a key of
    an Opus comment is, whatever the case of its letters, one of the five
    that [set_opus_metadata] assigns. *)
Definition m4a_text_keys : list string := [KEY_nam; KEY_ART; KEY_day; KEY_cmt; "desc"].

Definition opus_keys : list string :=
  ["TITLE"; "ARTIST"; "DATE"; "COMMENT"; "DESCRIPTION"].

Definition is_opus_key (k : string) : bool :=
  existsb (fun k' => same_key k' k) opus_keys.

(** A command line for the examples: only the address is given. *)
Definition plain_args : Script.args := {|
  Script.url := video_url;
  Script.output_file_path := None;
  Script.no_m4a_metadata := false;
  Script.metadata_only := false;
  Script.download_thumbnail := false;
  Script.set_m4a_metadata := None;
  Script.log_config := None;
|}.

(** The default logging configuration at its place, with a minimal
    content. *)
Definition config_path : path :=
  ["opt"; "youtube_music_metadata"; "config"; "default_logging_config.json"].

Definition config_text : bytes := b "{}".

(** The scratch file of [set_cover] in the sample surroundings. *)
Definition scratch_jpg : path := home ++ ["cover.jpg"].

(** The result of [m] and the disk it leaves depend on the disk only, not
    on what was done before. *)
Definition fs_only {A} (m : M A) : Prop :=
  forall w1 w2, fs w1 = fs w2 ->
    fst (m w1) = fst (m w2) /\ fs (snd (m w1)) = fs (snd (m w2)).
(** * Properties *)

Close Scope string_scope.

(** ** [replace] *)

Section Replace.
Variables old new : bytes.

Lemma startswith_length p s : startswith p s = true -> length p <= length s.
Proof.
  revert s; induction p as [|a p IH]; intros [|c s]; simpl; try lia; try discriminate.
  intros [_ H]%andb_true_iff. apply IH in H. lia.
Qed.

Lemma startswith_app_long p x r :
  length p <= length x -> startswith p (x ++ r) = startswith p x.
Proof.
  revert x; induction p as [|a p IH]; intros [|c x]; simpl; try lia; try reflexivity.
  intros H. rewrite IH by lia. reflexivity.
Qed.

Lemma replace_go_skip k s :
  replace_go old new k s = replace_go old new 0 (drop k s).
Proof.
  revert k; induction s as [|c s IH]; intros [|k]; simpl; try reflexivity.
  apply IH.
Qed.

Lemma replace_cons_match c s :
  startswith old (c :: s) = true -> old <> [] ->
  replace old new (c :: s) = new ++ replace old new (drop (length old) (c :: s)).
Proof.
  intros Hm Hne. unfold replace. cbn [replace_go]. rewrite Hm.
  rewrite replace_go_skip. destruct old as [|a o]; [congruence|].
  simpl. rewrite Nat.sub_0_r. reflexivity.
Qed.

Lemma replace_cons_other c s :
  startswith old (c :: s) = false ->
  replace old new (c :: s) = c :: replace old new s.
Proof. intros Hm. unfold replace. cbn [replace_go]. rewrite Hm. reflexivity. Qed.

(** [replace] distributes over a cut that no occurrence of [old] spans. *)
Lemma replace_app a r :
  old <> [] ->
  (forall y x, a = y ++ x -> x <> [] ->
               startswith old (x ++ r) = startswith old x) ->
  replace old new (a ++ r) = replace old new a ++ replace old new r.
Proof.
  intros Hne. remember (length a) as n eqn:Hn.
  revert a Hn. induction n as [n IH] using lt_wf_ind. intros a Hn Hcut.
  destruct a as [|c a]; [reflexivity|].
  pose proof (Hcut [] (c :: a) eq_refl ltac:(discriminate)) as Hc.
  destruct (startswith old (c :: a)) eqn:Hm.
  - pose proof (startswith_length _ _ Hm) as Hlen.
    rewrite <- app_comm_cons.
    rewrite replace_cons_match by (simpl in *; congruence).
    rewrite replace_cons_match by assumption.
    rewrite app_comm_cons, drop_app_le by exact Hlen.
    rewrite <- app_assoc. f_equal.
    destruct old as [|o0 o]; [congruence|].
    apply (IH (length (drop (length (o0 :: o)) (c :: a)))).
    + subst n. rewrite length_drop. simpl. lia.
    + reflexivity.
    + intros y x Hy Hx. apply (Hcut (take (length (o0 :: o)) (c :: a) ++ y) x); [|exact Hx].
      rewrite <- app_assoc, <- Hy. symmetry. apply take_drop.
  - rewrite <- app_comm_cons.
    rewrite replace_cons_other by (simpl in *; congruence).
    rewrite replace_cons_other by assumption.
    simpl. f_equal.
    apply (IH (length a)); [subst n; simpl; lia | reflexivity |].
    intros y x Hy Hx. apply (Hcut (c :: y) x); [|exact Hx].
    simpl. congruence.
Qed.
End Replace.

(** ** The two patterns of the repair *)

Lemma boundary_app new a r :
  startswith [ "{" ] r = false -> startswith [ LF; "{" ] r = false ->
  replace boundary new (a ++ r) = replace boundary new a ++ replace boundary new r.
Proof.
  intros H1 H2. apply replace_app; [discriminate|].
  intros _ [|c1 [|c2 [|c3 x]]] _ Hx; [congruence| | |].
  - change (Ascii.eqb "}" c1 && startswith [ LF; "{" ] r
            = Ascii.eqb "}" c1 && false).
    rewrite H2. reflexivity.
  - change (Ascii.eqb "}" c1 && (Ascii.eqb LF c2 && startswith [ "{" ] r)
            = Ascii.eqb "}" c1 && (Ascii.eqb LF c2 && false)).
    rewrite H1. reflexivity.
  - reflexivity.
Qed.

Lemma closing_app new a r :
  startswith [ LF ] r = false ->
  replace closing new (a ++ r) = replace closing new a ++ replace closing new r.
Proof.
  intros H1. apply replace_app; [discriminate|].
  intros _ [|c1 [|c2 x]] _ Hx; [congruence| |].
  - change (Ascii.eqb "}" c1 && startswith [ LF ] r = Ascii.eqb "}" c1 && false).
    rewrite H1. reflexivity.
  - reflexivity.
Qed.

Lemma startswith_boundary_inv s :
  startswith boundary s = true -> exists s', s = "}" :: LF :: "{" :: s'.
Proof.
  unfold boundary.
  destruct s as [|c1 [|c2 [|c3 s']]]; cbn [startswith]; rewrite ?andb_false_r;
    try discriminate.
  intros [H1%Ascii.eqb_eq [H2%Ascii.eqb_eq [H3%Ascii.eqb_eq _]%andb_true_iff]%andb_true_iff]%andb_true_iff.
  subst. eauto.
Qed.

Lemma startswith_closing_inv s :
  startswith closing s = true -> exists s', s = "}" :: LF :: s'.
Proof.
  unfold closing.
  destruct s as [|c1 [|c2 s']]; cbn [startswith]; rewrite ?andb_false_r;
    try discriminate.
  intros [H1%Ascii.eqb_eq [H2%Ascii.eqb_eq _]%andb_true_iff]%andb_true_iff.
  subst. eauto.
Qed.

(** ** The scanner *)

Lemma lex_run_app m a s :
  lex_run m (a ++ s) =
  '(o1, m1) ← lex_run m a; '(o2, m2) ← lex_run m1 s; Some (o1 ++ o2, m2).
Proof.
  revert m; induction a as [|c a IH]; intros m; simpl.
  - destruct (lex_run m s) as [[o2 m2]|]; reflexivity.
  - destruct (lex_step m c) as [[out m1]|]; simpl; [|reflexivity].
    rewrite IH. destruct (lex_run m1 a) as [[o1 m1']|]; simpl; [|reflexivity].
    destruct (lex_run m1' s) as [[o2 m2]|]; simpl; [|reflexivity].
    rewrite app_assoc. reflexivity.
Qed.

Lemma spelling_plain l seen x due :
  drop seen (spelling l) = x :: due -> x <> "}" /\ x <> LF.
Proof.
  intros H.
  assert (Hin : x ∈ spelling l).
  { apply (subseteq_drop seen). rewrite H. left. }
  destruct l; vm_compute in Hin;
    repeat (apply elem_of_cons in Hin as [->|Hin]; [split; discriminate|]);
    inversion Hin.
Qed.

(** After a closing brace the scanner is between two tokens, the brace being
    the last token, or inside a string. *)
Lemma lex_step_rbrace m out m1 :
  lex_step m "}" = Some (out, m1) ->
  (m1 = MDefault /\ exists pre, out = pre ++ [TRBrace]) \/
  (exists acc, m1 = MStr acc /\ out = []).
Proof.
  destruct m as [|acc|acc|acc due|st acc|l seen]; cbn [lex_step].
  - intros [= <- <-]. left. split; [reflexivity|]. exists []. reflexivity.
  - intros [= <- <-]. right. eauto.
  - discriminate.
  - discriminate.
  - destruct st; vm_compute; try discriminate;
      intros [= <- <-]; left; (split; [reflexivity|]); eexists [_]; reflexivity.
  - destruct (drop seen (spelling l)) as [|x due] eqn:E; [discriminate|].
    apply spelling_plain in E as [E _].
    destruct (Ascii.eqb_spec "}" x); [congruence|discriminate].
Qed.

Lemma lex_step_default_lf : lex_step MDefault LF = Some ([], MDefault).
Proof. reflexivity. Qed.

Lemma lex_step_str_lf acc : lex_step (MStr acc) LF = None.
Proof. reflexivity. Qed.

(** A line feed that follows a closing brace is white space. *)
Lemma lex_run_rbrace_lf m s r :
  lex_run m ("}" :: LF :: s) = Some r ->
  lex_run m ("}" :: s) = Some r /\
  exists out rest m', lex_step m "}" = Some (out ++ [TRBrace], MDefault) /\
    lex_run MDefault s = Some (rest, m') /\ r = ((out ++ [TRBrace]) ++ rest, m').
Proof.
  cbn [lex_run]. destruct (lex_step m "}") as [[out m1]|] eqn:E; [|discriminate].
  apply lex_step_rbrace in E as [[-> [pre ->]]|[acc [-> ->]]].
  - cbn [mbind option_bind]. rewrite lex_step_default_lf.
    cbn [mbind option_bind].
    destruct (lex_run MDefault s) as [[rest m']|] eqn:E; [|discriminate].
    cbn. intros [= <-]. split; [reflexivity|]. eauto 10.
  - cbn [mbind option_bind]. rewrite lex_step_str_lf. discriminate.
Qed.

(** Stripping the line feeds that follow a closing brace leaves the tokens
    of a text as they are. *)
Lemma lex_run_closing s : forall m r,
  lex_run m s = Some r -> lex_run m (replace closing (b "}") s) = Some r.
Proof.
  remember (length s) as n eqn:Hn. revert s Hn.
  induction n as [n IH] using lt_wf_ind. intros [|c s] Hn m r H; [exact H|].
  destruct (startswith closing (c :: s)) eqn:Hm.
  - rewrite replace_cons_match by (assumption || discriminate).
    apply startswith_closing_inv in Hm as [s' [= -> ->]].
    apply lex_run_rbrace_lf in H as [_ (out & rest & m' & Hs & Hr & ->)].
    change (drop _ _) with s'. change (b "}" ++ ?x) with ("}" :: x).
    cbn [lex_run]. rewrite Hs. cbn [mbind option_bind].
    rewrite (IH (length s') ltac:(subst n; simpl; lia) s' eq_refl _ _ Hr).
    reflexivity.
  - rewrite replace_cons_other by assumption.
    cbn [lex_run] in *.
    destruct (lex_step m c) as [[out m1]|]; [|discriminate].
    cbn [mbind option_bind] in *.
    destruct (lex_run m1 s) as [[rest m2]|] eqn:E; [|discriminate].
    rewrite (IH (length s) ltac:(subst n; simpl; lia) s eq_refl _ _ E).
    exact H.
Qed.

Lemma no_adj_app_inv a c : no_adj (a ++ c) = true -> no_adj a = true /\ no_adj c = true.
Proof.
  induction a as [|t a IH]; simpl; [tauto|].
  intros [H1 H2]%andb_true_iff. apply IH in H2 as [H2 H3].
  split; [|exact H3]. rewrite H2, andb_true_r.
  destruct a; simpl in *; [|exact H1].
  destruct (is_rbrace t); reflexivity.
Qed.

Lemma no_adj_app a c :
  no_adj a = true -> no_adj c = true -> starts_lbrace c = false ->
  no_adj (a ++ c) = true.
Proof.
  intros Ha Hc Hs. induction a as [|t a IH]; simpl in *; [exact Hc|].
  apply andb_true_iff in Ha as [H1 H2]. rewrite (IH H2), andb_true_r.
  destruct a; simpl in *; [|exact H1].
  rewrite Hs, andb_false_r. reflexivity.
Qed.

Lemma no_adj_braces pre r : no_adj (pre ++ TRBrace :: TLBrace :: r) = false.
Proof.
  induction pre as [|t pre IH]; simpl; [reflexivity|].
  rewrite IH. apply andb_false_r.
Qed.

(** A text whose tokens have no closing brace next to an opening one holds
    no object boundary. *)
Lemma lex_run_boundary new s : forall m toks m',
  lex_run m s = Some (toks, m') -> no_adj toks = true ->
  replace boundary new s = s.
Proof.
  induction s as [|c s IH]; intros m toks m' H Hadj; [reflexivity|].
  destruct (startswith boundary (c :: s)) eqn:Hm.
  - exfalso. apply startswith_boundary_inv in Hm as [s' [= -> ->]].
    apply lex_run_rbrace_lf in H as [_ (out & rest & m1 & _ & Hr & [= -> ->])].
    cbn in Hr. destruct (lex_run MDefault s') as [[rest' m2]|]; [|discriminate].
    cbn in Hr. injection Hr as <- <-.
    rewrite <- !app_assoc in Hadj. simpl in Hadj.
    rewrite no_adj_braces in Hadj. discriminate.
  - rewrite replace_cons_other by assumption. f_equal.
    cbn [lex_run] in H.
    destruct (lex_step m c) as [[out m1]|]; [|discriminate].
    cbn [mbind option_bind] in H.
    destruct (lex_run m1 s) as [[rest m2]|] eqn:E; [|discriminate].
    injection H as <- <-. apply no_adj_app_inv in Hadj as [_ Hadj].
    exact (IH _ _ _ E Hadj).
Qed.

(** A text that ends with a closing brace and scans to the end leaves the
    scanner between two tokens. *)
Lemma lex_run_ends_rbrace m a toks m' last :
  lex_run m (a ++ [ "}" ]) = Some (toks, m') -> lex_end m' = Some last ->
  m' = MDefault /\ last = [].
Proof.
  rewrite lex_run_app. destruct (lex_run m a) as [[o1 m1]|]; [|discriminate].
  cbn [mbind option_bind lex_run].
  destruct (lex_step m1 "}") as [[out m2]|] eqn:E; [|discriminate].
  cbn. intros [= <- <-].
  apply lex_step_rbrace in E as [[-> _]|[acc [-> _]]]; [|discriminate].
  intros [= <-]. split; reflexivity.
Qed.

(** ** The parser *)

Lemma parse_array_nil fuel acc : parse_array fuel acc [] = None.
Proof. destruct fuel as [|[|fuel]]; reflexivity. Qed.

Lemma parse_object_nil fuel acc : parse_object fuel acc [] = None.
Proof. destruct fuel; reflexivity. Qed.

Lemma starts_value_app pre x :
  starts_value pre = true -> starts_value (pre ++ x) = true.
Proof. destruct pre; [discriminate|]. intros H; exact H. Qed.

Lemma no_adj_snoc pre t :
  no_adj pre = true -> is_lbrace t = false -> no_adj (pre ++ [t]) = true.
Proof.
  intros H Ht. apply no_adj_app; [exact H| |exact Ht].
  simpl. rewrite andb_false_r. reflexivity.
Qed.

Lemma no_adj_comma pre1 pre2 :
  no_adj pre1 = true -> no_adj pre2 = true ->
  no_adj (pre1 ++ TComma :: pre2) = true.
Proof. intros H1 H2. apply no_adj_app; [exact H1|exact H2|reflexivity]. Qed.

Lemma parse_consumes fuel :
  (forall ts v rest, parse_value fuel ts = Some (v, rest) ->
     consumes parse_value ts v rest) /\
  (forall acc ts v rest, parse_array fuel acc ts = Some (v, rest) ->
     consumes (fun f => parse_array f acc) ts v rest) /\
  (forall acc ts v rest, parse_object fuel acc ts = Some (v, rest) ->
     consumes (fun f => parse_object f acc) ts v rest).
Proof.
  induction fuel as [|fuel (IHv & IHa & IHo)]; [split_and!; discriminate|].
  split_and!.
  - intros ts v rest H. simpl in H.
    destruct ts as [|t ts]; [discriminate|].
    destruct t; try discriminate.
    + (* an object *)
      destruct ts as [|t2 ts2]; [rewrite parse_object_nil in H; discriminate|].
      assert (Hobj : t2 <> TRBrace ->
                parse_object fuel [] (t2 :: ts2) = Some (v, rest) ->
                consumes parse_value (TLBrace :: t2 :: ts2) v rest).
      { intros Ht2 (pre & E & Hs & Hn & Hf)%IHo.
        exists (TLBrace :: pre). split_and!.
        - simpl. rewrite E. reflexivity.
        - reflexivity.
        - exact Hn.
        - intros [|f'] x Hl; [simpl in Hl; lia|].
          destruct pre as [|t p]; [discriminate|].
          injection E as <- E.
          specialize (Hf f' x ltac:(simpl in *; lia)).
          destruct t2; try congruence; exact Hf. }
      destruct t2; try (apply Hobj; [discriminate|exact H]).
      injection H as <- <-. exists [TLBrace; TRBrace]. split_and!; try reflexivity.
      intros [|f'] x Hl; [simpl in Hl; lia|reflexivity].
    + (* an array *)
      destruct ts as [|t2 ts2]; [rewrite parse_array_nil in H; discriminate|].
      assert (Harr : t2 <> TRBrack ->
                parse_array fuel [] (t2 :: ts2) = Some (v, rest) ->
                consumes parse_value (TLBrack :: t2 :: ts2) v rest).
      { intros Ht2 (pre & E & Hs & Hn & Hf)%IHa.
        exists (TLBrack :: pre). split_and!.
        - simpl. rewrite E. reflexivity.
        - reflexivity.
        - exact Hn.
        - intros [|f'] x Hl; [simpl in Hl; lia|].
          destruct pre as [|t p]; [discriminate|].
          injection E as <- E.
          specialize (Hf f' x ltac:(simpl in *; lia)).
          destruct t2; try congruence; exact Hf. }
      destruct t2; try (apply Harr; [discriminate|exact H]).
      injection H as <- <-. exists [TLBrack; TRBrack]. split_and!; try reflexivity.
      intros [|f'] x Hl; [simpl in Hl; lia|reflexivity].
    + injection H as <- <-. exists [TStr lexeme]. split_and!; try reflexivity.
      intros [|f'] x Hl; [simpl in Hl; lia|reflexivity].
    + injection H as <- <-. exists [TNum lexeme]. split_and!; try reflexivity.
      intros [|f'] x Hl; [simpl in Hl; lia|reflexivity].
    + injection H as <- <-. exists [TLit l]. split_and!; try reflexivity.
      intros [|f'] x Hl; [simpl in Hl; lia|reflexivity].
  - intros acc ts v rest H. simpl in H.
    destruct (parse_value fuel ts) as [[v1 r1]|] eqn:E1; [|discriminate].
    apply IHv in E1 as (pre1 & E & Hs & Hn & Hf).
    destruct r1 as [|t r1]; [discriminate|].
    destruct t; try discriminate.
    + injection H as <- <-. exists (pre1 ++ [TRBrack]). split_and!.
      * rewrite <- app_assoc. exact E.
      * apply starts_value_app, Hs.
      * apply no_adj_snoc; [exact Hn|reflexivity].
      * intros [|f'] x Hl; [rewrite length_app in Hl; simpl in Hl; lia|].
        simpl. rewrite <- app_assoc.
        rewrite Hf by (rewrite length_app in Hl; simpl in Hl; lia).
        reflexivity.
    + apply IHa in H as (pre2 & E2 & Hs2 & Hn2 & Hf2).
      exists (pre1 ++ TComma :: pre2). split_and!.
      * rewrite <- app_assoc. simpl. rewrite <- E2. exact E.
      * apply starts_value_app, Hs.
      * apply no_adj_comma; assumption.
      * intros [|f'] x Hl; [rewrite length_app in Hl; simpl in Hl; lia|].
        simpl. rewrite <- app_assoc.
        rewrite Hf by (rewrite length_app in Hl; simpl in Hl; lia).
        simpl. apply Hf2. rewrite length_app in Hl; simpl in Hl; lia.
  - intros acc ts v rest H. simpl in H.
    destruct ts as [|t ts]; [discriminate|].
    destruct t; try discriminate.
    destruct ts as [|t ts]; [discriminate|].
    destruct t; try discriminate.
    destruct (parse_value fuel ts) as [[v1 r1]|] eqn:E1; [|discriminate].
    apply IHv in E1 as (pre1 & E & Hs & Hn & Hf).
    destruct r1 as [|t r1]; [discriminate|].
    destruct t; try discriminate.
    + injection H as <- <-. exists (TStr lexeme :: TColon :: pre1 ++ [TRBrace]).
      split_and!.
      * simpl. rewrite <- app_assoc. rewrite E. reflexivity.
      * reflexivity.
      * change (no_adj (pre1 ++ [TRBrace]) = true).
        apply no_adj_snoc; [exact Hn|reflexivity].
      * intros [|f'] x Hl; [simpl in Hl; lia|].
        simpl in Hl. rewrite length_app in Hl. simpl in Hl.
        simpl. rewrite <- app_assoc. rewrite Hf by lia. reflexivity.
    + apply IHo in H as (pre2 & E2 & Hs2 & Hn2 & Hf2).
      exists (TStr lexeme :: TColon :: pre1 ++ TComma :: pre2). split_and!.
      * simpl. rewrite <- app_assoc. simpl. rewrite <- E2, E. reflexivity.
      * reflexivity.
      * change (no_adj (pre1 ++ TComma :: pre2) = true).
        apply no_adj_comma; assumption.
      * intros [|f'] x Hl; [simpl in Hl; lia|].
        simpl in Hl. rewrite length_app in Hl. simpl in Hl.
        simpl. rewrite <- app_assoc. rewrite Hf by lia.
        simpl. apply Hf2. lia.
Qed.

(** ** Object texts *)

Lemma object_text_piece t o : object_text t o -> exists toks, piece t toks o.
Proof.
  intros [[body Hb] Hl]. unfold loads in Hl.
  destruct (lex t) as [toks'|] eqn:El; [|discriminate].
  cbn [mbind option_bind] in Hl.
  destruct (parse_value (S (length toks')) toks') as [[v [|? ?]]|] eqn:Ep;
    try discriminate.
  injection Hl as ->.
  unfold lex in El.
  destruct (lex_run MDefault t) as [[toks m]|] eqn:Er; [|discriminate].
  cbn in El. destruct (lex_end m) as [last|] eqn:Ee; [|discriminate].
  cbn in El. injection El as <-.
  assert (Hm : m = MDefault /\ last = []).
  { rewrite Hb, app_comm_cons in Er. exact (lex_run_ends_rbrace _ _ _ _ _ Er Ee). }
  destruct Hm as [-> ->]. rewrite app_nil_r in Ep.
  destruct (proj1 (parse_consumes _) _ _ _ Ep) as (pre & E & Hs & Hn & Hf).
  rewrite app_nil_r in E. subst pre.
  exists toks. split_and!; eauto.
  - apply lex_run_closing, Er.
  - exact (lex_run_boundary _ _ _ _ _ Er Hn).
Qed.

(** ** The stream of objects *)

Lemma join_cons2 {A} (sep : list A) t t' rest :
  join sep (t :: t' :: rest) = t ++ sep ++ join sep (t' :: rest).
Proof. reflexivity. Qed.

Lemma join_starts_lbrace ts toks os sep :
  Forall3 piece ts toks os -> ts <> [] -> exists s, join sep ts = "{" :: s.
Proof.
  intros [|t tk o ts' tks' os' ([body ->] & _) Hr]; [congruence|]. intros _.
  destruct ts'; simpl; eauto.
Qed.

Lemma boundary_rbrace a :
  replace boundary (b "},{") (a ++ [ "}" ])
  = replace boundary (b "},{") a ++ [ "}" ].
Proof. apply boundary_app; reflexivity. Qed.

Lemma closing_rbrace a :
  replace closing (b "}") (a ++ [ "}" ]) = replace closing (b "}") a ++ [ "}" ].
Proof. apply closing_app; reflexivity. Qed.

(** The first replacement turns the line feeds between the objects into
    commas and nothing else. *)
Lemma boundary_stream ts toks os tail :
  Forall3 piece ts toks os -> is_tail tail ->
  replace boundary (b "},{") (join [LF] ts ++ tail) = join (b ",") ts ++ tail.
Proof.
  intros H Htail. induction H as [|t tk o ts tks os' Hp Hr IH].
  - destruct Htail as [-> | ->]; reflexivity.
  - destruct ts as [|t' ts'].
    + cbn [join]. destruct Hp as ([body Hb] & _ & _ & Hfix & _).
      rewrite boundary_app, Hfix by (destruct Htail as [-> | ->]; reflexivity).
      destruct Htail as [-> | ->]; reflexivity.
    + rewrite !join_cons2.
      destruct (join_starts_lbrace _ _ _ [LF] Hr ltac:(discriminate)) as [J EJ].
      destruct (join_starts_lbrace _ _ _ (b ",") Hr ltac:(discriminate)) as [J' EJ'].
      rewrite EJ in *. rewrite EJ' in *.
      destruct Hp as ([body Hb] & _ & _ & Hfix & _).
      rewrite Hb, app_comm_cons in Hfix. rewrite boundary_rbrace in Hfix.
      rewrite Hb. rewrite (app_comm_cons _ _ "{").
      rewrite <- !app_assoc.
      change ([ "}" ] ++ [LF] ++ ("{" :: J) ++ tail)
        with ("}" :: LF :: "{" :: J ++ tail).
      rewrite boundary_app by reflexivity.
      rewrite (replace_cons_match _ _ "}") by (reflexivity || discriminate).
      change (drop _ _) with (J ++ tail).
      rewrite <- app_comm_cons in IH.
      rewrite replace_cons_other in IH by reflexivity.
      assert (IH' : replace boundary (b "},{") (J ++ tail) = J' ++ tail)
        by (simpl app in IH; congruence).
      rewrite IH'.
      apply app_inv_tail in Hfix. rewrite Hfix. reflexivity.
Qed.

(** The second replacement acts inside each object and takes the final line
    feed away. *)
Lemma closing_stream ts toks os tail :
  Forall3 piece ts toks os -> ts <> [] -> is_tail tail ->
  replace closing (b "}") (join (b ",") ts ++ tail)
  = join (b ",") (map (replace closing (b "}")) ts).
Proof.
  intros H Hne Htail. induction H as [|t tk o ts tks os' Hp Hr IH]; [congruence|].
  destruct ts as [|t' ts'].
  - cbn [join map]. destruct Hp as ([body Hb] & _).
    destruct Htail as [-> | ->]; [rewrite app_nil_r; reflexivity|].
    rewrite Hb, app_comm_cons, closing_rbrace, <- app_assoc.
    rewrite closing_app by reflexivity. reflexivity.
  - rewrite join_cons2. cbn [map]. rewrite join_cons2.
    rewrite <- !app_assoc. rewrite closing_app by reflexivity.
    f_equal. change (b "," ++ ?x) with ("," :: x).
    rewrite replace_cons_other by reflexivity.
    f_equal. apply IH. discriminate.
Qed.

Lemma object_texts_pieces ts os :
  Forall2 object_text ts os -> exists tokss, Forall3 piece ts tokss os.
Proof.
  induction 1 as [|t o ts os Ht _ [tokss IH]].
  - exists []. constructor.
  - destruct (object_text_piece _ _ Ht) as [toks Hp].
    exists (toks :: tokss). constructor; assumption.
Qed.

(** The tokens of the stream as the downloader wrote it: those of the
    objects, one after the other. *)
Lemma lex_run_stream ts tokss os tail :
  Forall3 piece ts tokss os -> is_tail tail ->
  lex_run MDefault (join [LF] ts ++ tail) = Some (concat tokss, MDefault).
Proof.
  intros H Htail. induction H as [|t tk o ts tks os' Hp Hr IH].
  - destruct Htail as [-> | ->]; reflexivity.
  - destruct Hp as (_ & Hl & _).
    destruct ts as [|t' ts'].
    + inversion Hr; subst. cbn [join concat]. rewrite lex_run_app, Hl.
      destruct Htail as [-> | ->]; reflexivity.
    + rewrite join_cons2, <- !app_assoc, lex_run_app, Hl.
      cbn [mbind option_bind app lex_run]. rewrite lex_step_default_lf.
      cbn [mbind option_bind]. rewrite IH. reflexivity.
Qed.

(** The tokens of the repaired stream: those of the objects, with a comma
    between two of them. *)
Lemma lex_run_repaired ts tokss os :
  Forall3 piece ts tokss os ->
  lex_run MDefault (join (b ",") (map (replace closing (b "}")) ts))
  = Some (join [TComma] tokss, MDefault).
Proof.
  induction 1 as [|t tk o ts tks os' Hp Hr IH]; [reflexivity|].
  destruct Hp as (_ & _ & Hl & _).
  destruct ts as [|t' ts'].
  - inversion Hr; subst. cbn [map join]. exact Hl.
  - inversion Hr; subst. cbn [map] in *. rewrite !join_cons2, lex_run_app, Hl.
    change (b "," ++ ?x) with ("," :: x).
    cbn [mbind option_bind lex_run].
    change (lex_step MDefault ",") with (Some ([TComma], MDefault)).
    cbn [mbind option_bind]. rewrite IH. reflexivity.
Qed.

(** The items of the repaired array are the objects, in their order. *)
Lemma parse_array_join ts tokss os :
  Forall3 piece ts tokss os -> tokss <> [] ->
  forall acc fuel x, length (join [TComma] tokss) < fuel ->
    parse_array fuel acc (join [TComma] tokss ++ TRBrack :: x)
    = Some (JArr (rev acc ++ map JObj os), x).
Proof.
  induction 1 as [|t tk o ts tks os' Hp Hr IH]; [congruence|]. intros _.
  destruct Hp as (_ & _ & _ & _ & _ & Hf).
  intros acc [|fuel] x Hlen; [lia|].
  destruct tks as [|tk' tks'].
  - inversion Hr; subst. cbn [join] in *. cbn [parse_array].
    rewrite Hf by lia. reflexivity.
  - inversion Hr; subst. rewrite join_cons2 in *. cbn [parse_array].
    rewrite length_app in Hlen. cbn [app length] in Hlen.
    rewrite <- !app_assoc. rewrite Hf by lia. cbn [app].
    rewrite IH by (discriminate || lia).
    cbn [rev map]. rewrite <- app_assoc. reflexivity.
Qed.

Lemma join_starts_value ts tokss os (sep : list token) :
  Forall3 piece ts tokss os -> tokss <> [] ->
  starts_value (join sep tokss) = true.
Proof.
  intros [|t tk o ts' tks' os' (_ & _ & _ & _ & Hs & _) Hr]; [congruence|].
  intros _. destruct tks'; [exact Hs|]. rewrite join_cons2.
  apply starts_value_app, Hs.
Qed.

(** The first attempt of [fetch_metadata] fails on two objects or more: the
    first object is followed by more text. *)
Lemma loads_stream_fails ts os tail :
  Forall2 object_text ts os -> 2 <= length ts -> is_tail tail ->
  loads (join [LF] ts ++ tail) = None.
Proof.
  intros H Hlen Htail.
  destruct (object_texts_pieces _ _ H) as [tokss Hp].
  unfold loads, lex. rewrite (lex_run_stream _ _ _ _ Hp Htail).
  cbn [mbind option_bind lex_end]. rewrite app_nil_r.
  destruct Hp as [|t tk o ts' tks' os' Hp1 Hr]; [simpl in Hlen; lia|].
  destruct Hr as [|t2 tk2 o2 ts2 tks2 os2 Hp2 Hr]; [simpl in Hlen; lia|].
  destruct Hp1 as (_ & _ & _ & _ & _ & Hf).
  destruct Hp2 as (_ & _ & _ & _ & Hs2 & _).
  cbn [concat]. rewrite Hf by (cbn [length]; rewrite length_app; lia).
  destruct tk2; [discriminate|reflexivity].
Qed.

(** The second attempt reads the repaired stream as the array of the
    objects. *)
Lemma loads_repair_stream ts os tail :
  Forall2 object_text ts os -> ts <> [] -> is_tail tail ->
  loads (repair (join [LF] ts ++ tail)) = Some (JArr (map JObj os)).
Proof.
  intros H Hne Htail.
  destruct (object_texts_pieces _ _ H) as [tokss Hp].
  assert (Hne' : tokss <> []) by (destruct Hp; congruence).
  unfold repair.
  rewrite (boundary_stream _ _ _ _ Hp Htail).
  rewrite (closing_stream _ _ _ _ Hp Hne Htail).
  unfold loads, lex. change (b "[" ++ ?x) with ("[" :: x).
  cbn [lex_run]. change (lex_step MDefault "[") with (Some ([TLBrack], MDefault)).
  cbn [mbind option_bind]. rewrite lex_run_app, (lex_run_repaired _ _ _ Hp).
  cbn -[parse_value join].
  rewrite app_nil_r.
  pose proof (join_starts_value _ _ _ [TComma] Hp Hne') as Hs.
  set (fuel := S (length (_ ++ _))).
  assert (Hfuel : length (join [TComma] tokss) < fuel).
  { subst fuel. rewrite length_app. lia. }
  pose proof (parse_array_join _ _ _ Hp Hne' [] fuel [] Hfuel) as Ha.
  clearbody fuel.
  destruct (join [TComma] tokss) as [|t0 J]; [discriminate|].
  cbn [app] in *.
  destruct t0; try discriminate; cbn [parse_value]; rewrite Ha; reflexivity.
Qed.

(** The standard output of a run on several items decodes to the list of
    the objects. *)
Lemma decode_stdout_stream ts os tail :
  Forall2 object_text ts os -> 2 <= length ts -> is_tail tail ->
  decode_stdout (join [LF] ts ++ tail) = Ok (JArr (map JObj os)).
Proof.
  intros H Hlen Htail. unfold decode_stdout.
  rewrite (loads_stream_fails _ _ _ H Hlen Htail).
  rewrite (loads_repair_stream _ _ _ H) by (assumption || (destruct ts; simpl in *; [lia|discriminate])).
  reflexivity.
Qed.

(** White space after a value does not change it. *)
Lemma loads_tail t o tail :
  object_text t o -> is_tail tail -> loads (t ++ tail) = Some (JObj o).
Proof.
  intros Ht Htail. destruct (object_text_piece _ _ Ht) as [toks Hp].
  destruct Hp as (_ & Hl & _ & _ & _ & Hf).
  unfold loads, lex. rewrite lex_run_app, Hl. cbn [mbind option_bind].
  assert (Hr : lex_run MDefault tail = Some ([], MDefault))
    by (destruct Htail as [-> | ->]; reflexivity).
  rewrite Hr. cbn [mbind option_bind lex_end]. rewrite !app_nil_r.
  specialize (Hf (S (length toks)) [] ltac:(lia)). rewrite app_nil_r in Hf.
  rewrite Hf. reflexivity.
Qed.

(** The standard output of a run on one item decodes to the object itself:
    the first attempt succeeds and the repair is not tried. *)
Lemma decode_stdout_single t o tail :
  object_text t o -> is_tail tail -> decode_stdout (t ++ tail) = Ok (JObj o).
Proof.
  intros Ht Htail. unfold decode_stdout. rewrite (loads_tail _ _ _ Ht Htail).
  reflexivity.
Qed.

(** The fuel that [loads] gives to the parser is enough: a text that some
    fuel lets the parser read to the end is read by [loads]. *)
Lemma parse_value_fuel_enough fuel toks v :
  parse_value fuel toks = Some (v, []) ->
  parse_value (S (length toks)) toks = Some (v, []).
Proof.
  intros H. destruct (proj1 (parse_consumes _) _ _ _ H) as (pre & E & _ & _ & Hf).
  rewrite app_nil_r in E. subst pre.
  specialize (Hf (S (length toks)) [] ltac:(lia)).
  rewrite app_nil_r in Hf. exact Hf.
Qed.

(** ** Running the operations *)

Open Scope string_scope.
Open Scope list_scope.

Lemma run_bind {A B} (m : M A) (f : A -> M B) w :
  (m ≫= f) w =
  match m w with
  | (Ok a, w') => f a w'
  | (Raise e, w') => (Raise e, w')
  end.
Proof. reflexivity. Qed.

(** Unfolds the operations of the world down to matches on its state. *)
Ltac run_unfold :=
  unfold outcome, final, mkdir_parents, write_bytes, read_bytes, exists_,
    requests_get_content, run, MP4_open, MP4_tags_setitem, MP4_save,
    MP3_open, MP3_tags_add, MP3_save, OggOpus_open, OggOpus_save, getitem,
    emit, record, set_fs, made, written, get_fs, put_fs, raise, mret, M_ret,
    mbind, M_bind in *.

Section Downloader.
Variable E : env.

(** C5 (the part that holds): in [utilities.py] a downloader that exits
    with a code other than 0 makes the function raise, with a message that
    holds the address and the code, and the call of the downloader is the
    last thing the function does. *)
Lemma fetch_metadata_nonzero w url returncode stdout f' :
  subprocess_run E [as_posix (YT_DLP_PATH E); "--dump-json"; url] (fs w)
    = Completed returncode stdout f' ->
  returncode <> 0%Z ->
  Utilities.fetch_metadata E url w =
    (Raise (Exception (Utilities.metadata_failed url returncode)),
     {| fs := f';
        trace := trace w ++ [ERun [as_posix (YT_DLP_PATH E); "--dump-json"; url]] |}).
Proof.
  intros Hrun Hrc. unfold Utilities.fetch_metadata. run_unfold. simpl.
  rewrite Hrun. simpl. destruct (Z.eqb_spec returncode 0); [contradiction|].
  reflexivity.
Qed.
End Downloader.

Section DownloaderFailure.
Variable E : env.

Lemma download_audio_nonzero w url file_path returncode stdout f' :
  let p := default (child (cwd E) OUTPUT_TEMPLATE) file_path in
  let command := [as_posix (YT_DLP_PATH E); "--embed-thumbnail"; "--add-metadata";
                  "--extract-audio"; "-o"; as_posix p; url] in
  let f1 := {| files := files (fs w);
               dirs := dirs (fs w) ∪ list_to_set (ancestors (parent p)) |} in
  existsb (is_file (fs w)) (ancestors (parent p)) = false ->
  subprocess_run E command f1 = Completed returncode stdout f' ->
  returncode <> 0%Z ->
  Utilities.download_audio_with_metadata E url file_path w =
    (Raise (Exception (Utilities.download_failed url returncode)),
     {| fs := f';
        trace := trace w ++ [EMkdir (parent p); EPprint command; ERun command] |}).
Proof.
  intros p command f1 Hmk Hrun Hrc.
  unfold Utilities.download_audio_with_metadata. run_unfold. simpl.
  fold p. rewrite Hmk. simpl. fold command. fold f1. rewrite Hrun. simpl.
  destruct (Z.eqb_spec returncode 0); [contradiction|].
  rewrite <- !app_assoc. reflexivity.
Qed.

Lemma download_thumbnail_nonzero w url file_path returncode stdout f' :
  let p := default (child (cwd E) OUTPUT_TEMPLATE) file_path in
  let command := [as_posix (YT_DLP_PATH E); "--write-thumbnail"; "--skip-download";
                  "-o"; as_posix p; url] in
  let f1 := {| files := files (fs w);
               dirs := dirs (fs w) ∪ list_to_set (ancestors (parent p)) |} in
  existsb (is_file (fs w)) (ancestors (parent p)) = false ->
  subprocess_run E command f1 = Completed returncode stdout f' ->
  returncode <> 0%Z ->
  Utilities.download_thumbnail E url file_path w =
    (Raise (Exception (Utilities.download_failed url returncode)),
     {| fs := f';
        trace := trace w ++ [EMkdir (parent p); ERun command] |}).
Proof.
  intros p command f1 Hmk Hrun Hrc.
  unfold Utilities.download_thumbnail. run_unfold. simpl.
  fold p. rewrite Hmk. simpl. fold command. fold f1. rewrite Hrun. simpl.
  destruct (Z.eqb_spec returncode 0); [contradiction|].
  rewrite <- !app_assoc. reflexivity.
Qed.

(** When the directory cannot be made the downloader is not called. *)
Lemma download_audio_no_directory w url file_path :
  let p := default (child (cwd E) OUTPUT_TEMPLATE) file_path in
  existsb (is_file (fs w)) (ancestors (parent p)) = true ->
  Utilities.download_audio_with_metadata E url file_path w =
    (Raise OSError, {| fs := fs w; trace := trace w ++ [EMkdir (parent p)] |}).
Proof.
  intros p Hmk. unfold Utilities.download_audio_with_metadata. run_unfold.
  simpl. fold p. rewrite Hmk. reflexivity.
Qed.

Lemma legacy_download_audio_nonzero w url returncode stdout f' :
  let command := [as_posix (Legacy.YOUTUBE_DL E); "--embed-thumbnail";
                  "--add-metadata"; "--extract-audio"; "-o";
                  as_posix (Legacy.data_template E); url] in
  subprocess_run E command (fs w) = Completed returncode stdout f' ->
  returncode <> 0%Z ->
  Legacy.download_audio_with_metadata E url w =
    (Ok tt,
     {| fs := f';
        trace := trace w ++ [ERun command;
          ELogError (Legacy.failed url "download video with metadata" returncode)] |}).
Proof.
  intros command Hrun Hrc. unfold Legacy.download_audio_with_metadata.
  run_unfold. simpl. fold command. rewrite Hrun. simpl.
  destruct (Z.eqb_spec returncode 0); [contradiction|].
  simpl. rewrite <- !app_assoc. reflexivity.
Qed.

Lemma legacy_fetch_metadata_nonzero w url returncode stdout f' :
  let command := [as_posix (Legacy.YOUTUBE_DL E); "-j"; url] in
  subprocess_run E command (fs w) = Completed returncode stdout f' ->
  returncode <> 0%Z ->
  Legacy.fetch_metadata E url w =
    (Ok (PyDict []),
     {| fs := f';
        trace := trace w ++ [ERun command;
          ELogError (Legacy.failed url "write metadata" returncode)] |}).
Proof.
  intros command Hrun Hrc. unfold Legacy.fetch_metadata.
  run_unfold. simpl. fold command. rewrite Hrun. simpl.
  destruct (Z.eqb_spec returncode 0); [contradiction|].
  simpl. rewrite <- !app_assoc. reflexivity.
Qed.

Lemma legacy_download_thumbnail_nonzero w url returncode stdout f' :
  let command := [as_posix (Legacy.YOUTUBE_DL E); "--write-thumbnail";
                  "--skip-download"; "-o";
                  as_posix (Legacy.data_template E); url] in
  subprocess_run E command (fs w) = Completed returncode stdout f' ->
  returncode <> 0%Z ->
  Legacy.download_thumbnail E url w =
    (Ok tt,
     {| fs := f';
        trace := trace w ++ [ERun command;
          ELogError (Legacy.failed url "write thumbnail" returncode)] |}).
Proof.
  intros command Hrun Hrc. unfold Legacy.download_thumbnail.
  run_unfold. simpl. fold command. rewrite Hrun. simpl.
  destruct (Z.eqb_spec returncode 0); [contradiction|].
  simpl. rewrite <- !app_assoc. reflexivity.
Qed.
End DownloaderFailure.

(** The messages hold the address and the return code. *)
Lemma download_failed_message url returncode :
  Utilities.download_failed url returncode =
  String.append "Subprocess call failed for url "
    (String.append url
       (String.append " when attempting to download video with metadata with code: "
          (pretty returncode))).
Proof. reflexivity. Qed.

Lemma metadata_failed_message url returncode :
  Utilities.metadata_failed url returncode =
  String.append "Subprocess call failed for url `"
    (String.append url
       (String.append "` when attempting to write metadata with code: "
          (pretty returncode))).
Proof. reflexivity. Qed.

(** C5, as amended: when the downloader exits with a code other than 0, the
    three functions of [utilities.py] raise an [Exception] whose message
    holds the address and the code, and do nothing after the call of the
    downloader; the functions of the same names in [__main__.py] log that
    message as an error and return, [fetch_metadata] with an empty [dict]. *)
Theorem downloader_failure (E : env) (w : world) (url : string)
    (file_path : option path) (returncode : Z) (stdout : bytes) (f' : filesystem) :
  returncode <> 0%Z ->
  let p := default (child (cwd E) OUTPUT_TEMPLATE) file_path in
  let f1 := {| files := files (fs w);
               dirs := dirs (fs w) ∪ list_to_set (ancestors (parent p)) |} in
  let dump := [as_posix (YT_DLP_PATH E); "--dump-json"; url] in
  let audio := [as_posix (YT_DLP_PATH E); "--embed-thumbnail"; "--add-metadata";
                "--extract-audio"; "-o"; as_posix p; url] in
  let thumb := [as_posix (YT_DLP_PATH E); "--write-thumbnail"; "--skip-download";
                "-o"; as_posix p; url] in
  let old_dump := [as_posix (Legacy.YOUTUBE_DL E); "-j"; url] in
  let old_audio := [as_posix (Legacy.YOUTUBE_DL E); "--embed-thumbnail";
                    "--add-metadata"; "--extract-audio"; "-o";
                    as_posix (Legacy.data_template E); url] in
  let old_thumb := [as_posix (Legacy.YOUTUBE_DL E); "--write-thumbnail";
                    "--skip-download"; "-o";
                    as_posix (Legacy.data_template E); url] in
  (subprocess_run E dump (fs w) = Completed returncode stdout f' ->
   Utilities.fetch_metadata E url w =
     (Raise (Exception (Utilities.metadata_failed url returncode)),
      {| fs := f'; trace := trace w ++ [ERun dump] |})) /\
  (existsb (is_file (fs w)) (ancestors (parent p)) = false ->
   subprocess_run E audio f1 = Completed returncode stdout f' ->
   Utilities.download_audio_with_metadata E url file_path w =
     (Raise (Exception (Utilities.download_failed url returncode)),
      {| fs := f';
         trace := trace w ++ [EMkdir (parent p); EPprint audio; ERun audio] |})) /\
  (existsb (is_file (fs w)) (ancestors (parent p)) = false ->
   subprocess_run E thumb f1 = Completed returncode stdout f' ->
   Utilities.download_thumbnail E url file_path w =
     (Raise (Exception (Utilities.download_failed url returncode)),
      {| fs := f'; trace := trace w ++ [EMkdir (parent p); ERun thumb] |})) /\
  (subprocess_run E old_dump (fs w) = Completed returncode stdout f' ->
   Legacy.fetch_metadata E url w =
     (Ok (PyDict []),
      {| fs := f';
         trace := trace w ++ [ERun old_dump;
           ELogError (Legacy.failed url "write metadata" returncode)] |})) /\
  (subprocess_run E old_audio (fs w) = Completed returncode stdout f' ->
   Legacy.download_audio_with_metadata E url w =
     (Ok tt,
      {| fs := f';
         trace := trace w ++ [ERun old_audio;
           ELogError (Legacy.failed url "download video with metadata" returncode)] |})) /\
  (subprocess_run E old_thumb (fs w) = Completed returncode stdout f' ->
   Legacy.download_thumbnail E url w =
     (Ok tt,
      {| fs := f';
         trace := trace w ++ [ERun old_thumb;
           ELogError (Legacy.failed url "write thumbnail" returncode)] |})).
Proof.
  intros Hrc p f1 dump audio thumb old_dump old_audio old_thumb.
  split_and!; intros.
  - by apply fetch_metadata_nonzero with stdout.
  - by apply download_audio_nonzero with stdout.
  - by apply download_thumbnail_nonzero with stdout.
  - by apply legacy_fetch_metadata_nonzero with stdout.
  - by apply legacy_download_audio_nonzero with stdout.
  - by apply legacy_download_thumbnail_nonzero with stdout.
Qed.

Lemma downloader_failure_witness :
  (1 <> 0)%Z /\
  outcome (Utilities.fetch_metadata (sample_env (exits 1 []) answers) video_url)
          (on_disk [])
  = Raise (Exception
      "Subprocess call failed for url `https://example.com/v` when attempting to write metadata with code: 1").
Proof.
  split; [lia|].
  pose proof (downloader_failure (sample_env (exits 1 []) answers) (on_disk [])
                video_url None 1 [] (fs (on_disk [])) ltac:(lia)) as H.
  destruct H as [H _]. unfold outcome. rewrite H; reflexivity.
Defined.

(** C5, as stated, fails on [__main__.py]: its
    [download_audio_with_metadata] returns when the downloader exits with
    code 1. *)
Lemma legacy_download_returns :
  subprocess_run (sample_env (exits 1 []) answers)
    [as_posix (Legacy.YOUTUBE_DL (sample_env (exits 1 []) answers));
     "--embed-thumbnail"; "--add-metadata"; "--extract-audio"; "-o";
     as_posix (Legacy.data_template (sample_env (exits 1 []) answers)); video_url]
    (fs (on_disk [])) = Completed 1 [] (fs (on_disk [])) /\
  ~ exists e,
      outcome (Legacy.download_audio_with_metadata
                 (sample_env (exits 1 []) answers) video_url) (on_disk [])
      = Raise e.
Proof.
  split; [reflexivity|]. intros [e He]. vm_compute in He. discriminate.
Qed.

(** ** The metadata of several items *)

Lemma fetch_metadata_zero (E : env) w url stdout f' :
  subprocess_run E [as_posix (YT_DLP_PATH E); "--dump-json"; url] (fs w)
    = Completed 0 stdout f' ->
  outcome (Utilities.fetch_metadata E url) w =
    match decode_stdout stdout with
    | Ok metadata => Ok (to_python (py_str E) metadata)
    | Raise e => Raise e
    end.
Proof.
  intros Hrun. unfold Utilities.fetch_metadata. run_unfold. simpl.
  rewrite Hrun. simpl. destruct (decode_stdout stdout); reflexivity.
Qed.

Lemma legacy_fetch_metadata_zero (E : env) w url stdout f' :
  subprocess_run E [as_posix (Legacy.YOUTUBE_DL E); "-j"; url] (fs w)
    = Completed 0 stdout f' ->
  outcome (Legacy.fetch_metadata E url) w =
    match decode_stdout stdout with
    | Ok metadata => Ok (to_python (py_str E) metadata)
    | Raise e => Raise e
    end.
Proof.
  intros Hrun. unfold Legacy.fetch_metadata. run_unfold. simpl.
  rewrite Hrun. simpl. destruct (decode_stdout stdout); reflexivity.
Qed.

(** C1: when the downloader writes two objects or more, one per line, with
    or without a line feed after the last, [fetch_metadata] returns the list
    of the records that [json.loads] makes of each object, as many and in
    the same order; the list is what [json.loads] makes of the output once
    the line feed between a closing and an opening brace is replaced by a
    comma, the line feed after a closing brace is dropped, and square
    brackets are put around the whole. *)
Theorem fetch_metadata_stream (E : env) (w : world) (url : string)
    (ts : list bytes) (os : list (list (bytes * json))) (tail : bytes)
    (f1 f2 : filesystem) :
  Forall2 object_text ts os -> 2 <= length ts -> is_tail tail ->
  let stdout := join [LF] ts ++ tail in
  subprocess_run E [as_posix (YT_DLP_PATH E); "--dump-json"; url] (fs w)
    = Completed 0 stdout f1 ->
  subprocess_run E [as_posix (Legacy.YOUTUBE_DL E); "-j"; url] (fs w)
    = Completed 0 stdout f2 ->
  let records := map (fun o => to_python (py_str E) (JObj o)) os in
  outcome (Utilities.fetch_metadata E url) w = Ok (PyList records) /\
  outcome (Legacy.fetch_metadata E url) w = Ok (PyList records) /\
  length records = length ts /\
  Forall2 (fun t r => to_python (py_str E) <$> loads t = Some r) ts records /\
  loads (b "[" ++ replace closing (b "}") (replace boundary (b "},{") stdout) ++ b "]")
    = Some (JArr (map JObj os)).
Proof.
  intros H Hlen Htail stdout Hrun1 Hrun2 records.
  pose proof (decode_stdout_stream _ _ _ H Hlen Htail) as Hd. fold stdout in Hd.
  split_and!.
  - rewrite (fetch_metadata_zero _ _ _ _ _ Hrun1), Hd. simpl.
    rewrite map_map. reflexivity.
  - rewrite (legacy_fetch_metadata_zero _ _ _ _ _ Hrun2), Hd. simpl.
    rewrite map_map. reflexivity.
  - subst records. rewrite length_map. symmetry. exact (Forall2_length _ _ _ H).
  - subst records. clear -H. induction H as [|t o ts os [_ Ht] _ IH]; simpl.
    + constructor.
    + constructor; [rewrite Ht; reflexivity|exact IH].
  - apply (loads_repair_stream _ _ _ H); [|exact Htail].
    destruct ts; simpl in *; [lia|discriminate].
Qed.

Lemma fetch_metadata_stream_witness :
  outcome (Utilities.fetch_metadata
             (sample_env (exits 0 (song_a_text ++ [LF] ++ song_b_text ++ [LF])) answers)
             video_url) (on_disk [])
  = Ok (PyList [song_a;
                PyDict [("title", PyStr "Song B"); ("channel", PyStr "Artist Y")]]).
Proof.
  pose (os := [ [(b "title", JStr (b "Song A")); (b "channel", JStr (b "Artist X"));
                 (b "upload_date", JStr (b "20230115"));
                 (b "webpage_url", JStr (b "https://example.com/v"));
                 (b "description", JStr (b "desc"));
                 (b "thumbnail", JStr (b "https://example.com/cover.jpg"))];
                [(b "title", JStr (b "Song B")); (b "channel", JStr (b "Artist Y"))] ]).
  assert (Hts : Forall2 object_text [song_a_text; song_b_text] os).
  { repeat constructor; try (eexists; reflexivity); vm_compute; reflexivity. }
  destruct (fetch_metadata_stream
              (sample_env (exits 0 (song_a_text ++ [LF] ++ song_b_text ++ [LF])) answers)
              (on_disk []) video_url [song_a_text; song_b_text] os [LF]
              (fs (on_disk [])) (fs (on_disk []))
              Hts ltac:(simpl; lia) ltac:(right; reflexivity)
              ltac:(vm_compute; reflexivity) ltac:(vm_compute; reflexivity))
    as [H _].
  rewrite H. vm_compute. reflexivity.
Defined.

(** ** The directory of the output *)

Lemma ancestors_self (p : path) : p <> [] -> p ∈ ancestors p.
Proof.
  intros Hp. unfold ancestors. apply list_elem_of_fmap.
  exists (length p). split; [symmetry; apply firstn_all|].
  apply elem_of_seq. destruct p; [congruence|]. simpl. lia.
Qed.

Lemma download_audio_run (E : env) w url file_path returncode stdout f' :
  let p := default (child (cwd E) OUTPUT_TEMPLATE) file_path in
  let command := [as_posix (YT_DLP_PATH E); "--embed-thumbnail"; "--add-metadata";
                  "--extract-audio"; "-o"; as_posix p; url] in
  let f1 := {| files := files (fs w);
               dirs := dirs (fs w) ∪ list_to_set (ancestors (parent p)) |} in
  existsb (is_file (fs w)) (ancestors (parent p)) = false ->
  subprocess_run E command f1 = Completed returncode stdout f' ->
  final (Utilities.download_audio_with_metadata E url file_path) w =
    {| fs := f';
       trace := trace w ++ [EMkdir (parent p); EPprint command; ERun command] |}.
Proof.
  intros p command f1 Hmk Hrun.
  unfold Utilities.download_audio_with_metadata. run_unfold. simpl.
  fold p. rewrite Hmk. simpl. fold command. fold f1. rewrite Hrun. simpl.
  destruct (Z.eqb_spec returncode 0); simpl; rewrite <- !app_assoc; reflexivity.
Qed.

Lemma download_thumbnail_run (E : env) w url file_path returncode stdout f' :
  let p := default (child (cwd E) OUTPUT_TEMPLATE) file_path in
  let command := [as_posix (YT_DLP_PATH E); "--write-thumbnail"; "--skip-download";
                  "-o"; as_posix p; url] in
  let f1 := {| files := files (fs w);
               dirs := dirs (fs w) ∪ list_to_set (ancestors (parent p)) |} in
  existsb (is_file (fs w)) (ancestors (parent p)) = false ->
  subprocess_run E command f1 = Completed returncode stdout f' ->
  final (Utilities.download_thumbnail E url file_path) w =
    {| fs := f'; trace := trace w ++ [EMkdir (parent p); ERun command] |}.
Proof.
  intros p command f1 Hmk Hrun.
  unfold Utilities.download_thumbnail. run_unfold. simpl.
  fold p. rewrite Hmk. simpl. fold command. fold f1. rewrite Hrun. simpl.
  destruct (Z.eqb_spec returncode 0); simpl; rewrite <- !app_assoc; reflexivity.
Qed.

(** C10: [download_audio_with_metadata] and [download_thumbnail] make the
    directory of the output and the directories above it before they call the
    downloader, which therefore runs on a disk that has them; this holds
    whatever the return code, so a run that ends with an exception has made
    the directories all the same. *)
Theorem directory_made_before_download (E : env) (w : world) (url : string)
    (file_path : option path) (returncode : Z) (stdout : bytes) (f' : filesystem) :
  let p := default (child (cwd E) OUTPUT_TEMPLATE) file_path in
  let f1 := {| files := files (fs w);
               dirs := dirs (fs w) ∪ list_to_set (ancestors (parent p)) |} in
  let audio := [as_posix (YT_DLP_PATH E); "--embed-thumbnail"; "--add-metadata";
                "--extract-audio"; "-o"; as_posix p; url] in
  let thumb := [as_posix (YT_DLP_PATH E); "--write-thumbnail"; "--skip-download";
                "-o"; as_posix p; url] in
  existsb (is_file (fs w)) (ancestors (parent p)) = false ->
  (forall q, q ∈ ancestors (parent p) -> q ∈ dirs f1) /\
  (parent p <> [] -> parent p ∈ dirs f1) /\
  (subprocess_run E audio f1 = Completed returncode stdout f' ->
   final (Utilities.download_audio_with_metadata E url file_path) w =
     {| fs := f';
        trace := trace w ++ [EMkdir (parent p); EPprint audio; ERun audio] |} /\
   (returncode <> 0%Z ->
    outcome (Utilities.download_audio_with_metadata E url file_path) w =
      Raise (Exception (Utilities.download_failed url returncode)))) /\
  (subprocess_run E thumb f1 = Completed returncode stdout f' ->
   final (Utilities.download_thumbnail E url file_path) w =
     {| fs := f'; trace := trace w ++ [EMkdir (parent p); ERun thumb] |} /\
   (returncode <> 0%Z ->
    outcome (Utilities.download_thumbnail E url file_path) w =
      Raise (Exception (Utilities.download_failed url returncode)))).
Proof.
  intros p f1 audio thumb Hmk.
  assert (Hin : forall q, q ∈ ancestors (parent p) -> q ∈ dirs f1).
  { intros q Hq. simpl. apply elem_of_union_r, elem_of_list_to_set, Hq. }
  split_and!.
  - exact Hin.
  - intros Hp. apply Hin, ancestors_self, Hp.
  - intros Hrun. split.
    + by apply download_audio_run with returncode stdout.
    + intros Hrc. unfold outcome.
      by rewrite (download_audio_nonzero E w url file_path returncode stdout f').
  - intros Hrun. split.
    + by apply download_thumbnail_run with returncode stdout.
    + intros Hrc. unfold outcome.
      by rewrite (download_thumbnail_nonzero E w url file_path returncode stdout f').
Qed.

Lemma directory_made_before_download_witness :
  (["music"; "new"] ∉ dirs (fs (on_disk []))) /\
  (["music"; "new"] ∈
    dirs (fs (final (Utilities.download_audio_with_metadata
                       (sample_env (exits 1 []) answers) video_url
                       (Some ["music"; "new"; OUTPUT_TEMPLATE])) (on_disk [])))) /\
  outcome (Utilities.download_audio_with_metadata
             (sample_env (exits 1 []) answers) video_url
             (Some ["music"; "new"; OUTPUT_TEMPLATE])) (on_disk [])
  = Raise (Exception
      "Subprocess call failed for url https://example.com/v when attempting to download video with metadata with code: 1").
Proof.
  destruct (directory_made_before_download
              (sample_env (exits 1 []) answers) (on_disk []) video_url
              (Some ["music"; "new"; OUTPUT_TEMPLATE]) 1 []
              {| files := files (fs (on_disk []));
                 dirs := dirs (fs (on_disk []))
                         ∪ list_to_set (ancestors ["music"; "new"]) |}
              ltac:(vm_compute; reflexivity))
    as (_ & Hp & Ha & _).
  destruct (Ha ltac:(reflexivity)) as [Hf Ho].
  split_and!.
  - vm_compute. discriminate.
  - rewrite Hf. apply Hp. discriminate.
  - rewrite Ho by lia. reflexivity.
Defined.

(** ** The extension of the file *)



(** With [--set-m4a-metadata], once the logging is set up and the metadata
    are fetched, [main] is the dispatch on the extension. *)
Lemma main_write_tags (E : env) (a : Script.args) file_path metadata w w1 w2 :
  Script.metadata_only a = false ->
  Script.download_thumbnail a = false ->
  Script.set_m4a_metadata a = Some file_path ->
  Script.logging_setup E a w = (Ok tt, w1) ->
  Utilities.fetch_metadata E (Script.url a) w1 = (Ok metadata, w2) ->
  Script.main E a w = Script.write_tags E file_path metadata w2.
Proof.
  intros Hmeta Hthumb Hset Hlog Hfetch. unfold Script.main.
  rewrite run_bind, Hlog, Hmeta, Hthumb, Hset, run_bind, Hfetch. reflexivity.
Qed.

(** The dispatch of [main] has no case for [.mp3]: such a file is reported
    as not supported, like any other. *)
Lemma mp3_extension_unsupported (E : env) w file_path metadata :
  lower (suffix file_path) = ".mp3" ->
  Script.write_tags E file_path metadata w =
    (Ok tt, record (EPrint "Unsupported file format: .mp3") w).
Proof.
  intros Hext. unfold Script.write_tags. rewrite Hext. reflexivity.
Qed.

(** ** What [set_cover] does, step by step *)

Ltac run_simpl := cbn -[ancestors is_file is_dir parent child].

Section SetCover.
Variable E : env.

(** The branch for MP4 files. *)
Lemma set_cover_mp4_run w url file_path :
  let p := default (child (cwd E) "cover.jpg") file_path in
  let cover_path := child (cwd E) "cover.jpg" in
  let f1 := made (fs w) (parent p) in
  let w1 := record (EMkdir (parent p)) w in
  str_endswith ".mp3" (as_posix p) = false ->
  Utilities.set_cover E (PyStr url) file_path w =
    if existsb (is_file (fs w)) (ancestors (parent p)) then (Raise OSError, w1)
    else
      let w2 := record (EGet url) (set_fs f1 w1) in
      match requests_get E url with
      | NoResponse => (Raise ConnectionError, w2)
      | Response _ body =>
          let w3 := record (EWrite cover_path) w2 in
          if is_dir f1 cover_path || negb (is_dir f1 (parent cover_path))
          then (Raise OSError, w3)
          else
            let f3 := written f1 cover_path (Blob body) in
            let w4 := record (EOpen MP4 p) (set_fs f3 w3) in
            match files f3 !! p with
            | Some (Mp4File audio tags) =>
                let w5 := record (ERead cover_path) w4 in
                match tags with
                | None => (Raise TypeError, w5)
                | Some D =>
                    let w6 := record (ESave MP4 p) w5 in
                    match render_tags (<["covr" := Value (PyList [PyBytes body])]>
                                         (atom_load <$> D)) with
                    | Some D' =>
                        (Ok tt, set_fs (written f3 p (Mp4File audio (Some D'))) w6)
                    | None => (Raise MutagenError, w6)
                    end
                end
            | _ => (Raise MutagenError, w4)
            end
      end.
Proof.
  intros p cover_path f1 w1 Hmp3. unfold Utilities.set_cover.
  fold p. fold cover_path. rewrite Hmp3. run_unfold. subst w1 f1. run_simpl.
  destruct (existsb (is_file (fs w)) (ancestors (parent p))); [reflexivity|].
  run_simpl. destruct (requests_get E url) as [|st body]; [reflexivity|].
  run_simpl.
  destruct (is_dir _ cover_path || negb (is_dir _ (parent cover_path)));
    [reflexivity|].
  run_simpl. destruct (decide (cover_path = p)) as [Heq|Hne].
  - rewrite <- Heq. rewrite lookup_insert_eq. reflexivity.
  - rewrite lookup_insert_ne by exact Hne.
    destruct (files (fs w) !! p) as [[| audio [D|] | |]|] eqn:Hp; try reflexivity.
    + run_simpl. rewrite lookup_insert_eq. run_simpl.
      rewrite lookup_insert_ne by exact Hne. rewrite Hp.
      destruct (render_tags _); reflexivity.
    + run_simpl. rewrite lookup_insert_eq. reflexivity.
Qed.

(** The branch for MP3 files. *)
Lemma set_cover_mp3_run w url file_path :
  let p := default (child (cwd E) "cover.jpg") file_path in
  let cover_path := child (cwd E) "cover.jpg" in
  let f1 := made (fs w) (parent p) in
  let w1 := record (EMkdir (parent p)) w in
  str_endswith ".mp3" (as_posix p) = true ->
  Utilities.set_cover E (PyStr url) file_path w =
    if existsb (is_file (fs w)) (ancestors (parent p)) then (Raise OSError, w1)
    else
      let w2 := record (EGet url) (set_fs f1 w1) in
      match requests_get E url with
      | NoResponse => (Raise ConnectionError, w2)
      | Response _ body =>
          let w3 := record (EWrite cover_path) w2 in
          if is_dir f1 cover_path || negb (is_dir f1 (parent cover_path))
          then (Raise OSError, w3)
          else
            let f3 := written f1 cover_path (Blob body) in
            let w4 := record (EOpen MP3 p) (set_fs f3 w3) in
            match files f3 !! p with
            | Some (Mp3File audio tags) =>
                let w5 := record (ERead cover_path) w4 in
                match tags with
                | None => (Raise AttributeError, w5)
                | Some T =>
                    let mime := if is_jpeg_url url then "image/jpg" else "image/png" in
                    let T' := <["APIC:Cover" := APIC 3 mime 3 "Cover" body]> T in
                    (Ok tt, set_fs (written f3 p (Mp3File audio (Some T')))
                              (record (ESave MP3 p) w5))
                end
            | _ => (Raise MutagenError, w4)
            end
      end.
Proof.
  intros p cover_path f1 w1 Hmp3. unfold Utilities.set_cover.
  fold p. fold cover_path. rewrite Hmp3. run_unfold. subst w1 f1. run_simpl.
  destruct (existsb (is_file (fs w)) (ancestors (parent p))); [reflexivity|].
  run_simpl. destruct (requests_get E url) as [|st body]; [reflexivity|].
  run_simpl.
  destruct (is_dir _ cover_path || negb (is_dir _ (parent cover_path)));
    [reflexivity|].
  run_simpl. destruct (decide (cover_path = p)) as [Heq|Hne].
  - rewrite <- Heq. rewrite lookup_insert_eq. reflexivity.
  - rewrite lookup_insert_ne by exact Hne.
    destruct (files (fs w) !! p) as [[| | audio [T|] |]|] eqn:Hp; try reflexivity.
    + run_simpl. rewrite lookup_insert_eq. run_simpl.
      rewrite lookup_insert_ne by exact Hne. rewrite Hp. reflexivity.
    + run_simpl. rewrite lookup_insert_eq. reflexivity.
Qed.

(** What is not text is turned down once the directory is made. *)
Lemma set_cover_not_text w cover file_path :
  let p := default (child (cwd E) "cover.jpg") file_path in
  (forall url, cover <> PyStr url) ->
  Utilities.set_cover E cover file_path w =
    if existsb (is_file (fs w)) (ancestors (parent p))
    then (Raise OSError, record (EMkdir (parent p)) w)
    else (Raise ValueError,
          set_fs (made (fs w) (parent p)) (record (EMkdir (parent p)) w)).
Proof.
  intros p Hc. unfold Utilities.set_cover. fold p. run_unfold. run_simpl.
  destruct (existsb (is_file (fs w)) (ancestors (parent p)));
    destruct cover; try reflexivity; exfalso; eapply Hc; reflexivity.
Qed.
End SetCover.

Lemma render_tags_lookup tags atoms k :
  render_tags tags = Some atoms -> atoms !! k = tags !! k ≫= atom_render k.
Proof.
  unfold render_tags. case_decide; [|discriminate]. intros [= <-].
  apply map_lookup_imap.
Qed.

(** ** The path used when none is given *)

Lemma b_append s1 s2 : b (String.append s1 s2) = b s1 ++ b s2.
Proof.
  unfold b. induction s1 as [|c s1 IH]; [reflexivity|].
  simpl. f_equal. exact IH.
Qed.

(** The text of a path ends with its last component. *)
Lemma as_posix_child d x : exists pre, b (as_posix (child d x)) = pre ++ b x.
Proof.
  unfold as_posix, child. rewrite b_append.
  assert (H : exists pre, b (String.concat "/" (d ++ [x])) = pre ++ b x).
  { induction d as [|y d [pre IH]]; [exists []; reflexivity|].
    destruct d as [|z d].
    - exists (b y ++ b "/"). cbn [app String.concat].
      rewrite !b_append, app_assoc. reflexivity.
    - cbn [app String.concat] in *. rewrite !b_append, IH.
      exists (b y ++ b "/" ++ pre). rewrite <- !app_assoc. reflexivity. }
  destruct H as [pre ->]. exists (b "/" ++ pre). rewrite app_assoc. reflexivity.
Qed.

(** The scratch file, which is also the file used when no path is given,
    is not taken for an MP3 file. *)
Lemma default_cover_not_mp3 d :
  str_endswith ".mp3" (as_posix (child d "cover.jpg")) = false.
Proof.
  unfold str_endswith, endswith. destruct (as_posix_child d "cover.jpg") as [pre ->].
  rewrite rev_app_distr. reflexivity.
Qed.

(** With no path given the file that is opened is the scratch file itself,
    which by then holds the image as fetched: the MP4 class is called on it
    and refuses it, the image being no MP4 container. *)
Lemma set_cover_default_path (E : env) w url status body :
  existsb (is_file (fs w)) (ancestors (cwd E)) = false ->
  requests_get E url = Response status body ->
  is_dir (made (fs w) (cwd E)) (child (cwd E) "cover.jpg") = false ->
  cwd E <> [] ->
  outcome (Utilities.set_cover E (PyStr url) None) w = Raise MutagenError.
Proof.
  intros Hmk Hget Hwr Hne. unfold outcome.
  rewrite (set_cover_mp4_run E w url None) by apply default_cover_not_mp3.
  cbn [default from_option id]. cbv zeta.
  assert (Hpar : parent (child (cwd E) "cover.jpg") = cwd E)
    by apply removelast_last.
  rewrite Hpar, Hmk, Hget, Hwr.
  assert (Hd : is_dir (made (fs w) (cwd E)) (cwd E) = true).
  { unfold is_dir. 
    apply orb_true_iff. right. apply bool_decide_eq_true. cbn.
    apply elem_of_union_r, elem_of_list_to_set, ancestors_self. assumption. }
  rewrite Hd. cbn [negb orb]. cbn [written files]. rewrite lookup_insert_eq.
  reflexivity.
Qed.

(** ** The two branches of [set_cover] *)

(** C9, as amended: [set_cover] chooses between its two branches by one
    test, whether the path, as text, ends with [.mp3].  Once the image is
    fetched and written to the scratch file, the next thing it does is to
    open the file with the MP3 class when the path ends so, and with the MP4
    class for every other path, the one used when no path is given included;
    it never calls the other class and turns no extension down.  That the
    MP4 branch is taken does not mean that the file is changed.  It is
    changed when it holds an MP4 container with tags: then the cover is
    written into it, whatever its name.  On a container without tags the
    assignment raises [TypeError]; on every other file, an Opus file or a
    missing file for instance, the tag library raises its error and the file
    stays as it was; with no path given the file opened is the scratch file,
    which holds the image, and the tag library refuses it as well.  The MP3
    branch does the same with the MP3 class. *)
Theorem set_cover_dispatch (E : env) (w : world) (url : string)
    (file_path : option path) (status : Z) (body : bytes) :
  let p := default (child (cwd E) "cover.jpg") file_path in
  let cover_path := child (cwd E) "cover.jpg" in
  let f1 := made (fs w) (parent p) in
  let chosen := if str_endswith ".mp3" (as_posix p) then MP3 else MP4 in
  let r := outcome (Utilities.set_cover E (PyStr url) file_path) w in
  let w' := final (Utilities.set_cover E (PyStr url) file_path) w in
  existsb (is_file (fs w)) (ancestors (parent p)) = false ->
  requests_get E url = Response status body ->
  is_dir f1 cover_path || negb (is_dir f1 (parent cover_path)) = false ->
  (exists rest,
     trace w' = trace w ++ [EMkdir (parent p); EGet url; EWrite cover_path;
                            EOpen chosen p] ++ rest /\
     (rest = [] \/ rest = [ERead cover_path] \/
      rest = [ERead cover_path; ESave chosen p])) /\
  (str_endswith ".mp3" (as_posix p) = false -> p <> cover_path ->
   match files (fs w) !! p with
   | Some (Mp4File audio (Some D)) =>
       match render_tags (<["covr" := Value (PyList [PyBytes body])]>
                            (atom_load <$> D)) with
       | Some D' =>
           r = Ok tt /\ files (fs w') !! p = Some (Mp4File audio (Some D')) /\
           D' !! "covr" = Some (Covers [(FORMAT_JPEG, body)])
       | None =>
           r = Raise MutagenError /\
           files (fs w') !! p = Some (Mp4File audio (Some D))
       end
   | Some (Mp4File audio None) =>
       r = Raise TypeError /\ files (fs w') !! p = Some (Mp4File audio None)
   | c => r = Raise MutagenError /\ files (fs w') !! p = c
   end) /\
  (p = cover_path ->
   chosen = MP4 /\ r = Raise MutagenError /\
   files (fs w') !! p = Some (Blob body)) /\
  (str_endswith ".mp3" (as_posix p) = true ->
   match files (fs w) !! p with
   | Some (Mp3File audio (Some T)) =>
       r = Ok tt /\
       files (fs w') !! p =
         Some (Mp3File audio
                 (Some (<["APIC:Cover" :=
                           APIC 3 (if is_jpeg_url url then "image/jpg" else "image/png")
                                3 "Cover" body]> T)))
   | Some (Mp3File audio None) =>
       r = Raise AttributeError /\ files (fs w') !! p = Some (Mp3File audio None)
   | c => r = Raise MutagenError /\ files (fs w') !! p = c
   end).
Proof.
  intros p cover_path f1 chosen r w' Hmk Hget Hwr. subst r w' chosen.
  unfold final, outcome.
  assert (Hother : p <> cover_path ->
            files (written f1 cover_path (Blob body)) !! p = files (fs w) !! p).
  { intros Hne. cbn. apply lookup_insert_ne. congruence. }
  destruct (str_endswith ".mp3" (as_posix p)) eqn:Hmp3.
  - assert (Hne : p <> cover_path).
    { intros Heq. rewrite Heq in Hmp3. unfold cover_path in Hmp3.
      rewrite default_cover_not_mp3 in Hmp3. discriminate. }
    rewrite (set_cover_mp3_run E w url file_path Hmp3).
    fold p. fold cover_path. fold f1. rewrite Hmk, Hget. cbv zeta. rewrite Hwr.
    rewrite (Hother Hne). split_and!.
    + destruct (files (fs w) !! p) as [[| | audio [T|] |]|];
        cbn [snd trace record set_fs]; rewrite <- ?app_assoc; cbn [app];
        eexists; (split; [reflexivity|]); auto.
    + discriminate.
    + intros Heq. contradiction.
    + intros _.
      destruct (files (fs w) !! p) as [[| | audio [T|] |]|] eqn:Hp;
        cbn [fst snd fs record set_fs]; rewrite ?(Hother Hne), ?Hp;
        try (split; reflexivity).
      split; [reflexivity|]. cbn [written files]. apply lookup_insert_eq.
  - rewrite (set_cover_mp4_run E w url file_path Hmp3).
    fold p. fold cover_path. fold f1. rewrite Hmk, Hget. cbv zeta. rewrite Hwr.
    split_and!.
    + destruct (files (written f1 cover_path (Blob body)) !! p)
        as [[| audio [D|] | |]|];
        try destruct (render_tags _);
        cbn [snd trace record set_fs]; rewrite <- ?app_assoc; cbn [app];
        eexists; (split; [reflexivity|]); auto.
    + intros _ Hne. rewrite (Hother Hne).
      destruct (files (fs w) !! p) as [[| audio [D|] | |]|] eqn:Hp;
        try destruct (render_tags _) as [D'|] eqn:Hr;
        cbn [fst snd fs record set_fs]; rewrite ?(Hother Hne), ?Hp;
        try (split; reflexivity).
      split_and!; [reflexivity|cbn [written files]; apply lookup_insert_eq|].
      rewrite (render_tags_lookup _ _ "covr" Hr), lookup_insert_eq. reflexivity.
    + intros Heq. split; [reflexivity|].
      assert (Hc : files (written f1 cover_path (Blob body)) !! p
                   = Some (Blob body)).
      { rewrite Heq. cbn. apply lookup_insert_eq. }
      rewrite Hc. cbn [fst snd fs record set_fs]. rewrite Hc.
      split; reflexivity.
    + discriminate.
Qed.

Lemma set_cover_dispatch_witness :
  outcome (Utilities.set_cover (sample_env (exits 0 []) answers)
             (PyStr "https://example.com/cover.png") (Some track_opus))
          (on_disk [(track_opus, Mp4File (b "audio") (Some ∅))])
  = Ok tt /\
  files (fs (final (Utilities.set_cover (sample_env (exits 0 []) answers)
                      (PyStr "https://example.com/cover.png") (Some track_opus))
                   (on_disk [(track_opus, Mp4File (b "audio") (Some ∅))])))
    !! track_opus
  = Some (Mp4File (b "audio")
            (Some {["covr" := Covers [(FORMAT_JPEG, cover_bytes)]]})).
Proof.
  destruct (set_cover_dispatch (sample_env (exits 0 []) answers)
              (on_disk [(track_opus, Mp4File (b "audio") (Some ∅))])
              "https://example.com/cover.png" (Some track_opus) 200 cover_bytes
              ltac:(vm_compute; reflexivity) ltac:(reflexivity)
              ltac:(vm_compute; reflexivity))
    as (_ & H & _).
  specialize (H ltac:(vm_compute; reflexivity) ltac:(vm_compute; discriminate)).
  vm_compute in H. destruct H as (Ho & Hf & _).
  split; vm_compute; [exact Ho|exact Hf].
Defined.

(** C9, as stated, fails on a file that is no MP4 container: on an Opus
    file, and with no path given, the MP4 class is called, as the claim says,
    but it refuses the file, and nothing is changed. *)
Lemma set_cover_opus_file_refused :
  let E := sample_env (exits 0 []) answers in
  let w := on_disk [(track_opus, OpusFile (b "audio") [("TITLE", "Song A")])] in
  let url := "https://example.com/cover.jpg" in
  str_endswith ".mp3" (as_posix track_opus) = false /\
  Utilities.set_cover E (PyStr url) (Some track_opus) w
  = (Raise MutagenError,
     {| fs := written (fs w) (home ++ ["cover.jpg"]) (Blob cover_bytes);
        trace := [EMkdir home; EGet url; EWrite (home ++ ["cover.jpg"]);
                  EOpen MP4 track_opus] |}) /\
  files (fs (final (Utilities.set_cover E (PyStr url) (Some track_opus)) w))
    !! track_opus
  = Some (OpusFile (b "audio") [("TITLE", "Song A")]) /\
  Utilities.set_cover E (PyStr url) None w
  = (Raise MutagenError,
     {| fs := written (fs w) (home ++ ["cover.jpg"]) (Blob cover_bytes);
        trace := [EMkdir home; EGet url; EWrite (home ++ ["cover.jpg"]);
                  EOpen MP4 (home ++ ["cover.jpg"])] |}).
Proof. intros E w url. split_and!; vm_compute; reflexivity. Qed.

(** ** What the tag writers do, step by step *)

Lemma MP4_setitem_text obj key v w :
  String.eqb key "covr" = false ->
  MP4_setitem obj key v w =
    match render_text v with
    | Some _ => (Ok (MP4_stored obj key v), w)
    | None => (Raise TypeError, w)
    end.
Proof.
  intros Hk. unfold MP4_setitem, atom_render. rewrite Hk.
  destruct (render_text v); reflexivity.
Qed.

Lemma set_m4a_metadata_run (E : env) file_path file_metadata w :
  let wa := record (EOpen MP4 file_path) w in
  Utilities.set_m4a_metadata E file_path file_metadata w =
    match files (fs w) !! file_path with
    | Some (Mp4File _ tags0) =>
        match m4a_read file_metadata with
        | Ok [title; channel; upload_date; webpage_url; description; thumbnail] =>
            match Utilities.set_cover E thumbnail (Some file_path) wa with
            | (Ok _, wb) =>
                MP4_save (m4a_assigned (tags_load tags0) title channel upload_date
                            webpage_url description) file_path wb
            | (Raise e, wb) => (Raise e, wb)
            end
        | Ok _ => (Raise TypeError, wa)
        | Raise e => (Raise e, wa)
        end
    | _ => (Raise MutagenError, wa)
    end.
Proof.
  intros wa. unfold Utilities.set_m4a_metadata.
  rewrite run_bind. unfold MP4_open at 1. run_unfold. cbn -[Utilities.set_cover].
  destruct (files (fs w) !! file_path) as [[| audio tags0 | |]|]; try reflexivity.
  cbn -[Utilities.set_cover MP4_setitem].
  destruct file_metadata; try reflexivity.
  unfold m4a_read. cbn -[Utilities.set_cover MP4_setitem render_text].
  repeat (match goal with
          | |- context [dict_get items ?k] => destruct (dict_get items k)
          | |- context [MP4_setitem ?o ?k ?v ?w] =>
              rewrite (MP4_setitem_text o k v w eq_refl);
              destruct (render_text v)
          end; cbn -[Utilities.set_cover MP4_setitem render_text]; try reflexivity).
Qed.

Lemma set_opus_metadata_run file_path file_metadata w :
  let wa := record (EOpen OggOpus file_path) w in
  Utilities.set_opus_metadata file_path file_metadata w =
    match files (fs w) !! file_path with
    | Some (OpusFile _ comments) =>
        match lookup_all file_metadata opus_fields with
        | Ok [title; channel; upload_date; webpage_url; description] =>
            OggOpus_save
              (opus_assigned (map (fun kv => (fst kv, PyStr (snd kv))) comments)
                 title channel upload_date webpage_url description)
              file_path wa
        | Ok _ => (Raise TypeError, wa)
        | Raise e => (Raise e, wa)
        end
    | _ => (Raise MutagenError, wa)
    end.
Proof.
  intros wa. unfold Utilities.set_opus_metadata.
  unfold OggOpus_open, getitem, emit, get_fs, raise, mret, M_ret, mbind, M_bind.
  cbn -[OggOpus_setitem OggOpus_save].
  destruct (files (fs w) !! file_path) as [[| | |audio comments]|]; try reflexivity.
  cbn -[OggOpus_setitem OggOpus_save].
  destruct file_metadata; try reflexivity. cbn -[OggOpus_setitem OggOpus_save].
  repeat (match goal with
          | |- context [dict_get items ?k] => destruct (dict_get items k)
          end; cbn -[OggOpus_setitem OggOpus_save]; try reflexivity).
Qed.

(** ** Records with a missing field *)

(** The lookups stop at the first key that is missing. *)
Lemma lookup_all_first_missing items keys k :
  k ∈ keys -> dict_get items k = None ->
  exists pre k' post,
    keys = pre ++ k' :: post /\
    (forall k0, k0 ∈ pre -> is_Some (dict_get items k0)) /\
    dict_get items k' = None /\
    lookup_all (PyDict items) keys = Raise (KeyError k').
Proof.
  intros Hin Hk. induction keys as [|k0 keys IH]; [inversion Hin|].
  cbn [lookup_all]. destruct (dict_get items k0) as [v0|] eqn:E0.
  - apply elem_of_cons in Hin as [->|Hin]; [congruence|].
    destruct (IH Hin) as (pre & k' & post & -> & Hpre & Hk' & ->).
    exists (k0 :: pre), k', post. split_and!; try done.
    intros k1 [->|H1]%elem_of_cons; [rewrite E0; eauto|auto].
  - exists [], k0, keys. split_and!; try done. intros k1 H1. inversion H1.
Qed.

(** The reads of [set_m4a_metadata] stop at the first key that is missing
    or, among the keys whose value is assigned, holds no text. *)
Lemma read_fields_first_failure items texts others k :
  k ∈ texts ++ others -> dict_get items k = None ->
  exists e, read_fields (PyDict items) texts others = Raise e /\
    ((exists pre k' post,
        texts = pre ++ k' :: post /\
        (forall k0, k0 ∈ pre -> text_at items k0) /\
        (dict_get items k' = None /\ e = KeyError k' \/
         (exists v, dict_get items k' = Some v /\ render_text v = None) /\
         e = TypeError)) \/
     ((forall k0, k0 ∈ texts -> text_at items k0) /\
      exists pre k' post,
        others = pre ++ k' :: post /\
        (forall k0, k0 ∈ pre -> is_Some (dict_get items k0)) /\
        dict_get items k' = None /\ e = KeyError k')).
Proof.
  intros Hin Hk. induction texts as [|k0 texts IH].
  - cbn [read_fields]. cbn [app] in Hin.
    destruct (lookup_all_first_missing _ _ _ Hin Hk)
      as (pre & k' & post & -> & Hpre & Hk' & ->).
    eexists. split; [reflexivity|]. right. split.
    + intros k0 H0. inversion H0.
    + exists pre, k', post. auto.
  - cbn [read_fields]. destruct (dict_get items k0) as [v0|] eqn:E0.
    2:{ eexists. split; [reflexivity|]. left. exists [], k0, texts.
        split_and!; [reflexivity| |left; auto]. intros k1 H1. inversion H1. }
    destruct (render_text v0) as [t0|] eqn:R0.
    2:{ eexists. split; [reflexivity|]. left. exists [], k0, texts.
        split_and!; [reflexivity| |right; eauto]. intros k1 H1. inversion H1. }
    assert (H0 : text_at items k0) by (exists v0; rewrite R0; eauto).
    cbn [app] in Hin. apply elem_of_cons in Hin as [->|Hin]; [congruence|].
    destruct (IH Hin) as (e & -> & Hcase). exists e. split; [reflexivity|].
    destruct Hcase as [(pre & k' & post & -> & Hpre & Hk')|[Hall Hrest]].
    + left. exists (k0 :: pre), k', post. split_and!; [reflexivity| |exact Hk'].
      intros k1 [->|H1]%elem_of_cons; auto.
    + right. split; [|exact Hrest].
      intros k1 [->|H1]%elem_of_cons; auto.
Qed.

(** C7, as amended: for a record that lacks one of the fields that the tag
    writer reads, the writer raises before anything is written, and no field
    gets a default.  When the file cannot be opened the error is that of the
    tag library.  Otherwise [set_opus_metadata], which reads [title],
    [channel], [upload_date], [webpage_url] and [description] and not
    [thumbnail], raises [KeyError] for the first of them that is missing.
    [set_m4a_metadata] reads the same five and then [thumbnail], and assigns
    each of the five as soon as it is read, which the tag library refuses
    with [TypeError] for a value that is no text: the error is [KeyError] for
    the first missing field when the fields before it hold texts, and
    [TypeError] when a field before it does not. *)
Theorem missing_field_raises (E : env) (w : world) (file_path : path)
    (items : list (string * pyobj)) (k : string) :
  dict_get items k = None ->
  (k ∈ m4a_fields ->
   exists e,
     Utilities.set_m4a_metadata E file_path (PyDict items) w
       = (Raise e, record (EOpen MP4 file_path) w) /\
     match files (fs w) !! file_path with
     | Some (Mp4File _ _) =>
         exists pre k' post,
           m4a_fields = pre ++ k' :: post /\
           (forall k0, k0 ∈ pre -> text_at items k0) /\
           (dict_get items k' = None /\ e = KeyError k' \/
            (exists v, dict_get items k' = Some v /\ render_text v = None) /\
            k' <> "thumbnail" /\ e = TypeError)
     | _ => e = MutagenError
     end) /\
  (k ∈ opus_fields ->
   exists e,
     Utilities.set_opus_metadata file_path (PyDict items) w
       = (Raise e, record (EOpen OggOpus file_path) w) /\
     match files (fs w) !! file_path with
     | Some (OpusFile _ _) =>
         exists pre k' post,
           opus_fields = pre ++ k' :: post /\
           (forall k0, k0 ∈ pre -> is_Some (dict_get items k0)) /\
           dict_get items k' = None /\ e = KeyError k'
     | _ => e = MutagenError
     end).
Proof.
  intros Hk. split; intros Hin.
  - rewrite set_m4a_metadata_run. cbv zeta.
    destruct (files (fs w) !! file_path) as [[| audio tags0 | |]|]; eauto.
    destruct (read_fields_first_failure items opus_fields ["thumbnail"] k Hin Hk)
      as (e & He & Hcase).
    unfold m4a_read. rewrite He. exists e. split; [reflexivity|].
    destruct Hcase as [(pre & k' & post & Heq & Hpre & Hk')
                      |(Hall & pre & k' & post & Heq & _ & Hk' & ->)].
    + exists pre, k', (post ++ ["thumbnail"]). split_and!.
      * unfold m4a_fields. change opus_fields with
          ["title"; "channel"; "upload_date"; "webpage_url"; "description"] in Heq.
        change ["title"; "channel"; "upload_date"; "webpage_url"; "description";
                "thumbnail"]
          with (["title"; "channel"; "upload_date"; "webpage_url"; "description"]
                  ++ ["thumbnail"]).
        rewrite Heq, <- app_assoc. reflexivity.
      * exact Hpre.
      * destruct Hk' as [Hk'|[Hv ->]]; [left; exact Hk'|right].
        split_and!; [exact Hv| |reflexivity].
        intros ->.
        assert (Hth : "thumbnail" ∈ opus_fields).
        { rewrite Heq. apply elem_of_app. right. apply elem_of_cons. left.
          reflexivity. }
        unfold opus_fields in Hth.
        repeat (apply elem_of_cons in Hth as [Hth|Hth]; [discriminate|]).
        inversion Hth.
    + destruct pre as [|k1 pre]; [|destruct pre; discriminate].
      injection Heq as <- <-.
      exists opus_fields, "thumbnail", []. split_and!; [reflexivity|exact Hall|].
      left. split; [exact Hk'|reflexivity].
  - rewrite set_opus_metadata_run. cbv zeta.
    destruct (files (fs w) !! file_path) as [[| | |audio comments]|]; eauto.
    destruct (lookup_all_first_missing _ _ _ Hin Hk)
      as (pre & k' & post & Heq & Hpre & Hk' & ->).
    eexists. split; [reflexivity|]. exists pre, k', post. auto.
Qed.

Lemma missing_field_raises_witness :
  let items := [("title", PyStr "Song A"); ("upload_date", PyStr "20230115")] in
  let w := on_disk [(track_m4a, Mp4File (b "audio") (Some ∅))] in
  dict_get items "description" = None /\
  Utilities.set_m4a_metadata (sample_env (exits 0 []) answers) track_m4a
    (PyDict items) w
  = (Raise (KeyError "channel"), record (EOpen MP4 track_m4a) w).
Proof.
  intros items w. split; [reflexivity|].
  destruct (missing_field_raises (sample_env (exits 0 []) answers) w track_m4a
              items "description" ltac:(reflexivity))
    as [H _].
  destruct (H ltac:(unfold m4a_fields; repeat constructor)) as (e & He & _).
  rewrite He. vm_compute in He. injection He as <-. reflexivity.
Defined.

(** A field that is there with a value that is no text is refused when it
    is assigned, before the fields after it are looked up: for a record
    whose title is null and which has no other field the error is not the
    [KeyError] of the first missing field. *)
Lemma null_title_refused :
  let md := PyDict [("title", PyNone)] in
  let w := on_disk [(track_m4a, Mp4File (b "audio") (Some ∅))] in
  Utilities.set_m4a_metadata (sample_env (exits 0 []) answers) track_m4a md w
  = (Raise TypeError, record (EOpen MP4 track_m4a) w).
Proof. vm_compute. reflexivity. Qed.

(** C7, as stated, fails on an Opus file: a record without [thumbnail] is
    written without an error. *)
Lemma opus_without_thumbnail :
  dict_get song_a_fields "thumbnail" = None /\
  lower (suffix track_opus) = ".opus" /\
  outcome (Script.write_tags (sample_env (exits 0 []) answers) track_opus
             (PyDict song_a_fields))
          (on_disk [(track_opus, OpusFile (b "audio") [])])
  = Ok tt /\
  files (fs (final (Script.write_tags (sample_env (exits 0 []) answers) track_opus
                      (PyDict song_a_fields))
                   (on_disk [(track_opus, OpusFile (b "audio") [])])))
    !! track_opus
  = Some (OpusFile (b "audio")
            [("TITLE", "Song A"); ("ARTIST", "Artist X"); ("DATE", "20230115");
             ("COMMENT", "https://example.com/v"); ("DESCRIPTION", "desc")]).
Proof. split_and!; vm_compute; reflexivity. Qed.

(** ** Tag writing on an MP4 container *)

Lemma suffix_cover d : suffix (child d "cover.jpg") = ".jpg".
Proof.
  unfold suffix, name, child. rewrite List.last_last. reflexivity.
Qed.





Lemma MP4_save_run obj p w :
  MP4_save obj p w =
    let w1 := record (ESave MP4 p) w in
    match obj with
    | None => (Ok tt, w1)
    | Some tags =>
        match files (fs w) !! p, render_tags tags with
        | Some (Mp4File audio _), Some atoms =>
            (Ok tt, set_fs (written (fs w) p (Mp4File audio (Some atoms))) w1)
        | _, _ => (Raise MutagenError, w1)
        end
    end.
Proof.
  unfold MP4_save. run_unfold. destruct obj as [tags|]; [|reflexivity].
  simpl.
  destruct (files (fs w) !! p) as [[| audio t | |]|]; try reflexivity.
  destruct (render_tags tags); reflexivity.
Qed.

Section OnMp4.
Variable E : env.

(** [set_cover] on a file that holds an MP4 container and is not the scratch
    file: it raises and leaves the file as it was, or it returns and the file
    has the cover. *)
Lemma set_cover_on_mp4 w cover p audio tags0 r wb :
  let cover_path := child (cwd E) "cover.jpg" in
  let f1 := made (fs w) (parent p) in
  p <> cover_path ->
  files (fs w) !! p = Some (Mp4File audio tags0) ->
  Utilities.set_cover E cover (Some p) w = (r, wb) ->
  (exists e, r = Raise e /\ files (fs wb) !! p = files (fs w) !! p /\
             saves MP4 p (new_events w wb) <= 1) \/
  (r = Ok tt /\
   exists url status body D Dc,
     cover = PyStr url /\
     str_endswith ".mp3" (as_posix p) = false /\
     existsb (is_file (fs w)) (ancestors (parent p)) = false /\
     requests_get E url = Response status body /\
     is_dir f1 cover_path || negb (is_dir f1 (parent cover_path)) = false /\
     tags0 = Some D /\
     render_tags (<["covr" := Value (PyList [PyBytes body])]> (atom_load <$> D))
       = Some Dc /\
     wb = {| fs := written (written f1 cover_path (Blob body)) p
                     (Mp4File audio (Some Dc));
             trace := trace w ++ [EMkdir (parent p); EGet url; EWrite cover_path;
                                  EOpen MP4 p; ERead cover_path; ESave MP4 p] |}).
Proof.
  intros cover_path f1 Hne Hp.
  assert (Hp3 : forall body, files (written f1 cover_path (Blob body)) !! p
                             = Some (Mp4File audio tags0)).
  { intros body. cbn. rewrite lookup_insert_ne by congruence. exact Hp. }
  assert (Hnt : (forall url, cover <> PyStr url) ->
    Utilities.set_cover E cover (Some p) w = (r, wb) ->
    exists e, r = Raise e /\ files (fs wb) !! p = files (fs w) !! p /\
              saves MP4 p (new_events w wb) <= 1).
  { intros Hc. rewrite set_cover_not_text by exact Hc.
    cbn [default from_option id]. destruct (existsb _ _); intros [= <- <-];
      (eexists; split; [reflexivity|]); (split; [exact eq_refl|]);
      unfold new_events; cbn; rewrite drop_app_length; cbn; lia. }
  destruct cover as [| | |url| | |]; try (intros H; left; apply Hnt; [discriminate|exact H]).
  clear Hnt.
  pose (leaf := fun (e : exn) (w1 : world) =>
    files (fs w1) !! p = files (fs w) !! p /\ saves MP4 p (new_events w w1) <= 1).
  assert (Hleaf : forall e w1, leaf e w1 -> (Raise e, w1) = (r, wb) ->
    (exists e, r = Raise e /\ files (fs wb) !! p = files (fs w) !! p /\
               saves MP4 p (new_events w wb) <= 1)).
  { intros e w1 [H1 H2] [= <- <-]. eauto. }
  assert (Hev : forall evs, saves MP4 p evs <= 1 ->
    saves MP4 p (drop (length (trace w)) (trace w ++ evs)) <= 1).
  { intros evs H. rewrite drop_app_length. exact H. }
  destruct (str_endswith ".mp3" (as_posix p)) eqn:Hmp3.
  - rewrite (set_cover_mp3_run E w url (Some p) Hmp3).
    cbn [default from_option id]. cbv zeta. fold cover_path. fold f1.
    destruct (existsb _ _).
    { intros H. left. eapply Hleaf; [|exact H]; split; [reflexivity|].
      unfold new_events, record, set_fs; cbn [trace fs].
      apply (Hev [_]). cbn. lia. }
    destruct (requests_get E url) as [|status body].
    { intros H. left. eapply Hleaf; [|exact H]; split; [reflexivity|].
      unfold new_events, record, set_fs; cbn [trace fs]; rewrite <- ?app_assoc.
      apply (Hev [_; _]). cbn. lia. }
    destruct (is_dir f1 cover_path || _).
    { intros H. left. eapply Hleaf; [|exact H]; split; [reflexivity|].
      unfold new_events, record, set_fs; cbn [trace fs]; rewrite <- ?app_assoc.
      apply (Hev [_; _; _]). cbn. lia. }
    rewrite Hp3. intros H. left.
    eapply Hleaf; [|exact H]; split; [cbn [record set_fs fs]; rewrite Hp3, Hp; reflexivity|].
    unfold new_events, record, set_fs; cbn [trace fs]; rewrite <- ?app_assoc.
    apply (Hev [_; _; _; _]). cbn. lia.
  - rewrite (set_cover_mp4_run E w url (Some p) Hmp3).
    cbn [default from_option id]. cbv zeta. fold cover_path. fold f1.
    destruct (existsb _ _) eqn:Hmk.
    { intros H. left. eapply Hleaf; [|exact H]; split; [reflexivity|].
      unfold new_events, record, set_fs; cbn [trace fs].
      apply (Hev [_]). cbn. lia. }
    destruct (requests_get E url) as [|status body] eqn:Hget.
    { intros H. left. eapply Hleaf; [|exact H]; split; [reflexivity|].
      unfold new_events, record, set_fs; cbn [trace fs]; rewrite <- ?app_assoc.
      apply (Hev [_; _]). cbn. lia. }
    destruct (is_dir f1 cover_path || _) eqn:Hwr.
    { intros H. left. eapply Hleaf; [|exact H]; split; [reflexivity|].
      unfold new_events, record, set_fs; cbn [trace fs]; rewrite <- ?app_assoc.
      apply (Hev [_; _; _]). cbn. lia. }
    rewrite Hp3. destruct tags0 as [D|].
    2:{ intros H. left.
        eapply Hleaf; [|exact H]; split; [cbn [record set_fs fs]; rewrite Hp3, Hp; reflexivity|].
        unfold new_events, record, set_fs; cbn [trace fs]; rewrite <- ?app_assoc.
        apply (Hev [_; _; _; _; _]). cbn. lia. }
    destruct (render_tags _) as [Dc|] eqn:Hr.
    2:{ intros H. left.
        eapply Hleaf; [|exact H]; split; [cbn [record set_fs fs]; rewrite Hp3, Hp; reflexivity|].
        unfold new_events, record, set_fs; cbn [trace fs]; rewrite <- ?app_assoc.
        apply (Hev [_; _; _; _; _; _]). cbn. repeat case_match; lia. }
    intros [= <- <-]. right. split; [reflexivity|].
    exists url, status, body, D, Dc. split_and!; try reflexivity; try assumption.
    unfold record, set_fs; cbn [trace fs]; rewrite <- !app_assoc. reflexivity.
Qed.
End OnMp4.

(** ** Failures before the last save *)

Lemma OggOpus_save_run obj p w :
  OggOpus_save obj p w =
    let w1 := record (ESave OggOpus p) w in
    match files (fs w) !! p,
          mapM (fun kv => (fun s => (fst kv, s)) <$> as_str (snd kv)) obj with
    | Some (OpusFile audio _), Some comments =>
        (Ok tt, set_fs (written (fs w) p (OpusFile audio comments)) w1)
    | Some (OpusFile _ _), None => (Raise ValueError, w1)
    | _, _ => (Raise MutagenError, w1)
    end.
Proof.
  unfold OggOpus_save. run_unfold. simpl.
  destruct (files (fs w) !! p) as [[| | | audio t]|]; try reflexivity.
  destruct (mapM _ obj); reflexivity.
Qed.

Lemma m4a_not_scratch d p :
  String.eqb (lower (suffix p)) ".m4a" = true -> p <> child d "cover.jpg".
Proof. intros H ->. rewrite suffix_cover in H. discriminate. Qed.

Lemma m4a_assigned_union base title channel upload_date webpage_url description :
  m4a_assigned (Some base) title channel upload_date webpage_url description
  = Some (m4a_texts title channel upload_date webpage_url description ∪ base).
Proof.
  unfold m4a_assigned, m4a_texts, MP4_stored. cbn [default from_option id].
  rewrite <- !insert_union_l, (left_id_L ∅ (∪)). reflexivity.
Qed.

(** The reads of [set_m4a_metadata] for a record that has the six fields:
    they succeed when the five fields that are assigned hold texts. *)
Lemma read_fields_lookup_all md texts others vs :
  lookup_all md (texts ++ others) = Ok vs ->
  read_fields md texts others =
    if forallb (fun v => bool_decide (is_Some (render_text v)))
               (take (length texts) vs)
    then Ok vs else Raise TypeError.
Proof.
  revert vs. induction texts as [|k texts IH]; intros vs.
  - cbn. intros ->. reflexivity.
  - cbn [app lookup_all read_fields length].
    destruct md as [| | | | | |items]; try discriminate.
    destruct (dict_get items k) as [v|]; [|discriminate].
    destruct (lookup_all (PyDict items) (texts ++ others)) as [vs'|] eqn:Hvs;
      [|discriminate].
    intros [= <-]. rewrite (IH vs' eq_refl). cbn [take forallb].
    destruct (render_text v) as [t|]; [|reflexivity].
    rewrite bool_decide_eq_true_2 by eauto. cbn [andb].
    destruct (forallb _ _); reflexivity.
Qed.

Lemma m4a_read_lookup_all md vs :
  m4a_read md = Ok vs -> lookup_all md m4a_fields = Ok vs.
Proof.
  unfold m4a_read.
  change m4a_fields with (opus_fields ++ ["thumbnail"]).
  generalize opus_fields. intros texts. revert vs.
  induction texts as [|k texts IH]; intros vs; [exact id|].
  cbn [app lookup_all read_fields].
  destruct md as [| | | | | |items]; try discriminate.
  destruct (dict_get items k) as [v|]; [|discriminate].
  destruct (render_text v); [|discriminate].
  destruct (read_fields (PyDict items) texts ["thumbnail"]) as [vs'|] eqn:Hvs;
    [|discriminate].
  intros [= <-]. rewrite (IH vs' eq_refl). reflexivity.
Qed.

Section RaiseKeeps.
Variable E : env.

End RaiseKeeps.



(** The run on an address that answers 404: [set_cover] returns, and what
    it has embedded as the cover is the error page; [set_m4a_metadata]
    returns as well and leaves another file than it found. *)
Lemma error_page_is_embedded :
  let E := sample_env (exits 0 []) (Response 404 (b "Not Found")) in
  let w := on_disk [(track_m4a, Mp4File (b "audio") (Some ∅))] in
  let url := "https://example.com/cover.jpg" in
  Utilities.set_cover E (PyStr url) (Some track_m4a) w
  = (Ok tt,
     {| fs := written
                (written (fs w) (home ++ ["cover.jpg"]) (Blob (b "Not Found")))
                track_m4a
                (Mp4File (b "audio")
                   (Some {["covr" := Covers [(FORMAT_JPEG, b "Not Found")]]}));
        trace := [EMkdir home; EGet url; EWrite (home ++ ["cover.jpg"]);
                  EOpen MP4 track_m4a; ERead (home ++ ["cover.jpg"]);
                  ESave MP4 track_m4a] |}) /\
  outcome (Utilities.set_m4a_metadata E track_m4a song_a) w = Ok tt /\
  files (fs (final (Utilities.set_m4a_metadata E track_m4a song_a) w)) !! track_m4a
  <> files (fs w) !! track_m4a.
Proof.
  intros E w url. split_and!.
  - vm_compute. reflexivity.
  - vm_compute. reflexivity.
  - vm_compute. discriminate.
Qed.

(** ** The example of the specification *)

(** C2: what [set_m4a_metadata] does for the record of the example on a file
    [track.m4a] that has tags but no cover, the address of the thumbnail
    answering with an image.  The five texts are written.  The cover is not:
    [set_cover] writes it to the file through an object of its own, and the
    object that [set_m4a_metadata] opened before, which has no cover, is then
    saved over it. *)
Theorem set_m4a_metadata_song_a :
  let E := sample_env (exits 0 []) answers in
  let w := on_disk [(track_m4a, Mp4File (b "audio") (Some ∅))] in
  let w' := final (Utilities.set_m4a_metadata E track_m4a song_a) w in
  let covered :=
    final (Utilities.set_cover E (PyStr "https://example.com/cover.jpg")
             (Some track_m4a)) w in
  requests_get E "https://example.com/cover.jpg" = Response 200 cover_bytes /\
  outcome (Utilities.set_m4a_metadata E track_m4a song_a) w = Ok tt /\
  (exists tags,
     files (fs w') !! track_m4a = Some (Mp4File (b "audio") (Some tags)) /\
     tags !! KEY_nam = Some (Text ["Song A"]) /\
     tags !! KEY_ART = Some (Text ["Artist X"]) /\
     tags !! KEY_day = Some (Text ["20230115"]) /\
     tags !! KEY_cmt = Some (Text ["https://example.com/v"]) /\
     tags !! "desc" = Some (Text ["desc"]) /\
     tags !! "covr" = None) /\
  (forall c, files (fs w') !! track_m4a = Some c -> pictures c = 0) /\
  (exists tags,
     files (fs covered) !! track_m4a = Some (Mp4File (b "audio") (Some tags)) /\
     tags !! "covr" = Some (Covers [(FORMAT_JPEG, cover_bytes)])) /\
  trace w' =
    [EOpen MP4 track_m4a; EMkdir home; EGet "https://example.com/cover.jpg";
     EWrite (home ++ ["cover.jpg"]); EOpen MP4 track_m4a;
     ERead (home ++ ["cover.jpg"]); ESave MP4 track_m4a; ESave MP4 track_m4a].
Proof.
  intros E w w' covered. split_and!.
  - reflexivity.
  - vm_compute. reflexivity.
  - eexists. split; [vm_compute; reflexivity|].
    split_and!; vm_compute; reflexivity.
  - intros c Hc. vm_compute in Hc. injection Hc as <-. vm_compute. reflexivity.
  - eexists. split; [vm_compute; reflexivity|]. vm_compute. reflexivity.
  - vm_compute. reflexivity.
Qed.

(** The same run on a file that already has a cover: the cover that was
    there is the one that stays. *)
Lemma set_m4a_metadata_song_a_old_cover :
  let E := sample_env (exits 0 []) answers in
  let old := <["covr" := Covers [(FORMAT_PNG, b "old image")]]> ∅ in
  let w := on_disk [(track_m4a, Mp4File (b "audio") (Some old))] in
  let w' := final (Utilities.set_m4a_metadata E track_m4a song_a) w in
  outcome (Utilities.set_m4a_metadata E track_m4a song_a) w = Ok tt /\
  exists tags,
    files (fs w') !! track_m4a = Some (Mp4File (b "audio") (Some tags)) /\
    tags !! KEY_nam = Some (Text ["Song A"]) /\
    tags !! "covr" = Some (Covers [(FORMAT_PNG, b "old image")]).
Proof.
  intros E old w w'. split; [vm_compute; reflexivity|].
  eexists. split; [vm_compute; reflexivity|].
  split; vm_compute; reflexivity.
Qed.

(** ** The format of the cover *)

(** In the MP3 branch the type written with the picture follows the
    extension of the address. *)
Lemma set_cover_mp3_mime (E : env) w url file_path status body audio T :
  let p := default (child (cwd E) "cover.jpg") file_path in
  let cover_path := child (cwd E) "cover.jpg" in
  let f1 := made (fs w) (parent p) in
  str_endswith ".mp3" (as_posix p) = true ->
  existsb (is_file (fs w)) (ancestors (parent p)) = false ->
  requests_get E url = Response status body ->
  is_dir f1 cover_path || negb (is_dir f1 (parent cover_path)) = false ->
  p <> cover_path ->
  files (fs w) !! p = Some (Mp3File audio (Some T)) ->
  files (fs (final (Utilities.set_cover E (PyStr url) file_path) w)) !! p =
    Some (Mp3File audio
            (Some (<["APIC:Cover" :=
                      APIC 3 (if is_jpeg_url url then "image/jpg" else "image/png")
                           3 "Cover" body]> T))).
Proof.
  intros p cover_path f1 Hmp3 Hmk Hget Hwr Hne Hp. unfold final.
  rewrite (set_cover_mp3_run E w url file_path Hmp3).
  fold p. fold cover_path. fold f1. rewrite Hmk, Hget. cbv zeta. rewrite Hwr.
  assert (Hp' : files (written f1 cover_path (Blob body)) !! p
                = Some (Mp3File audio (Some T))).
  { cbn. rewrite lookup_insert_ne by congruence. exact Hp. }
  rewrite Hp'. cbn [snd fs set_fs written files]. apply lookup_insert_eq.
Qed.

(** In the MP4 branch the address has no part in what is written: two
    addresses that answer with the same image leave the same files. *)
Lemma set_cover_mp4_address_ignored (E : env) w url1 url2 file_path s1 s2 body :
  let p := default (child (cwd E) "cover.jpg") file_path in
  str_endswith ".mp3" (as_posix p) = false ->
  requests_get E url1 = Response s1 body ->
  requests_get E url2 = Response s2 body ->
  fs (final (Utilities.set_cover E (PyStr url1) file_path) w)
  = fs (final (Utilities.set_cover E (PyStr url2) file_path) w).
Proof.
  intros p Hmp3 H1 H2. unfold final.
  rewrite (set_cover_mp4_run E w url1 file_path Hmp3).
  rewrite (set_cover_mp4_run E w url2 file_path Hmp3).
  fold p. rewrite H1, H2. cbv zeta.
  destruct (existsb _ _); [reflexivity|].
  destruct (is_dir _ _ || _); [reflexivity|].
  destruct (files _ !! p) as [[| audio [D|] | |]|]; try reflexivity.
  destruct (render_tags _); reflexivity.
Qed.

(** C8: what [set_cover] records for an address that ends with [.png].  On
    [track.mp3] the picture is written with the type [image/png].  On
    [track.m4a] the cover is written as JPEG: the format chosen from the
    address is given to an [MP4Cover] that is turned into plain [bytes]
    before it is stored, and the tag library writes plain [bytes] as JPEG.
    The same file results from an address that ends with [.jpg]. *)
Theorem set_cover_png_address :
  let E := sample_env (exits 0 []) answers in
  let png := "https://example.com/cover.png" in
  let jpg := "https://example.com/cover.jpg" in
  let m4a := on_disk [(track_m4a, Mp4File (b "audio") (Some ∅))] in
  let mp3 := on_disk [(track_mp3, Mp3File (b "audio") (Some ∅))] in
  is_jpeg_url png = false /\
  outcome (Utilities.set_cover E (PyStr png) (Some track_m4a)) m4a = Ok tt /\
  (exists tags,
     files (fs (final (Utilities.set_cover E (PyStr png) (Some track_m4a)) m4a))
       !! track_m4a = Some (Mp4File (b "audio") (Some tags)) /\
     tags !! "covr" = Some (Covers [(FORMAT_JPEG, cover_bytes)])) /\
  fs (final (Utilities.set_cover E (PyStr png) (Some track_m4a)) m4a)
  = fs (final (Utilities.set_cover E (PyStr jpg) (Some track_m4a)) m4a) /\
  (exists tags,
     files (fs (final (Utilities.set_cover E (PyStr png) (Some track_mp3)) mp3))
       !! track_mp3 = Some (Mp3File (b "audio") (Some tags)) /\
     tags !! "APIC:Cover" = Some (APIC 3 "image/png" 3 "Cover" cover_bytes)).
Proof.
  intros E png jpg m4a mp3. split_and!.
  - vm_compute. reflexivity.
  - vm_compute. reflexivity.
  - eexists. split; vm_compute; reflexivity.
  - apply (set_cover_mp4_address_ignored E m4a png jpg (Some track_m4a) 200 200
             cover_bytes); vm_compute; reflexivity.
  - eexists. split; vm_compute; reflexivity.
Qed.

(** ** Writing the same tags again *)

Lemma mapM_as_str values : mapM as_str (map PyStr values) = Some values.
Proof.
  induction values as [|v values IH]; [reflexivity|].
  cbn. rewrite IH. reflexivity.
Qed.

(** An atom that was rendered is rendered as itself when it is read again. *)
Lemma atom_render_load k v a :
  atom_render k v = Some a -> atom_render k (atom_load a) = Some a.
Proof.
  unfold atom_render. destruct v as [v|images].
  - destruct (String.eqb k "covr") eqn:Hk.
    + destruct v; try discriminate.
      destruct (mapM render_cover_item items) as [images|]; [|discriminate].
      intros [= <-]. reflexivity.
    + destruct (render_text v) as [values|]; [|discriminate].
      intros [= <-]. unfold atom_load, render_text.
      rewrite mapM_as_str. reflexivity.
  - destruct (String.eqb k "covr") eqn:Hk; [|discriminate].
    intros [= <-]. reflexivity.
Qed.

Lemma render_tags_inv tags atoms :
  render_tags tags = Some atoms ->
  (forall k v, tags !! k = Some v -> is_Some (atom_render k v)) /\
  atoms = map_imap atom_render tags.
Proof.
  unfold render_tags. case_decide as H; [|discriminate]. intros [= <-].
  split; [|reflexivity]. intros k v Hk. exact (H k v Hk).
Qed.

Lemma render_tags_intro tags :
  (forall k v, tags !! k = Some v -> is_Some (atom_render k v)) ->
  render_tags tags = Some (map_imap atom_render tags).
Proof.
  intros H. unfold render_tags. case_decide as H'; [reflexivity|].
  exfalso. apply H'. intros k v Hk. exact (H k v Hk).
Qed.

Lemma render_tags_stable tags atoms : render_tags tags = Some atoms -> stable atoms.
Proof.
  intros [_ ->]%render_tags_inv k a Hk. rewrite map_lookup_imap in Hk.
  destruct (tags !! k) as [v|] eqn:Hv; [|discriminate]. cbn in Hk.
  exact (atom_render_load _ _ _ Hk).
Qed.

(** Tags assigned over those read from rendered atoms can be rendered. *)
Lemma render_tags_over (G : gmap string mp4value) (D : gmap string atom) :
  (forall k v, G !! k = Some v -> is_Some (atom_render k v)) -> stable D ->
  forall k v, (G ∪ (atom_load <$> D)) !! k = Some v -> is_Some (atom_render k v).
Proof.
  intros HG HD k v Hk. apply lookup_union_Some_raw in Hk as [Hk|[_ Hk]].
  - exact (HG _ _ Hk).
  - rewrite lookup_fmap in Hk. destruct (D !! k) as [a|] eqn:Ha; [|discriminate].
    injection Hk as <-. rewrite (HD _ _ Ha). eauto.
Qed.

(** Rendering, reading back and assigning the same values renders the same
    atoms. *)
Lemma render_tags_again (G : gmap string mp4value) (D D2 : gmap string atom) :
  render_tags (G ∪ (atom_load <$> D)) = Some D2 ->
  render_tags (G ∪ (atom_load <$> D2)) = Some D2.
Proof.
  intros H. pose proof (render_tags_stable _ _ H) as Hst.
  destruct (render_tags_inv _ _ H) as [Hok HD2].
  rewrite render_tags_intro.
  2:{ apply render_tags_over; [|exact Hst].
      intros k v Hk. apply (Hok k v). apply lookup_union_Some_raw. left. exact Hk. }
  f_equal. apply map_eq. intros k. rewrite map_lookup_imap.
  assert (HD2k : D2 !! k = (G ∪ (atom_load <$> D)) !! k ≫= atom_render k).
  { rewrite HD2, map_lookup_imap. reflexivity. }
  destruct (G !! k) as [v|] eqn:HG.
  - rewrite HD2k. rewrite !(lookup_union_Some_l _ _ _ _ HG). reflexivity.
  - rewrite lookup_union_r by exact HG. rewrite lookup_fmap.
    destruct (D2 !! k) as [a|] eqn:Ha; [|reflexivity].
    cbn. apply (Hst _ _ Ha).
Qed.

Lemma existsb_agree {A} (f g : A -> bool) (l : list A) :
  (forall x, x ∈ l -> f x = g x) -> existsb f l = existsb g l.
Proof.
  induction l as [|x l IH]; intros H; [reflexivity|]. cbn.
  rewrite (H x) by left. rewrite IH; [reflexivity|].
  intros y Hy. apply H. right. exact Hy.
Qed.

Lemma ancestors_length (p q : path) : q ∈ ancestors p -> length q <= length p.
Proof.
  unfold ancestors. intros (n & -> & _)%list_elem_of_fmap.
  rewrite length_take. lia.
Qed.

Lemma ancestors_parent_ne (p q : path) : q ∈ ancestors (parent p) -> q <> p.
Proof.
  intros Hq ->. destruct p as [|x p _] using rev_ind; [inversion Hq|].
  apply ancestors_length in Hq. unfold parent in Hq.
  rewrite removelast_last, length_app in Hq. cbn in Hq. lia.
Qed.

Section Twice.
Variable E : env.

Lemma set_m4a_metadata_twice w w1 p md :
  p <> child (cwd E) "cover.jpg" ->
  Utilities.set_m4a_metadata E p md w = (Ok tt, w1) ->
  exists w2, Utilities.set_m4a_metadata E p md w1 = (Ok tt, w2) /\ fs w2 = fs w1.
Proof.
  intros Hne. rewrite !set_m4a_metadata_run. cbv zeta.
  destruct (files (fs w) !! p) as [[| audio tags0 | |]|] eqn:Hp; try discriminate.
  destruct (m4a_read md) as [vs|] eqn:Hvs; [|discriminate].
  do 6 (destruct vs as [|? vs]; [discriminate|]).
  destruct vs; [|discriminate].
  destruct (Utilities.set_cover E _ _ (record _ w)) as [r wb] eqn:Hc.
  apply (set_cover_on_mp4 E _ _ _ audio tags0) in Hc; [|exact Hne|exact Hp].
  destruct Hc as [(e0 & -> & _)|[-> (url & st & body & D & Dc & -> & Hmp3 & Hmk & Hget & Hwr & -> & Hr & ->)]];
    [discriminate|].
  rewrite MP4_save_run. cbv zeta. cbn [tags_load option_map].
  rewrite m4a_assigned_union.
  cbn [fs written files record]. rewrite lookup_insert_eq.
  destruct (render_tags (_ ∪ _)) as [D2|] eqn:Hr2; [|discriminate].
  intros [= <-]. cbn [fs set_fs written files record trace].
  rewrite lookup_insert_eq.
  set (cover_path := child (cwd E) "cover.jpg") in *.
  set (f1 := made (fs w) (parent p)) in *.
  set (F1 := written (written (written f1 cover_path (Blob body)) p
                        (Mp4File audio (Some Dc))) p (Mp4File audio (Some D2))).
  match goal with |- context [Utilities.set_cover E _ _ ?W] => set (wa := W) end.
  assert (HF1 : fs wa = F1) by reflexivity.
  change (fs (record (EOpen MP4 p) w)) with (fs w) in Hmk, Hwr. fold f1 in Hwr.
  apply orb_false_iff in Hwr as [Hwr1 Hwr2].
  assert (Hcd : cover_path ∉ ancestors (parent p)).
  { intros Hin. unfold is_dir in Hwr1. apply orb_false_iff in Hwr1 as [_ Hwr1].
    apply bool_decide_eq_false in Hwr1. apply Hwr1. cbn.
    apply elem_of_union_r, elem_of_list_to_set, Hin. }
  assert (Hmk2 : existsb (is_file (fs wa)) (ancestors (parent p)) = false).
  { rewrite <- Hmk. apply existsb_agree. intros q Hq. rewrite HF1.
    unfold is_file, F1. cbn [files written f1 made].
    rewrite !lookup_insert_ne; [reflexivity| | |].
    - intros ->. exact (Hcd Hq).
    - intros <-. exact (ancestors_parent_ne _ _ Hq eq_refl).
    - intros <-. exact (ancestors_parent_ne _ _ Hq eq_refl). }
  assert (Hdirs : dirs (made (fs wa) (parent p)) = dirs f1).
  { rewrite HF1. cbn. apply set_eq. intros q. rewrite !elem_of_union. tauto. }
  assert (Hwr' : is_dir (made (fs wa) (parent p)) cover_path
                 || negb (is_dir (made (fs wa) (parent p)) (parent cover_path))
                 = false).
  { unfold is_dir in *. rewrite Hdirs, Hwr1, Hwr2. reflexivity. }
  assert (Hp2 : files (written (made (fs wa) (parent p)) cover_path (Blob body)) !! p
                = Some (Mp4File audio (Some D2))).
  { rewrite HF1. cbn. rewrite lookup_insert_ne by congruence.
    apply lookup_insert_eq. }
  pose proof (render_tags_stable _ _ Hr2) as Hst2.
  assert (Hr' : exists Dc2,
             render_tags (<["covr" := Value (PyList [PyBytes body])]>
                            (atom_load <$> D2)) = Some Dc2).
  { eexists. rewrite insert_union_singleton_l. apply render_tags_intro.
    apply render_tags_over; [|exact Hst2].
    intros k v [<- <-]%lookup_singleton_Some. eauto. }
  destruct Hr' as [Dc2 Hr'].
  rewrite (set_cover_mp4_run E wa url (Some p)) by exact Hmp3.
  cbn [default from_option id]. cbv zeta. fold cover_path.
  rewrite Hmk2, Hget, Hwr', Hp2, Hr'.
  rewrite MP4_save_run. cbv zeta. cbn [tags_load option_map].
  rewrite m4a_assigned_union.
  cbn [fs set_fs written files record]. rewrite lookup_insert_eq.
  rewrite (render_tags_again _ _ _ Hr2).
  eexists. split; [reflexivity|].
  cbn [fs set_fs]. unfold F1, written. cbn [files dirs]. f_equal.
  - rewrite HF1. unfold F1, written, made. cbn [files dirs].
    apply map_eq. intros k.
    destruct (decide (k = p)) as [->|Hk]; [rewrite !lookup_insert_eq; reflexivity|].
    rewrite !(lookup_insert_ne _ p) by congruence.
    destruct (decide (k = cover_path)) as [->|Hk'];
      [rewrite !lookup_insert_eq; reflexivity|].
    repeat (rewrite lookup_insert_ne by congruence). reflexivity.
  - exact Hdirs.
Qed.
End Twice.

Lemma OggOpus_setitem_app obj key v :
  OggOpus_setitem obj key v =
  filter (fun kv => negb (same_key key (fst kv))) obj
  ++ map (fun x => (key, x)) (values_of v).
Proof. reflexivity. Qed.

Lemma filter_new_comments key key' (vs : list pyobj) :
  filter (fun kv : string * pyobj => negb (same_key key (fst kv)))
         (map (fun x => (key', x)) vs)
  = if same_key key key' then [] else map (fun x => (key', x)) vs.
Proof.
  induction vs as [|v vs IH]; [destruct (same_key key key'); reflexivity|].
  cbn [map]. rewrite filter_cons. cbn [fst]. rewrite IH.
  destruct (same_key key key'); cbn; reflexivity.
Qed.

Lemma filter_all {A} (P : A -> Prop) `{forall x, Decision (P x)} (l : list A) :
  (forall x, x ∈ l -> P x) -> filter P l = l.
Proof.
  induction l as [|x l IH]; intros Hl; [reflexivity|].
  rewrite filter_cons_True by (apply Hl; left).
  rewrite IH; [reflexivity|]. intros y Hy. apply Hl. right. exact Hy.
Qed.

Ltac eval_same_key :=
  repeat match goal with
         | |- context [same_key ?a ?k] =>
             let r := eval vm_compute in (same_key a k) in
             change (same_key a k) with r
         end.

(** Assigning the five comments a second time changes nothing. *)
Lemma opus_assigned_twice obj title channel upload_date webpage_url description :
  opus_assigned (opus_assigned obj title channel upload_date webpage_url description)
    title channel upload_date webpage_url description
  = opus_assigned obj title channel upload_date webpage_url description.
Proof.
  unfold opus_assigned. rewrite !OggOpus_setitem_app.
  repeat (progress (rewrite ?filter_app, ?filter_new_comments; eval_same_key;
                    cbv iota; rewrite ?filter_nil)).
  rewrite ?app_nil_r, <- ?app_assoc. cbn [app].
  set (R := filter _ (filter _ (filter _ (filter _ (filter _ obj))))).
  assert (HR : forall kv, kv ∈ R ->
            negb (same_key "TITLE" (fst kv)) /\ negb (same_key "ARTIST" (fst kv)) /\
            negb (same_key "DATE" (fst kv)) /\ negb (same_key "COMMENT" (fst kv)) /\
            negb (same_key "DESCRIPTION" (fst kv))).
  { intros kv Hkv. subst R.
    repeat (apply list_elem_of_filter in Hkv as [? Hkv]). tauto. }
  rewrite (filter_all _ R) by (intros kv Hkv; apply (HR kv Hkv)).
  rewrite (filter_all _ R) by (intros kv Hkv; apply (HR kv Hkv)).
  rewrite (filter_all _ R) by (intros kv Hkv; apply (HR kv Hkv)).
  rewrite (filter_all _ R) by (intros kv Hkv; apply (HR kv Hkv)).
  rewrite (filter_all _ R) by (intros kv Hkv; apply (HR kv Hkv)).
  reflexivity.
Qed.

Lemma comments_validated (obj : opusobj) (comments : list (string * string)) :
  mapM (fun kv => (fun s => (fst kv, s)) <$> as_str (snd kv)) obj = Some comments ->
  obj = map (fun kv => (fst kv, PyStr (snd kv))) comments.
Proof.
  intros H%mapM_Some_1. induction H as [|[k v] [k' s] obj comments Hx _ IH];
    [reflexivity|].
  cbn [map fst snd]. rewrite <- IH. f_equal.
  destruct v; try discriminate. cbn in Hx. congruence.
Qed.

Lemma set_opus_metadata_twice w w1 p md :
  Utilities.set_opus_metadata p md w = (Ok tt, w1) ->
  exists w2, Utilities.set_opus_metadata p md w1 = (Ok tt, w2) /\ fs w2 = fs w1.
Proof.
  rewrite !set_opus_metadata_run. cbv zeta.
  destruct (files (fs w) !! p) as [[| | |audio comments]|] eqn:Hp; try discriminate.
  destruct (lookup_all md opus_fields) as [vs|] eqn:Hvs; [|discriminate].
  do 5 (destruct vs as [|? vs]; [discriminate|]).
  destruct vs; [|discriminate].
  rewrite OggOpus_save_run. cbv zeta. cbn [fs record]. rewrite Hp.
  destruct (mapM _ _) as [comments1|] eqn:Hv; [|discriminate].
  intros [= <-]. cbn [fs set_fs written files]. rewrite lookup_insert_eq.
  rewrite OggOpus_save_run. cbv zeta. cbn [fs set_fs record written files].
  rewrite lookup_insert_eq.
  rewrite <- (comments_validated _ _ Hv), opus_assigned_twice, Hv.
  eexists. split; [reflexivity|].
  unfold set_fs, written. cbn [fs files dirs]. rewrite insert_insert_eq.
  reflexivity.
Qed.

(** C6, as amended: when the tag-writing operation has succeeded, a second
    call with the same metadata, the address of the thumbnail answering as
    before, succeeds too and leaves the disk as the first call left it: the
    tags of the file are the same after the second call as after the first,
    and so is the number of embedded pictures. *)
Theorem write_tags_idempotent (E : env) (w : world) (file_path : path)
    (metadata : pyobj) :
  outcome (Script.write_tags E file_path metadata) w = Ok tt ->
  let w1 := final (Script.write_tags E file_path metadata) w in
  let w2 := final (Script.write_tags E file_path metadata) w1 in
  outcome (Script.write_tags E file_path metadata) w1 = Ok tt /\
  fs w2 = fs w1 /\
  files (fs w2) !! file_path = files (fs w1) !! file_path /\
  (pictures <$> files (fs w2) !! file_path) = (pictures <$> files (fs w1) !! file_path).
Proof.
  intros Hok w1 w2.
  assert (H : outcome (Script.write_tags E file_path metadata) w1 = Ok tt /\
              fs w2 = fs w1).
  { subst w2 w1. unfold outcome, final in *. revert Hok.
    unfold Script.write_tags.
    destruct (String.eqb (lower (suffix file_path)) ".m4a") eqn:Hm4a.
    - destruct (Utilities.set_m4a_metadata E file_path metadata w) as [r w1] eqn:H1.
      cbn [fst snd]. intros ->.
      destruct (set_m4a_metadata_twice E w w1 file_path metadata
                  (m4a_not_scratch (cwd E) _ Hm4a) H1) as (w2 & -> & Hfs).
      split; [reflexivity|exact Hfs].
    - destruct (String.eqb (lower (suffix file_path)) ".opus").
      + destruct (Utilities.set_opus_metadata file_path metadata w) as [r w1] eqn:H1.
        cbn [fst snd]. intros ->.
        destruct (set_opus_metadata_twice w w1 file_path metadata H1)
          as (w2 & -> & Hfs).
        split; [reflexivity|exact Hfs].
      + intros _. split; reflexivity. }
  destruct H as [H1 H2]. rewrite H2. split_and!; reflexivity || exact H1.
Qed.

Lemma write_tags_idempotent_witness :
  outcome (Script.write_tags (sample_env (exits 0 []) answers) track_m4a song_a)
          (on_disk [(track_m4a, Mp4File (b "audio") (Some ∅))]) = Ok tt /\
  fs (final (Script.write_tags (sample_env (exits 0 []) answers) track_m4a song_a)
        (final (Script.write_tags (sample_env (exits 0 []) answers) track_m4a song_a)
           (on_disk [(track_m4a, Mp4File (b "audio") (Some ∅))])))
  = fs (final (Script.write_tags (sample_env (exits 0 []) answers) track_m4a song_a)
          (on_disk [(track_m4a, Mp4File (b "audio") (Some ∅))])).
Proof.
  assert (Hok : outcome (Script.write_tags (sample_env (exits 0 []) answers)
                           track_m4a song_a)
                        (on_disk [(track_m4a, Mp4File (b "audio") (Some ∅))])
                = Ok tt) by (vm_compute; reflexivity).
  split; [exact Hok|].
  exact (proj1 (proj2 (write_tags_idempotent (sample_env (exits 0 []) answers)
                         (on_disk [(track_m4a, Mp4File (b "audio") (Some ∅))])
                         track_m4a song_a Hok))).
Defined.

(** C6, as stated, fails on an Opus file: after two calls no picture is
    embedded in it. *)
Lemma opus_twice_no_picture :
  let E := sample_env (exits 0 []) answers in
  let w := on_disk [(track_opus, OpusFile (b "audio") [])] in
  let w1 := final (Script.write_tags E track_opus song_a) w in
  let w2 := final (Script.write_tags E track_opus song_a) w1 in
  outcome (Script.write_tags E track_opus song_a) w = Ok tt /\
  outcome (Script.write_tags E track_opus song_a) w1 = Ok tt /\
  (pictures <$> files (fs w2) !! track_opus) = Some 0 /\
  (pictures <$> files (fs w2) !! track_opus) <> Some 1.
Proof. split_and!; vm_compute; (reflexivity || discriminate). Qed.
Close Scope string_scope.

(** * Further properties of the code *)

(** ** White space and other separators in the output of the downloader *)

Lemma lex_run_ws s :
  forallb is_ws s = true -> lex_run MDefault s = Some ([], MDefault).
Proof.
  induction s as [|c s IH]; [reflexivity|]. cbn [forallb].
  intros [Hc Hs]%andb_true_iff. cbn [lex_run lex_step]. unfold default_step.
  rewrite Hc. cbn [mbind option_bind]. rewrite (IH Hs). reflexivity.
Qed.

Lemma is_ws_not_rbrace c : is_ws c = true -> Ascii.eqb "}" c = false.
Proof.
  unfold is_ws. intros H. destruct (Ascii.eqb_spec "}" c) as [<-|]; [|reflexivity].
  discriminate.
Qed.

Lemma is_ws_not_lbrace c : is_ws c = true -> Ascii.eqb "{" c = false.
Proof.
  unfold is_ws. intros H. destruct (Ascii.eqb_spec "{" c) as [<-|]; [|reflexivity].
  discriminate.
Qed.

(** A replacement whose pattern starts with a closing brace passes over
    white space. *)
Lemma replace_ws old new s r :
  forallb is_ws s = true ->
  replace ("}" :: old) new (s ++ r) = s ++ replace ("}" :: old) new r.
Proof.
  induction s as [|c s IH]; [reflexivity|]. cbn [forallb].
  intros [Hc Hs]%andb_true_iff. cbn [app].
  rewrite replace_cons_other; [rewrite (IH Hs); reflexivity|].
  cbn [startswith]. rewrite (is_ws_not_rbrace _ Hc). reflexivity.
Qed.

Lemma replace_ws_only old new s :
  forallb is_ws s = true -> replace ("}" :: old) new s = s.
Proof.
  intros H. rewrite <- (app_nil_r s) at 1. rewrite replace_ws by exact H.
  rewrite app_nil_r. reflexivity.
Qed.

Lemma loads_ws s : forallb is_ws s = true -> loads s = None.
Proof. intros H. unfold loads, lex. rewrite (lex_run_ws _ H). reflexivity. Qed.

Lemma decode_stdout_ws s :
  forallb is_ws s = true -> decode_stdout s = Ok (JArr []).
Proof.
  intros H. unfold decode_stdout. rewrite (loads_ws _ H). unfold repair.
  unfold boundary, closing.
  rewrite (replace_ws_only _ _ s H), (replace_ws_only _ _ s H).
  unfold loads, lex. change (b "[" ++ ?x) with ("[" :: x).
  cbn [lex_run]. change (lex_step MDefault "[") with (Some ([TLBrack], MDefault)).
  cbn [mbind option_bind]. rewrite lex_run_app, (lex_run_ws _ H). reflexivity.
Qed.

(** The tokens of a stream of objects with [sep] between them and [tail]
    after the last, both of white space. *)
Lemma lex_run_separated ts tokss os sep tail :
  Forall3 piece ts tokss os ->
  forallb is_ws sep = true -> forallb is_ws tail = true ->
  lex_run MDefault (join sep ts ++ tail) = Some (concat tokss, MDefault).
Proof.
  intros H Hsep Htail. induction H as [|t tk o ts tks os' Hp Hr IH].
  - cbn [join concat app]. apply lex_run_ws, Htail.
  - destruct Hp as (_ & Hl & _).
    destruct ts as [|t' ts'].
    + inversion Hr; subst. cbn [join concat]. rewrite lex_run_app, Hl.
      cbn [mbind option_bind]. rewrite (lex_run_ws _ Htail). reflexivity.
    + rewrite join_cons2, <- !app_assoc, lex_run_app, Hl.
      cbn [mbind option_bind]. rewrite lex_run_app, (lex_run_ws _ Hsep).
      cbn [mbind option_bind]. rewrite IH. reflexivity.
Qed.

(** The first replacement finds nothing across the end of an object text
    unless a line feed and an opening brace follow. *)
Lemma boundary_after_object new body r :
  startswith [ LF; "{" ] r = false ->
  replace boundary new (("{" :: body ++ [ "}" ]) ++ r)
  = replace boundary new ("{" :: body ++ [ "}" ]) ++ replace boundary new r.
Proof.
  intros Hr. apply replace_app; [discriminate|].
  intros y x E Hx.
  destruct (decide (3 <= length x)) as [Hlen|Hlen].
  { apply startswith_app_long. exact Hlen. }
  assert (Hlast : exists x', x = x' ++ [ "}" ]).
  { rewrite app_comm_cons in E.
    destruct x as [|c x _] using rev_ind; [congruence|].
    rewrite app_assoc in E. apply app_inj_tail in E as [_ <-]. eauto. }
  destruct Hlast as [x' ->]. rewrite length_app in Hlen. cbn in Hlen.
  destruct x' as [|c [|c' x']]; [| |cbn in Hlen; lia].
  - cbn [app]. unfold boundary. cbn [startswith]. rewrite Ascii.eqb_refl.
    cbn [andb]. exact Hr.
  - cbn [app]. unfold boundary. cbn [startswith].
    destruct (Ascii.eqb "}" c); reflexivity.
Qed.

Lemma startswith_lf_lbrace_ws sep r :
  forallb is_ws sep = true -> sep <> [LF] ->
  startswith [ LF; "{" ] (sep ++ "{" :: r) = false.
Proof.
  intros Hws Hne. destruct sep as [|c [|c' sep]].
  - reflexivity.
  - cbn [app startswith]. destruct (Ascii.eqb_spec LF c) as [<-|]; [congruence|].
    reflexivity.
  - cbn [app startswith]. cbn [forallb] in Hws.
    apply andb_true_iff in Hws as [_ [Hc' _]%andb_true_iff].
    rewrite (is_ws_not_lbrace _ Hc'). apply andb_false_r.
Qed.

Lemma startswith_lf_lbrace_tail tail :
  forallb is_ws tail = true -> startswith [ LF; "{" ] tail = false.
Proof.
  intros Hws. destruct tail as [|c [|c' tail]]; cbn [startswith].
  - reflexivity.
  - apply andb_false_r.
  - cbn [forallb] in Hws.
    apply andb_true_iff in Hws as [_ [Hc' _]%andb_true_iff].
    rewrite (is_ws_not_lbrace _ Hc'). apply andb_false_r.
Qed.

(** With a separator other than one line feed the first replacement leaves
    the stream as it is. *)
Lemma boundary_separated ts tokss os sep tail :
  Forall3 piece ts tokss os ->
  forallb is_ws sep = true -> forallb is_ws tail = true -> sep <> [LF] ->
  replace boundary (b "},{") (join sep ts ++ tail) = join sep ts ++ tail.
Proof.
  intros H Hsep Htail Hne. induction H as [|t tk o ts tks os' Hp Hr IH].
  - cbn [join app]. apply replace_ws_only, Htail.
  - destruct Hp as ([body ->] & _ & _ & Hb & _).
    destruct ts as [|t' ts'].
    + cbn [join]. rewrite boundary_after_object
        by (apply startswith_lf_lbrace_tail, Htail).
      rewrite Hb. unfold boundary. rewrite (replace_ws_only _ _ _ Htail).
      reflexivity.
    + rewrite join_cons2, <- !app_assoc.
      assert (Hs : exists s, join sep (t' :: ts') = "{" :: s).
      { eapply join_starts_lbrace; [exact Hr|discriminate]. }
      destruct Hs as [s Hs].
      rewrite boundary_after_object.
      * rewrite Hb. f_equal. unfold boundary in *.
        rewrite (replace_ws _ _ _ _ Hsep). f_equal. exact IH.
      * rewrite Hs. cbn [app]. apply startswith_lf_lbrace_ws; assumption.
Qed.

Lemma piece_starts_lbrace t toks o :
  piece t toks o -> exists toks', toks = TLBrace :: toks'.
Proof.
  intros ([body ->] & Hl & _). cbn [lex_run] in Hl.
  change (lex_step MDefault "{") with (Some ([TLBrace], MDefault)) in Hl.
  cbn [mbind option_bind] in Hl.
  destruct (lex_run MDefault (body ++ [ "}" ])) as [[rest m]|]; [|discriminate].
  cbn in Hl. injection Hl as <- _. eauto.
Qed.

(** An array whose first item is directly followed by an opening brace is
    rejected. *)
Lemma parse_value_no_comma fuel a o r :
  (forall fuel x, length (TLBrace :: a) <= fuel ->
     parse_value fuel ((TLBrace :: a) ++ x) = Some (JObj o, x)) ->
  length (TLBrace :: a) <= fuel ->
  parse_value (S (S fuel)) (TLBrack :: (TLBrace :: a) ++ TLBrace :: r) = None.
Proof.
  intros Hf Hlen.
  change (parse_value (S (S fuel)) (TLBrack :: (TLBrace :: a) ++ TLBrace :: r))
    with (match parse_value fuel ((TLBrace :: a) ++ TLBrace :: r) with
          | Some (v, TComma :: r') => parse_array fuel [v] r'
          | Some (v, TRBrack :: r') => Some (JArr (rev [v]), r')
          | _ => None
          end).
  rewrite (Hf _ _ Hlen). reflexivity.
Qed.

(** Several objects with anything but one line feed between them: neither
    attempt of [fetch_metadata] reads them. *)
Lemma decode_stdout_separated ts os sep tail :
  Forall2 object_text ts os -> 2 <= length ts ->
  forallb is_ws sep = true -> forallb is_ws tail = true -> sep <> [LF] ->
  decode_stdout (join sep ts ++ tail) = Raise JSONDecodeError.
Proof.
  intros H Hlen Hsep Htail Hne.
  destruct (object_texts_pieces _ _ H) as [tokss Hp].
  pose proof (lex_run_separated _ _ _ _ _ Hp Hsep Htail) as Hlex.
  pose proof (boundary_separated _ _ _ _ _ Hp Hsep Htail Hne) as Hb.
  destruct Hp as [|t tk o ts' tks' os' Hp1 Hr]; [simpl in Hlen; lia|].
  destruct Hr as [|t2 tk2 o2 ts2 tks2 os2 Hp2 Hr]; [simpl in Hlen; lia|].
  destruct (piece_starts_lbrace _ _ _ Hp2) as [tk2' ->].
  destruct (piece_starts_lbrace _ _ _ Hp1) as [tk1' ->].
  destruct Hp1 as (_ & _ & _ & _ & _ & Hf).
  cbn [concat] in Hlex.
  unfold decode_stdout.
  assert (H1 : loads (join sep (t :: t2 :: ts2) ++ tail) = None).
  { unfold loads, lex. rewrite Hlex. cbn [mbind option_bind lex_end].
    rewrite app_nil_r.
    rewrite Hf by (rewrite !length_app; cbn [length]; lia). reflexivity. }
  rewrite H1. unfold repair. rewrite Hb.
  unfold loads, lex. change (b "[" ++ ?x) with ("[" :: x).
  cbn [lex_run]. change (lex_step MDefault "[") with (Some ([TLBrack], MDefault)).
  cbn [mbind option_bind].
  rewrite lex_run_app, (lex_run_closing _ _ _ Hlex).
  cbn [mbind option_bind b list_ascii_of_string lex_run].
  change (lex_step MDefault "]") with (Some ([TRBrack], MDefault)).
  cbn [mbind option_bind lex_end app].
  rewrite app_nil_r.
  rewrite <- !app_assoc. cbn [app].
  change (TLBrace :: tk1' ++ TLBrace :: ?r) with ((TLBrace :: tk1') ++ TLBrace :: r).
  cbn [length]. rewrite length_app. cbn [length].
  replace (S (S (length tk1' + S (length (tk2' ++ concat tks2 ++ [TRBrack])))))
    with (S (S (S (length tk1') + length (tk2' ++ concat tks2 ++ [TRBrack]))))
    by lia.
  rewrite (parse_value_no_comma _ _ _ _ Hf) by (cbn [length]; lia).
  reflexivity.
Qed.

(** One object, with white space after it, is read at the first attempt. *)
Lemma loads_padded t o tail :
  object_text t o -> forallb is_ws tail = true -> loads (t ++ tail) = Some (JObj o).
Proof.
  intros H Htail. destruct (object_text_piece _ _ H) as [toks Hp].
  pose proof (lex_run_separated [t] [toks] [o] [] tail
                ltac:(constructor; [exact Hp|constructor]) eq_refl Htail) as Hlex.
  cbn [join concat] in Hlex. rewrite app_nil_r in Hlex.
  destruct Hp as (_ & _ & _ & _ & _ & Hf).
  unfold loads, lex. rewrite Hlex. cbn [mbind option_bind lex_end].
  rewrite app_nil_r. rewrite <- (app_nil_r toks) at 2.
  rewrite Hf by lia. reflexivity.
Qed.

Open Scope string_scope.

Lemma fetch_metadata_decoded (E : env) w url stdout f' :
  subprocess_run E [as_posix (YT_DLP_PATH E); "--dump-json"; url] (fs w)
    = Completed 0 stdout f' ->
  Utilities.fetch_metadata E url w =
    (match decode_stdout stdout with
     | Ok metadata => Ok (to_python (py_str E) metadata)
     | Raise e => Raise e
     end,
     {| fs := f';
        trace := trace w ++ [ERun [as_posix (YT_DLP_PATH E); "--dump-json"; url]] |}).
Proof.
  intros Hrun. unfold Utilities.fetch_metadata. run_unfold. simpl.
  rewrite Hrun. simpl. destruct (decode_stdout stdout); reflexivity.
Qed.

(** X1: when the downloader exits with code 0 and has written nothing, or
    white space only, [fetch_metadata] returns the empty list: the first
    attempt fails, and the repair wraps the output into the text of an empty
    array.  It is neither an error nor the empty [dict] the function starts
    from.  The same holds in the earlier script. *)
Theorem fetch_metadata_blank_output (E : env) (w : world) (url : string)
    (stdout : bytes) (f' : filesystem) :
  forallb is_ws stdout = true ->
  (subprocess_run E [as_posix (YT_DLP_PATH E); "--dump-json"; url] (fs w)
     = Completed 0 stdout f' ->
   Utilities.fetch_metadata E url w =
     (Ok (PyList []),
      {| fs := f';
         trace := trace w ++ [ERun [as_posix (YT_DLP_PATH E); "--dump-json"; url]] |})) /\
  (subprocess_run E [as_posix (Legacy.YOUTUBE_DL E); "-j"; url] (fs w)
     = Completed 0 stdout f' ->
   outcome (Legacy.fetch_metadata E url) w = Ok (PyList [])).
Proof.
  intros Hws. split; intros Hrun.
  - rewrite (fetch_metadata_decoded _ _ _ _ _ Hrun), (decode_stdout_ws _ Hws).
    reflexivity.
  - rewrite (legacy_fetch_metadata_zero _ _ _ _ _ Hrun), (decode_stdout_ws _ Hws).
    reflexivity.
Qed.

Lemma fetch_metadata_blank_output_witness :
  Utilities.fetch_metadata (sample_env (exits 0 []) answers) video_url (on_disk [])
  = (Ok (PyList []),
     {| fs := fs (on_disk []);
        trace := [ERun ["/opt/venv/Scripts/yt-dlp.exe"; "--dump-json"; video_url]] |}).
Proof.
  apply (fetch_metadata_blank_output (sample_env (exits 0 []) answers) (on_disk [])
           video_url [] (fs (on_disk [])) eq_refl).
  reflexivity.
Defined.

(** X2: when the output is one object, followed or not by white space,
    [fetch_metadata] returns the [dict] of that object itself, not a list of
    one record: the first attempt succeeds and the repair is not tried. *)
Theorem fetch_metadata_one_object (E : env) (w : world) (url : string)
    (t tail : bytes) (o : list (bytes * json)) (f' : filesystem) :
  object_text t o -> forallb is_ws tail = true ->
  subprocess_run E [as_posix (YT_DLP_PATH E); "--dump-json"; url] (fs w)
    = Completed 0 (t ++ tail) f' ->
  outcome (Utilities.fetch_metadata E url) w =
    Ok (PyDict (dict_of_pairs
                  (map (fun kv => (py_str E (fst kv), to_python (py_str E) (snd kv)))
                       o))).
Proof.
  intros Ht Htail Hrun. unfold outcome.
  rewrite (fetch_metadata_decoded _ _ _ _ _ Hrun). unfold decode_stdout.
  rewrite (loads_padded _ _ _ Ht Htail). reflexivity.
Qed.

Lemma fetch_metadata_one_object_witness :
  outcome (Utilities.fetch_metadata
             (sample_env (exits 0 (song_b_text ++ [CR; LF])) answers) video_url)
          (on_disk [])
  = Ok (PyDict [("title", PyStr "Song B"); ("channel", PyStr "Artist Y")]).
Proof.
  assert (Ht : object_text song_b_text
                 [(b "title", JStr (b "Song B")); (b "channel", JStr (b "Artist Y"))]).
  { split; [eexists; reflexivity|vm_compute; reflexivity]. }
  rewrite (fetch_metadata_one_object
             (sample_env (exits 0 (song_b_text ++ [CR; LF])) answers) (on_disk [])
             video_url song_b_text [CR; LF] _ (fs (on_disk [])) Ht eq_refl eq_refl).
  vm_compute. reflexivity.
Defined.

(** X3: the repair knows one separator only, a single line feed.  When two
    or more objects are written with any other white space between them (a
    carriage return and a line feed, an empty line, a space, nothing),
    [fetch_metadata] raises [JSONDecodeError], whatever white space follows
    the last object. *)
Theorem fetch_metadata_other_separator (E : env) (w : world) (url : string)
    (ts : list bytes) (os : list (list (bytes * json))) (sep tail : bytes)
    (f' : filesystem) :
  Forall2 object_text ts os -> 2 <= length ts ->
  forallb is_ws sep = true -> forallb is_ws tail = true -> sep <> [LF] ->
  subprocess_run E [as_posix (YT_DLP_PATH E); "--dump-json"; url] (fs w)
    = Completed 0 (join sep ts ++ tail) f' ->
  Utilities.fetch_metadata E url w =
    (Raise JSONDecodeError,
     {| fs := f';
        trace := trace w ++ [ERun [as_posix (YT_DLP_PATH E); "--dump-json"; url]] |}).
Proof.
  intros Hts Hlen Hsep Htail Hne Hrun.
  rewrite (fetch_metadata_decoded _ _ _ _ _ Hrun).
  rewrite (decode_stdout_separated _ _ _ _ Hts Hlen Hsep Htail Hne). reflexivity.
Qed.

Lemma fetch_metadata_other_separator_witness :
  outcome (Utilities.fetch_metadata
             (sample_env (exits 0 (song_a_text ++ [CR; LF] ++ song_b_text ++ [CR; LF]))
                answers) video_url) (on_disk [])
  = Raise JSONDecodeError.
Proof.
  pose (os := [ [(b "title", JStr (b "Song A")); (b "channel", JStr (b "Artist X"));
                 (b "upload_date", JStr (b "20230115"));
                 (b "webpage_url", JStr (b "https://example.com/v"));
                 (b "description", JStr (b "desc"));
                 (b "thumbnail", JStr (b "https://example.com/cover.jpg"))];
                [(b "title", JStr (b "Song B")); (b "channel", JStr (b "Artist Y"))] ]).
  assert (Hts : Forall2 object_text [song_a_text; song_b_text] os).
  { repeat constructor; try (eexists; reflexivity); vm_compute; reflexivity. }
  unfold outcome.
  rewrite (fetch_metadata_other_separator
             (sample_env (exits 0 (song_a_text ++ [CR; LF] ++ song_b_text ++ [CR; LF]))
                answers)
             (on_disk []) video_url [song_a_text; song_b_text] os [CR; LF] [CR; LF]
             (fs (on_disk [])) Hts ltac:(simpl; lia) eq_refl eq_refl
             ltac:(discriminate) eq_refl).
  reflexivity.
Defined.
Open Scope list_scope.

(** ** What an operation adds to the trace *)

Lemma emits_only_ret P {A} (a : A) : emits_only P (mret a).
Proof. intros w. exists []. rewrite app_nil_r. split; reflexivity. Qed.

Lemma emits_only_raise P {A} e : emits_only P (raise e : M A).
Proof. intros w. exists []. rewrite app_nil_r. split; reflexivity. Qed.

Lemma emits_only_emit (P : event -> bool) e : P e = true -> emits_only P (emit e).
Proof. intros H w. exists [e]. split; [reflexivity|]. cbn. rewrite H. reflexivity. Qed.

Lemma emits_only_get_fs P : emits_only P get_fs.
Proof. intros w. exists []. rewrite app_nil_r. split; reflexivity. Qed.

Lemma emits_only_put_fs P f : emits_only P (put_fs f).
Proof. intros w. exists []. rewrite app_nil_r. split; reflexivity. Qed.

Lemma emits_only_bind P {A B} (m : M A) (f : A -> M B) :
  emits_only P m -> (forall a, emits_only P (f a)) -> emits_only P (m ≫= f).
Proof.
  intros Hm Hf w. rewrite run_bind. destruct (Hm w) as (evs & E & Hevs).
  destruct (m w) as [[a|e] w1]; cbn [snd] in E.
  - destruct (Hf a w1) as (evs' & E' & Hevs'). exists (evs ++ evs').
    rewrite E', E, app_assoc. split; [reflexivity|].
    rewrite forallb_app, Hevs, Hevs'. reflexivity.
  - exists evs. split; assumption.
Qed.

Lemma emits_only_weaken (P Q : event -> bool) {A} (m : M A) :
  (forall e, P e = true -> Q e = true) -> emits_only P m -> emits_only Q m.
Proof.
  intros HPQ Hm w. destruct (Hm w) as (evs & E & Hevs). exists evs.
  split; [exact E|]. rewrite forallb_forall in *. auto.
Qed.

(** One step of the proof that an operation emits only what [P] allows. *)
Ltac emits_step :=
  lazymatch goal with
  | |- emits_only _ (mbind _ _) => apply emits_only_bind; [|intros ?]
  | |- emits_only _ (mret _) => apply emits_only_ret
  | |- emits_only _ (raise _) => apply emits_only_raise
  | |- emits_only _ (emit _) => apply emits_only_emit; reflexivity
  | |- emits_only _ get_fs => apply emits_only_get_fs
  | |- emits_only _ (put_fs _) => apply emits_only_put_fs
  | |- emits_only _ (match ?x with _ => _ end) => destruct x
  end.

Ltac emits := repeat emits_step.

Section Primitives.
Variable P : event -> bool.

Lemma emits_only_mkdir_parents p :
  P (EMkdir p) = true -> emits_only P (mkdir_parents p).
Proof. intros H. unfold mkdir_parents. emits_step; [apply emits_only_emit, H|]. emits. Qed.

Lemma emits_only_write_bytes p data :
  P (EWrite p) = true -> emits_only P (write_bytes p data).
Proof. intros H. unfold write_bytes. emits_step; [apply emits_only_emit, H|]. emits. Qed.

Lemma emits_only_read_bytes p : P (ERead p) = true -> emits_only P (read_bytes p).
Proof. intros H. unfold read_bytes. emits_step; [apply emits_only_emit, H|]. emits. Qed.

Lemma emits_only_exists p : emits_only P (exists_ p).
Proof. unfold exists_. emits. Qed.

Lemma emits_only_requests_get E url :
  P (EGet url) = true -> emits_only P (requests_get_content E url).
Proof.
  intros H. unfold requests_get_content. emits_step; [apply emits_only_emit, H|]. emits.
Qed.

Lemma emits_only_run E command :
  P (ERun command) = true -> emits_only P (run E command).
Proof. intros H. unfold run. emits_step; [apply emits_only_emit, H|]. emits. Qed.

Lemma emits_only_MP4_open p : P (EOpen MP4 p) = true -> emits_only P (MP4_open p).
Proof. intros H. unfold MP4_open. emits_step; [apply emits_only_emit, H|]. emits. Qed.

Lemma emits_only_MP4_setitem obj k v : emits_only P (MP4_setitem obj k v).
Proof. unfold MP4_setitem. emits. Qed.

Lemma emits_only_MP4_tags_setitem obj k v : emits_only P (MP4_tags_setitem obj k v).
Proof. unfold MP4_tags_setitem. emits. Qed.

Lemma emits_only_MP4_save obj p : P (ESave MP4 p) = true -> emits_only P (MP4_save obj p).
Proof. intros H. unfold MP4_save. emits_step; [apply emits_only_emit, H|]. emits. Qed.

Lemma emits_only_OggOpus_open p :
  P (EOpen OggOpus p) = true -> emits_only P (OggOpus_open p).
Proof. intros H. unfold OggOpus_open. emits_step; [apply emits_only_emit, H|]. emits. Qed.

Lemma emits_only_OggOpus_save obj p :
  P (ESave OggOpus p) = true -> emits_only P (OggOpus_save obj p).
Proof. intros H. unfold OggOpus_save. emits_step; [apply emits_only_emit, H|]. emits. Qed.

Lemma emits_only_getitem d k : emits_only P (getitem d k).
Proof. unfold getitem. emits. Qed.
End Primitives.

(** ** The extension of a path and the end of its text *)

Lemma as_posix_suffix p :
  suffix p <> "" -> exists pre, b (as_posix p) = pre ++ b (suffix p).
Proof.
  intros Hs.
  assert (Hp : p <> []) by (intros ->; apply Hs; reflexivity).
  rewrite (app_removelast_last "" Hp).
  destruct (as_posix_child (removelast p) (List.last p "")) as [pre Hpre].
  unfold child in Hpre. rewrite Hpre.
  unfold suffix, name in *. rewrite List.last_last in *.
  set (n := b (List.last p "")) in *.
  destruct (rfind_dot n) as [i|]; [|congruence].
  destruct ((0 <? i)%nat && (i <? length n - 1)%nat); [|congruence].
  exists (pre ++ take i n). unfold b.
  rewrite list_ascii_of_string_of_list_ascii, <- app_assoc, take_drop. reflexivity.
Qed.

Lemma m4a_not_mp3 p :
  lower (suffix p) = ".m4a" -> str_endswith ".mp3" (as_posix p) = false.
Proof.
  intros Hl.
  assert (Hs : suffix p <> "") by (intros Hs; rewrite Hs in Hl; discriminate).
  destruct (as_posix_suffix p Hs) as [pre Hpre].
  unfold str_endswith, endswith. rewrite Hpre, rev_app_distr.
  unfold lower in Hl. apply (f_equal list_ascii_of_string) in Hl.
  rewrite list_ascii_of_string_of_list_ascii in Hl.
  destruct (b (suffix p)) as [|c1 [|c2 [|c3 [|c4 [|c5 l]]]]]; try discriminate.
  cbn [map] in Hl. injection Hl as _ _ _ H4.
  cbn [rev app]. cbn [b list_ascii_of_string rev app startswith].
  destruct (Ascii.eqb_spec "3"%char c4) as [<-|]; [|reflexivity].
  discriminate.
Qed.

(** ** What the script calls *)

Section Emits.
Variable P : event -> bool.
Variable E : env.
Hypothesis P_mkdir : forall p, P (EMkdir p) = true.
Hypothesis P_run : forall c, P (ERun c) = true.
Hypothesis P_pprint : forall c, P (EPprint c) = true.
Hypothesis P_read : forall p, P (ERead p) = true.
Hypothesis P_dictConfig : P EDictConfig = true.
Hypothesis P_print_json : forall v, P (EPrintJson v) = true.

Lemma emits_only_fetch_metadata url : emits_only P (Utilities.fetch_metadata E url).
Proof.
  unfold Utilities.fetch_metadata. cbv zeta.
  emits_step; [apply emits_only_run, P_run|]. emits.
Qed.

Lemma emits_only_download_audio url file_path :
  emits_only P (Utilities.download_audio_with_metadata E url file_path).
Proof.
  unfold Utilities.download_audio_with_metadata. cbv zeta.
  emits_step; [apply emits_only_mkdir_parents, P_mkdir|].
  emits_step; [apply emits_only_emit, P_pprint|].
  emits_step; [apply emits_only_run, P_run|]. emits.
Qed.

Lemma emits_only_download_thumbnail url file_path :
  emits_only P (Utilities.download_thumbnail E url file_path).
Proof.
  unfold Utilities.download_thumbnail. cbv zeta.
  emits_step; [apply emits_only_mkdir_parents, P_mkdir|].
  emits_step; [apply emits_only_run, P_run|]. emits.
Qed.

Lemma emits_only_load_logging_config p :
  emits_only P (Utilities.load_logging_config E p).
Proof.
  unfold Utilities.load_logging_config.
  emits_step; [apply emits_only_read_bytes, P_read|]. emits.
Qed.

Lemma emits_only_logging_setup a : emits_only P (Script.logging_setup E a).
Proof.
  unfold Script.logging_setup, Script.LOGGER_CONFIG, Script.dictConfig.
  apply emits_only_bind.
  - destruct (Script.log_config a); [|apply emits_only_load_logging_config].
    apply emits_only_bind; [apply emits_only_exists|].
    intros found. destruct found; apply emits_only_load_logging_config.
  - intros config.
    destruct (dictConfig_ok E config); [apply emits_only_emit, P_dictConfig|].
    apply emits_only_raise.
Qed.

(** The three ways of [main] that do not write tags. *)
Lemma emits_only_main_other a :
  Script.metadata_only a = true \/ Script.download_thumbnail a = true \/
  Script.set_m4a_metadata a = None ->
  emits_only P (Script.main E a).
Proof.
  intros Hmode. unfold Script.main.
  emits_step; [apply emits_only_logging_setup|].
  destruct (Script.metadata_only a).
  { emits_step; [apply emits_only_fetch_metadata|]. apply emits_only_emit, P_print_json. }
  destruct (Script.download_thumbnail a); [apply emits_only_download_thumbnail|].
  destruct (Script.set_m4a_metadata a) as [p|].
  { destruct Hmode as [?|[?|?]]; discriminate. }
  apply emits_only_download_audio.
Qed.

Hypothesis P_get : forall u, P (EGet u) = true.
Hypothesis P_write : forall p, P (EWrite p) = true.
Hypothesis P_mp4 : forall p, P (EOpen MP4 p) = true /\ P (ESave MP4 p) = true.
Hypothesis P_opus : forall p, P (EOpen OggOpus p) = true /\ P (ESave OggOpus p) = true.
Hypothesis P_print : forall s, P (EPrint s) = true.

Lemma emits_only_set_cover_mp4 cover p :
  str_endswith ".mp3" (as_posix p) = false ->
  emits_only P (Utilities.set_cover E cover (Some p)).
Proof.
  intros Hp. unfold Utilities.set_cover. cbn [default from_option id]. cbv zeta.
  rewrite Hp.
  emits_step; [apply emits_only_mkdir_parents, P_mkdir|].
  destruct cover; try apply emits_only_raise.
  emits_step; [apply emits_only_requests_get, P_get|].
  emits_step; [apply emits_only_write_bytes, P_write|].
  emits_step; [apply emits_only_MP4_open, P_mp4|].
  emits_step; [apply emits_only_read_bytes, P_read|].
  emits_step; [apply emits_only_MP4_tags_setitem|].
  apply emits_only_MP4_save, P_mp4.
Qed.

Lemma emits_only_set_m4a_metadata p md :
  str_endswith ".mp3" (as_posix p) = false ->
  emits_only P (Utilities.set_m4a_metadata E p md).
Proof.
  intros Hp. unfold Utilities.set_m4a_metadata.
  emits_step; [apply emits_only_MP4_open, P_mp4|].
  do 5 (emits_step; [apply emits_only_getitem|];
        emits_step; [apply emits_only_MP4_setitem|]).
  emits_step; [apply emits_only_getitem|].
  emits_step; [apply emits_only_set_cover_mp4, Hp|].
  apply emits_only_MP4_save, P_mp4.
Qed.

Lemma emits_only_set_opus_metadata p md :
  emits_only P (Utilities.set_opus_metadata p md).
Proof.
  unfold Utilities.set_opus_metadata.
  emits_step; [apply emits_only_OggOpus_open, P_opus|].
  do 5 (emits_step; [apply emits_only_getitem|]; cbv zeta).
  apply emits_only_OggOpus_save, P_opus.
Qed.

Lemma emits_only_write_tags p md : emits_only P (Script.write_tags E p md).
Proof.
  unfold Script.write_tags. cbv zeta.
  destruct (String.eqb_spec (lower (suffix p)) ".m4a") as [Hm|_].
  { apply emits_only_set_m4a_metadata, m4a_not_mp3, Hm. }
  destruct (String.eqb (lower (suffix p)) ".opus").
  { apply emits_only_set_opus_metadata. }
  apply emits_only_emit, P_print.
Qed.

Lemma emits_only_main a : emits_only P (Script.main E a).
Proof.
  destruct (Script.set_m4a_metadata a) as [p|] eqn:Hset;
    [|apply emits_only_main_other; auto].
  destruct (Script.metadata_only a) eqn:Hmeta; [apply emits_only_main_other; auto|].
  destruct (Script.download_thumbnail a) eqn:Hth; [apply emits_only_main_other; auto|].
  unfold Script.main. rewrite Hset, Hmeta, Hth.
  emits_step; [apply emits_only_logging_setup|].
  emits_step; [apply emits_only_fetch_metadata|].
  apply emits_only_write_tags.
Qed.
End Emits.

Lemma emits_only_new_events P {A} (m : M A) w :
  emits_only P m -> forallb P (new_events w (final m w)) = true.
Proof.
  intros Hm. destruct (Hm w) as (evs & E & Hevs). unfold new_events, final.
  rewrite E, drop_app_length. exact Hevs.
Qed.

(** X4: whatever its arguments and whatever happens, the script makes no
    call of the MP3 class of the tag library: the dispatch of [main] sends
    only [.m4a] files to [set_cover], and a path with that extension never
    ends with [.mp3], so the MP3 branch of [set_cover] is out of reach of the
    command line. *)
Theorem main_never_uses_mp3 (E : env) (a : Script.args) (w : world) :
  forallb (fun e => negb (is_mp3_event e))
          (new_events w (final (Script.main E a) w)) = true.
Proof.
  apply emits_only_new_events, emits_only_main;
    intros; try split; reflexivity.
Qed.

(** X5: tags are written, and the network is asked for a cover, in one mode
    only.  With [--metadata-only], with [--download-thumbnail], or without
    [--set-m4a-metadata] (the plain download), [main] makes no call of the
    tag library and no HTTP request: the file that was downloaded gets no
    metadata from the script. *)
Theorem main_other_modes_write_no_tags (E : env) (a : Script.args) (w : world) :
  Script.metadata_only a = true \/ Script.download_thumbnail a = true \/
  Script.set_m4a_metadata a = None ->
  forallb (fun e => negb (is_tag_event e || is_network_event e))
          (new_events w (final (Script.main E a) w)) = true.
Proof.
  intros Hmode. apply emits_only_new_events, emits_only_main_other;
    solve [exact Hmode | intros; reflexivity].
Qed.

Lemma main_other_modes_write_no_tags_witness :
  outcome (Script.main (sample_env (exits 0 []) answers) plain_args)
          (on_disk [(config_path, Blob config_text)]) = Ok tt /\
  forallb (fun e => negb (is_tag_event e || is_network_event e))
    (new_events (on_disk [(config_path, Blob config_text)])
       (final (Script.main (sample_env (exits 0 []) answers) plain_args)
          (on_disk [(config_path, Blob config_text)]))) = true.
Proof.
  split; [vm_compute; reflexivity|].
  apply (main_other_modes_write_no_tags (sample_env (exits 0 []) answers) plain_args).
  right; right; reflexivity.
Defined.

(** X6: two options are accepted and not used.  [--no_m4a_metadata] is
    never read, so it changes nothing in any mode; [--output_file_path] is
    read by the plain download only, so in the three other modes, the
    download of the thumbnail included, it changes nothing. *)
Theorem main_ignores_options (E : env) (a : Script.args) (w : world)
    (v : bool) (o : option path) :
  Script.main E (with_no_m4a_metadata v a) w = Script.main E a w /\
  (Script.metadata_only a = true \/ Script.download_thumbnail a = true \/
   Script.set_m4a_metadata a <> None ->
   Script.main E (with_output_file_path o a) w = Script.main E a w).
Proof.
  split; [reflexivity|]. intros Hmode. unfold Script.main.
  change (Script.logging_setup E (with_output_file_path o a))
    with (Script.logging_setup E a).
  cbn [with_output_file_path Script.metadata_only Script.download_thumbnail
       Script.set_m4a_metadata Script.url Script.output_file_path].
  destruct (Script.metadata_only a); [reflexivity|].
  destruct (Script.download_thumbnail a); [reflexivity|].
  destruct (Script.set_m4a_metadata a); [reflexivity|].
  destruct Hmode as [?|[?|?]]; congruence.
Qed.

Lemma main_ignores_options_witness :
  Script.main (sample_env (exits 0 []) answers)
    (with_output_file_path (Some ["music"; OUTPUT_TEMPLATE])
       (with_no_m4a_metadata true
          {| Script.url := video_url; Script.output_file_path := None;
             Script.no_m4a_metadata := false; Script.metadata_only := false;
             Script.download_thumbnail := true; Script.set_m4a_metadata := None;
             Script.log_config := None |}))
    (on_disk [(config_path, Blob config_text)])
  = Script.main (sample_env (exits 0 []) answers)
      {| Script.url := video_url; Script.output_file_path := None;
         Script.no_m4a_metadata := false; Script.metadata_only := false;
         Script.download_thumbnail := true; Script.set_m4a_metadata := None;
         Script.log_config := None |}
      (on_disk [(config_path, Blob config_text)]).
Proof.
  etransitivity.
  - refine (proj2 (main_ignores_options (sample_env (exits 0 []) answers) _ _
                     true (Some ["music"; OUTPUT_TEMPLATE])) _).
    right; left; reflexivity.
  - exact (proj1 (main_ignores_options (sample_env (exits 0 []) answers) _ _
                    true None)).
Defined.

(** X7: the logging configuration comes first.  When [--log-config] is
    absent, or names a path that does not exist, [main] reads the default
    file of the project without a word; when that file is missing it raises
    [OSError], when it is not JSON it raises [ValueError] (not
    [JSONDecodeError]), and in both cases it has done nothing else: no
    downloader was started and nothing was written. *)
Theorem main_needs_logging_config (E : env) (a : Script.args) (w : world) :
  (forall p, Script.log_config a = Some p ->
             is_file (fs w) p || is_dir (fs w) p = false) ->
  (files (fs w) !! Script.default_config_path E = None ->
   Script.main E a w =
     (Raise OSError, record (ERead (Script.default_config_path E)) w)) /\
  (forall text,
     files (fs w) !! Script.default_config_path E = Some (Blob text) ->
     loads text = None ->
     Script.main E a w =
       (Raise ValueError, record (ERead (Script.default_config_path E)) w)).
Proof.
  intros Hlog.
  assert (Hcfg : Script.LOGGER_CONFIG E a w =
                 Utilities.load_logging_config E (Script.default_config_path E) w).
  { unfold Script.LOGGER_CONFIG. destruct (Script.log_config a) as [p|]; [|reflexivity].
    rewrite run_bind. unfold exists_ at 1. run_unfold. cbn [fst snd].
    rewrite (Hlog p eq_refl). reflexivity. }
  split.
  - intros Hnone. unfold Script.main, Script.logging_setup.
    rewrite !run_bind, Hcfg. unfold Utilities.load_logging_config.
    rewrite run_bind. unfold read_bytes. run_unfold. cbn [fs]. rewrite Hnone.
    reflexivity.
  - intros text Hsome Hbad. unfold Script.main, Script.logging_setup.
    rewrite !run_bind, Hcfg. unfold Utilities.load_logging_config.
    rewrite run_bind. unfold read_bytes. run_unfold. cbn [fs]. rewrite Hsome.
    rewrite Hbad. reflexivity.
Qed.

Lemma main_needs_logging_config_witness :
  Script.main (sample_env (exits 0 []) answers)
    (with_log_config (Some ["home"; "user"; "logging.json"]) plain_args)
    (on_disk [(config_path, Blob (b "{version: 1}"))])
  = (Raise ValueError,
     record (ERead config_path) (on_disk [(config_path, Blob (b "{version: 1}"))])).
Proof.
  refine (proj2 (main_needs_logging_config (sample_env (exits 0 []) answers)
                   (with_log_config (Some ["home"; "user"; "logging.json"]) plain_args)
                   (on_disk [(config_path, Blob (b "{version: 1}"))]) _)
            (b "{version: 1}") _ _).
  - intros p [= <-]. vm_compute. reflexivity.
  - vm_compute. reflexivity.
  - vm_compute. reflexivity.
Defined.

Lemma lookup_all_list items keys :
  keys <> [] -> lookup_all (PyList items) keys = Raise TypeError.
Proof. destruct keys; [congruence|reflexivity]. Qed.

(** X8: [--set-m4a-metadata] with the address of a playlist.  The metadata
    of several items come back as a list, the tag writers index them with the
    name of a field, and so [main] raises [TypeError] right after it has
    opened the file, which is left as the downloader left it. *)
Theorem main_set_metadata_playlist (E : env) (a : Script.args) (w w1 : world)
    (p : path) (ts : list bytes) (os : list (list (bytes * json))) (tail : bytes)
    (f' : filesystem) :
  Script.metadata_only a = false -> Script.download_thumbnail a = false ->
  Script.set_m4a_metadata a = Some p ->
  Script.logging_setup E a w = (Ok tt, w1) ->
  Forall2 object_text ts os -> 2 <= length ts -> is_tail tail ->
  let dump := [as_posix (YT_DLP_PATH E); "--dump-json"; Script.url a] in
  subprocess_run E dump (fs w1) = Completed 0 (join [LF] ts ++ tail) f' ->
  let w2 := {| fs := f'; trace := trace w1 ++ [ERun dump] |} in
  (lower (suffix p) = ".m4a" ->
   forall audio tags, files f' !! p = Some (Mp4File audio tags) ->
   Script.main E a w = (Raise TypeError, record (EOpen MP4 p) w2)) /\
  (lower (suffix p) = ".opus" ->
   forall audio comments, files f' !! p = Some (OpusFile audio comments) ->
   Script.main E a w = (Raise TypeError, record (EOpen OggOpus p) w2)).
Proof.
  intros Hmeta Hth Hset Hlog Hts Hlen Htail dump Hrun w2.
  assert (Hfetch : Utilities.fetch_metadata E (Script.url a) w1 =
                   (Ok (to_python (py_str E) (JArr (map JObj os))), w2)).
  { rewrite (fetch_metadata_decoded _ _ _ _ _ Hrun).
    rewrite (decode_stdout_stream _ _ _ Hts Hlen Htail). reflexivity. }
  rewrite (main_write_tags E a p _ w w1 w2 Hmeta Hth Hset Hlog Hfetch).
  unfold Script.write_tags. cbv zeta. split.
  - intros Hext audio tags Hfile. rewrite Hext. cbn [String.eqb Ascii.eqb Bool.eqb].
    rewrite set_m4a_metadata_run. cbv zeta. cbn [fs w2]. rewrite Hfile.
    reflexivity.
  - intros Hext audio comments Hfile. rewrite Hext.
    cbn [String.eqb Ascii.eqb Bool.eqb].
    rewrite set_opus_metadata_run. cbv zeta. cbn [fs w2]. rewrite Hfile.
    reflexivity.
Qed.

Lemma main_set_metadata_playlist_witness :
  outcome
    (Script.main
       (sample_env (exits 0 (song_a_text ++ [LF] ++ song_b_text ++ [LF])) answers)
       {| Script.url := video_url; Script.output_file_path := None;
          Script.no_m4a_metadata := false; Script.metadata_only := false;
          Script.download_thumbnail := false;
          Script.set_m4a_metadata := Some track_m4a; Script.log_config := None |})
    (on_disk [(config_path, Blob config_text);
              (track_m4a, Mp4File (b "audio") (Some ∅))])
  = Raise TypeError.
Proof.
  pose (os := [ [(b "title", JStr (b "Song A")); (b "channel", JStr (b "Artist X"));
                 (b "upload_date", JStr (b "20230115"));
                 (b "webpage_url", JStr (b "https://example.com/v"));
                 (b "description", JStr (b "desc"));
                 (b "thumbnail", JStr (b "https://example.com/cover.jpg"))];
                [(b "title", JStr (b "Song B")); (b "channel", JStr (b "Artist Y"))] ]).
  assert (Hts : Forall2 object_text [song_a_text; song_b_text] os).
  { repeat constructor; try (eexists; reflexivity); vm_compute; reflexivity. }
  set (E := sample_env (exits 0 (song_a_text ++ [LF] ++ song_b_text ++ [LF])) answers).
  set (w := on_disk [(config_path, Blob config_text);
                     (track_m4a, Mp4File (b "audio") (Some ∅))]).
  set (a := {| Script.url := video_url; Script.output_file_path := None;
               Script.no_m4a_metadata := false; Script.metadata_only := false;
               Script.download_thumbnail := false;
               Script.set_m4a_metadata := Some track_m4a;
               Script.log_config := None |}).
  assert (Hlog : Script.logging_setup E a w
                 = (Ok tt, {| fs := fs w; trace := [ERead config_path; EDictConfig] |}))
    by (vm_compute; reflexivity).
  unfold outcome.
  rewrite (proj1 (main_set_metadata_playlist E a w _ track_m4a
                    [song_a_text; song_b_text] os [LF] (fs w)
                    eq_refl eq_refl eq_refl Hlog Hts ltac:(simpl; lia)
                    ltac:(right; reflexivity) eq_refl)
             ltac:(vm_compute; reflexivity) (b "audio") (Some ∅)
             ltac:(vm_compute; reflexivity)).
  reflexivity.
Defined.
(** ** More on [set_cover] *)

Section SetCoverMore.
Variable E : env.

(** What a call of [set_cover] that returns has found and done. *)
Lemma set_cover_ok_inv w w1 cover file_path :
  let p := default (child (cwd E) "cover.jpg") file_path in
  let cover_path := child (cwd E) "cover.jpg" in
  let f1 := made (fs w) (parent p) in
  Utilities.set_cover E cover file_path w = (Ok tt, w1) ->
  exists url status body,
    cover = PyStr url /\ p <> cover_path /\
    existsb (is_file (fs w)) (ancestors (parent p)) = false /\
    requests_get E url = Response status body /\
    is_dir f1 cover_path || negb (is_dir f1 (parent cover_path)) = false /\
    ((str_endswith ".mp3" (as_posix p) = false /\
      exists audio D D',
        files (fs w) !! p = Some (Mp4File audio (Some D)) /\
        render_tags (<["covr" := Value (PyList [PyBytes body])]> (atom_load <$> D))
          = Some D' /\
        w1 = {| fs := written (written f1 cover_path (Blob body)) p
                        (Mp4File audio (Some D'));
                trace := trace w ++ [EMkdir (parent p); EGet url; EWrite cover_path;
                                     EOpen MP4 p; ERead cover_path; ESave MP4 p] |}) \/
     (str_endswith ".mp3" (as_posix p) = true /\
      exists audio T,
        files (fs w) !! p = Some (Mp3File audio (Some T)) /\
        w1 = {| fs := written (written f1 cover_path (Blob body)) p
                        (Mp3File audio
                           (Some (<["APIC:Cover" :=
                                     APIC 3 (if is_jpeg_url url then "image/jpg"
                                             else "image/png") 3 "Cover" body]> T)));
                trace := trace w ++ [EMkdir (parent p); EGet url; EWrite cover_path;
                                     EOpen MP3 p; ERead cover_path; ESave MP3 p] |})).
Proof.
  intros p cover_path f1 Hrun.
  destruct cover as [| | |url| | |];
    try (rewrite set_cover_not_text in Hrun by congruence;
         destruct (existsb _ _); discriminate).
  exists url.
  destruct (str_endswith ".mp3" (as_posix p)) eqn:Hmp3.
  - rewrite (set_cover_mp3_run E w url file_path Hmp3) in Hrun. cbv zeta in Hrun.
    fold p cover_path f1 in Hrun.
    destruct (existsb _ _) eqn:Hmk; [discriminate|].
    destruct (requests_get E url) as [|status body] eqn:Hget; [discriminate|].
    destruct (is_dir f1 cover_path || _) eqn:Hwr; [discriminate|].
    assert (Hne : p <> cover_path).
    { intros Hp. rewrite Hp in Hmp3. unfold cover_path in Hmp3.
      rewrite default_cover_not_mp3 in Hmp3. discriminate. }
    cbn [written files] in Hrun. rewrite lookup_insert_ne in Hrun by congruence.
    change (files f1) with (files (fs w)) in Hrun.
    destruct (files (fs w) !! p) as [[| | audio [T|] |]|] eqn:Hp; try discriminate.
    injection Hrun as <-.
    exists status, body. split_and!; try reflexivity; try assumption.
    right. split; [reflexivity|]. exists audio, T. split; [reflexivity|].
    unfold record, set_fs. cbn [fs trace]. rewrite <- !app_assoc. reflexivity.
  - rewrite (set_cover_mp4_run E w url file_path Hmp3) in Hrun. cbv zeta in Hrun.
    fold p cover_path f1 in Hrun.
    destruct (existsb _ _) eqn:Hmk; [discriminate|].
    destruct (requests_get E url) as [|status body] eqn:Hget; [discriminate|].
    destruct (is_dir f1 cover_path || _) eqn:Hwr; [discriminate|].
    assert (Hne : p <> cover_path).
    { intros Hp. rewrite Hp in Hrun. cbn [written files] in Hrun.
      rewrite lookup_insert_eq in Hrun. discriminate. }
    cbn [written files] in Hrun. rewrite lookup_insert_ne in Hrun by congruence.
    change (files f1) with (files (fs w)) in Hrun.
    destruct (files (fs w) !! p) as [[| audio [D|] | |]|] eqn:Hp; try discriminate.
    destruct (render_tags _) as [D'|] eqn:Hr; [|discriminate].
    injection Hrun as <-.
    exists status, body. split_and!; try reflexivity; try assumption.
    left. split; [reflexivity|]. exists audio, D, D'. split_and!; try reflexivity.
    { exact Hr. }
    unfold record, set_fs. cbn [fs trace]. rewrite <- !app_assoc. reflexivity.
Qed.

(** An atom that is read and written again is the same atom; a text under
    the key of the cover, which the library never writes, is left out. *)
Lemma atom_render_load_eq k a a' :
  (k = "covr" -> exists images, a = Covers images) ->
  atom_render k (atom_load a) = Some a' -> a' = a.
Proof.
  intros Hk. destruct a as [values|images]; unfold atom_render, atom_load.
  - destruct (String.eqb_spec k "covr") as [Hc|_].
    + destruct (Hk Hc) as [images Himg]. discriminate.
    + cbn [render_text]. rewrite mapM_as_str. intros [= <-]. reflexivity.
  - destruct (String.eqb k "covr"); [|discriminate]. intros [= <-]. reflexivity.
Qed.

(** The atoms of the file that the object does not replace are written back
    as they were. *)
Lemma render_tags_keeps (G : gmap string mp4value) (D D' : gmap string atom) k :
  render_tags (G ∪ (atom_load <$> D)) = Some D' -> G !! k = None ->
  (k = "covr" -> forall values, D !! k <> Some (Text values)) ->
  D' !! k = D !! k.
Proof.
  intros Hr Hk Hcovr. rewrite (render_tags_lookup _ _ k Hr).
  rewrite lookup_union_r by exact Hk. rewrite lookup_fmap.
  destruct (D !! k) as [a|] eqn:Ha; [|reflexivity]. cbn.
  destruct (render_tags_inv _ _ Hr) as [Hall _].
  destruct (Hall k (atom_load a)) as [a' Ha'].
  { rewrite lookup_union_r by exact Hk. rewrite lookup_fmap, Ha. reflexivity. }
  rewrite Ha'. f_equal. apply (atom_render_load_eq k); [|exact Ha'].
  intros Hc. destruct a as [values|images]; [|eauto].
  exfalso. exact (Hcovr Hc values eq_refl).
Qed.

(** X9: once the image is fetched, [set_cover] leaves it behind.  Whether
    the call then returns or raises, and whichever branch it takes, the file
    [cover.jpg] of the working directory holds the bytes of the response,
    in the place of what it held before; nothing in the code removes it. *)
Theorem set_cover_leaves_scratch_file (w : world) (url : string)
    (file_path : option path) (status : Z) (body : bytes) :
  let p := default (child (cwd E) "cover.jpg") file_path in
  let cover_path := child (cwd E) "cover.jpg" in
  let f1 := made (fs w) (parent p) in
  existsb (is_file (fs w)) (ancestors (parent p)) = false ->
  requests_get E url = Response status body ->
  is_dir f1 cover_path || negb (is_dir f1 (parent cover_path)) = false ->
  files (fs (final (Utilities.set_cover E (PyStr url) file_path) w)) !! cover_path
  = Some (Blob body).
Proof.
  intros p cover_path f1 Hmk Hget Hwr. unfold final.
  assert (H3 : files (written f1 cover_path (Blob body)) !! cover_path
               = Some (Blob body)) by apply lookup_insert_eq.
  assert (Hover : forall c, p <> cover_path ->
            files (written (written f1 cover_path (Blob body)) p c) !! cover_path
            = Some (Blob body)).
  { intros c Hne. cbn [written files]. rewrite lookup_insert_ne by congruence.
    apply lookup_insert_eq. }
  destruct (str_endswith ".mp3" (as_posix p)) eqn:Hmp3.
  - rewrite (set_cover_mp3_run E w url file_path Hmp3). cbv zeta.
    fold p cover_path f1. rewrite Hmk, Hget, Hwr.
    assert (Hne : p <> cover_path).
    { intros Hp. rewrite Hp in Hmp3. unfold cover_path in Hmp3.
      rewrite default_cover_not_mp3 in Hmp3. discriminate. }
    destruct (files (written f1 cover_path (Blob body)) !! p)
      as [[| | audio [T|] |]|]; cbn [snd fs record set_fs]; auto.
  - rewrite (set_cover_mp4_run E w url file_path Hmp3). cbv zeta.
    fold p cover_path f1. rewrite Hmk, Hget, Hwr.
    destruct (decide (p = cover_path)) as [Hp|Hne].
    + rewrite Hp, H3. cbn [snd fs record set_fs]. exact H3.
    + destruct (files (written f1 cover_path (Blob body)) !! p)
        as [[| audio [D|] | |]|]; try destruct (render_tags _);
        cbn [snd fs record set_fs]; auto.
Qed.
End SetCoverMore.

Lemma set_cover_leaves_scratch_file_witness :
  (outcome (Utilities.set_cover (sample_env (exits 0 []) answers)
              (PyStr "https://example.com/cover.jpg") (Some track_m4a))
           (on_disk [(scratch_jpg, Blob (b "an older image"))])
   = Raise MutagenError) /\
  (files (fs (final (Utilities.set_cover (sample_env (exits 0 []) answers)
                       (PyStr "https://example.com/cover.jpg") (Some track_m4a))
                    (on_disk [(scratch_jpg, Blob (b "an older image"))])))
     !! scratch_jpg
   = Some (Blob cover_bytes)).
Proof.
  split; [vm_compute; reflexivity|].
  apply (set_cover_leaves_scratch_file (sample_env (exits 0 []) answers)
           (on_disk [(scratch_jpg, Blob (b "an older image"))])
           "https://example.com/cover.jpg" (Some track_m4a) 200 cover_bytes);
    vm_compute; reflexivity.
Defined.

(** X10: when the request for the image gets no response, [set_cover]
    raises [ConnectionError] before it has written or opened any file: the
    files of the disk are as before.  The directory of the media file has
    been made by then, so the failure is not free of effects. *)
Theorem set_cover_request_fails (E : env) (w : world) (url : string)
    (file_path : option path) :
  let p := default (child (cwd E) "cover.jpg") file_path in
  let w' := final (Utilities.set_cover E (PyStr url) file_path) w in
  existsb (is_file (fs w)) (ancestors (parent p)) = false ->
  requests_get E url = NoResponse ->
  outcome (Utilities.set_cover E (PyStr url) file_path) w = Raise ConnectionError /\
  files (fs w') = files (fs w) /\
  (forall q, q ∈ ancestors (parent p) -> q ∈ dirs (fs w')) /\
  trace w' = trace w ++ [EMkdir (parent p); EGet url].
Proof.
  intros p w' Hmk Hget. subst w'. unfold outcome, final.
  assert (Hrun : Utilities.set_cover E (PyStr url) file_path w =
                 (Raise ConnectionError,
                  record (EGet url)
                    (set_fs (made (fs w) (parent p)) (record (EMkdir (parent p)) w)))).
  { destruct (str_endswith ".mp3" (as_posix p)) eqn:Hmp3.
    - rewrite (set_cover_mp3_run E w url file_path Hmp3). cbv zeta.
      fold p. rewrite Hmk, Hget. reflexivity.
    - rewrite (set_cover_mp4_run E w url file_path Hmp3). cbv zeta.
      fold p. rewrite Hmk, Hget. reflexivity. }
  rewrite Hrun. cbn [fst snd fs trace record set_fs made files dirs].
  split_and!; try reflexivity.
  - intros q Hq. apply elem_of_union_r, elem_of_list_to_set, Hq.
  - rewrite <- app_assoc. reflexivity.
Qed.

Lemma set_cover_request_fails_witness :
  (outcome (Utilities.set_cover (sample_env (exits 0 []) NoResponse)
              (PyStr "https://example.com/cover.jpg")
              (Some ["music"; "new"; "track.m4a"])) (on_disk [])
   = Raise ConnectionError) /\
  (["music"; "new"] ∈
     dirs (fs (final (Utilities.set_cover (sample_env (exits 0 []) NoResponse)
                        (PyStr "https://example.com/cover.jpg")
                        (Some ["music"; "new"; "track.m4a"])) (on_disk [])))).
Proof.
  destruct (set_cover_request_fails (sample_env (exits 0 []) NoResponse) (on_disk [])
              "https://example.com/cover.jpg" (Some ["music"; "new"; "track.m4a"])
              eq_refl eq_refl) as (H1 & _ & H3 & _).
  split; [exact H1|]. apply H3. vm_compute. apply list_elem_of_In. simpl. auto.
Defined.

(** X11: a call of [set_cover] that returns has changed one thing in the
    media file.  In an MP4 file every atom but [covr] is as before, in an
    MP3 file every frame but the one of hash key [APIC:Cover], so that
    pictures with another description stay; the audio is untouched. *)
Theorem set_cover_keeps_other_tags (E : env) (w w1 : world) (cover : pyobj)
    (p : path) :
  Utilities.set_cover E cover (Some p) w = (Ok tt, w1) ->
  (exists audio D D',
     files (fs w) !! p = Some (Mp4File audio (Some D)) /\
     files (fs w1) !! p = Some (Mp4File audio (Some D')) /\
     forall k, k <> "covr" -> D' !! k = D !! k) \/
  (exists audio T T',
     files (fs w) !! p = Some (Mp3File audio (Some T)) /\
     files (fs w1) !! p = Some (Mp3File audio (Some T')) /\
     forall k, k <> "APIC:Cover" -> T' !! k = T !! k).
Proof.
  intros Hrun. apply set_cover_ok_inv in Hrun. cbn [default from_option id] in Hrun.
  destruct Hrun as (url & status & body & -> & Hne & Hmk & Hget & Hwr & Hcase).
  destruct Hcase as [(Hmp3 & audio & D & D' & Hp & Hr & ->)
                    |(Hmp3 & audio & T & Hp & ->)].
  - left. exists audio, D, D'. split_and!; [exact Hp|apply lookup_insert_eq|].
    intros k Hk. rewrite insert_union_singleton_l in Hr.
    apply (render_tags_keeps _ _ _ k Hr); [|congruence].
    apply lookup_singleton_ne. congruence.
  - right. eexists audio, T, _. split_and!; [exact Hp|apply lookup_insert_eq|].
    intros k Hk. apply lookup_insert_ne. congruence.
Qed.

Lemma set_cover_keeps_other_tags_witness :
  exists T',
    files (fs (final (Utilities.set_cover (sample_env (exits 0 []) answers)
                        (PyStr "https://example.com/cover.png") (Some track_mp3))
                     (on_disk [(track_mp3,
                                Mp3File (b "audio")
                                  (Some {["APIC:Back" :=
                                           APIC 3 "image/png" 4 "Back" (b "back")]}))])))
      !! track_mp3 = Some (Mp3File (b "audio") (Some T')) /\
    T' !! "APIC:Back" = Some (APIC 3 "image/png" 4 "Back" (b "back")).
Proof.
  set (E := sample_env (exits 0 []) answers).
  set (T := {["APIC:Back" := APIC 3 "image/png" 4 "Back" (b "back")]}
            : gmap string frame).
  set (w := on_disk [(track_mp3, Mp3File (b "audio") (Some T))]).
  destruct (Utilities.set_cover E (PyStr "https://example.com/cover.png")
              (Some track_mp3) w) as [r w1] eqn:Hrun.
  assert (Hr : r = Ok tt).
  { apply (f_equal fst) in Hrun. vm_compute in Hrun. congruence. }
  subst r. unfold final. rewrite Hrun. cbn [snd].
  assert (Hfile : files (fs w) !! track_mp3 = Some (Mp3File (b "audio") (Some T)))
    by (vm_compute; reflexivity).
  destruct (set_cover_keeps_other_tags E w w1 _ track_mp3 Hrun)
    as [(audio & D & D' & Hp & _)|(audio & T0 & T' & Hp & Hp1 & Hkeep)].
  - rewrite Hfile in Hp. discriminate.
  - rewrite Hfile in Hp. injection Hp as <- <-.
    exists T'. split; [exact Hp1|].
    rewrite Hkeep by discriminate. vm_compute. reflexivity.
Defined.

(** X12: [set_cover] replaces the cover, it does not add one.  When a call
    has returned, a second call with the same address, answered alike,
    returns too and leaves the disk exactly as the first left it: one cover
    in the [covr] atom of an MP4 file, one [APIC:Cover] frame in an MP3
    file. *)
Theorem set_cover_twice (E : env) (w w1 : world) (cover : pyobj)
    (file_path : option path) :
  Utilities.set_cover E cover file_path w = (Ok tt, w1) ->
  exists w2,
    Utilities.set_cover E cover file_path w1 = (Ok tt, w2) /\ fs w2 = fs w1.
Proof.
  intros Hrun. apply set_cover_ok_inv in Hrun.
  set (p := default (child (cwd E) "cover.jpg") file_path) in *.
  set (cover_path := child (cwd E) "cover.jpg") in *.
  set (f1 := made (fs w) (parent p)) in *.
  destruct Hrun as (url & status & body & -> & Hne & Hmk & Hget & Hwr & Hcase).
  pose proof Hwr as Hwr0.
  apply orb_false_iff in Hwr as [Hwr1 Hwr2].
  assert (Hcd : cover_path ∉ ancestors (parent p)).
  { intros Hin. unfold is_dir in Hwr1. apply orb_false_iff in Hwr1 as [_ Hwr1].
    apply bool_decide_eq_false in Hwr1. apply Hwr1. cbn.
    apply elem_of_union_r, elem_of_list_to_set, Hin. }
  assert (Hagain : forall c ev,
            let wa := {| fs := written (written f1 cover_path (Blob body)) p c;
                         trace := ev |} in
            existsb (is_file (fs wa)) (ancestors (parent p)) = false /\
            dirs (made (fs wa) (parent p)) = dirs f1 /\
            is_dir (made (fs wa) (parent p)) cover_path
              || negb (is_dir (made (fs wa) (parent p)) (parent cover_path)) = false /\
            files (written (made (fs wa) (parent p)) cover_path (Blob body)) !! p
              = Some c /\
            forall c', written (written (made (fs wa) (parent p)) cover_path
                                  (Blob body)) p c'
                       = written (written f1 cover_path (Blob body)) p c').
  { intros c ev wa.
    assert (Hdirs : dirs (made (fs wa) (parent p)) = dirs f1).
    { cbn. apply set_eq. intros q. rewrite !elem_of_union. tauto. }
    split_and!.
    - rewrite <- Hmk. apply existsb_agree. intros q Hq.
      unfold is_file. cbn [fs wa files written f1 made].
      rewrite !lookup_insert_ne; [reflexivity| |].
      + intros ->. exact (Hcd Hq).
      + intros ->. exact (ancestors_parent_ne _ _ Hq eq_refl).
    - exact Hdirs.
    - unfold is_dir in *. rewrite Hdirs, Hwr1, Hwr2. reflexivity.
    - cbn. rewrite lookup_insert_ne by congruence. apply lookup_insert_eq.
    - intros c'. unfold written. cbn [files dirs]. f_equal; [|exact Hdirs].
      cbn [fs wa files made written f1]. apply map_eq. intros k.
      destruct (decide (k = p)) as [->|Hk]; [rewrite !lookup_insert_eq; reflexivity|].
      rewrite !(lookup_insert_ne _ p) by congruence.
      destruct (decide (k = cover_path)) as [->|Hk'];
        [rewrite !lookup_insert_eq; reflexivity|].
      repeat (rewrite lookup_insert_ne by congruence). reflexivity. }
  destruct Hcase as [(Hmp3 & audio & D & D' & Hp & Hr & ->)
                    |(Hmp3 & audio & T & Hp & ->)].
  - destruct (Hagain (Mp4File audio (Some D')) (trace w ++
                [EMkdir (parent p); EGet url; EWrite cover_path; EOpen MP4 p;
                 ERead cover_path; ESave MP4 p]))
      as (Hmk2 & _ & Hwr' & Hp2 & Hsame).
    rewrite (set_cover_mp4_run E _ url file_path Hmp3). cbv zeta.
    fold cover_path. fold p. rewrite Hmk2, Hget, Hwr', Hp2.
    rewrite insert_union_singleton_l in Hr |- *.
    rewrite (render_tags_again _ _ _ Hr).
    eexists. split; [reflexivity|]. cbn [fs set_fs]. apply Hsame.
  - match goal with |- context [Mp3File audio (Some ?T1)] => set (T' := T1) end.
    destruct (Hagain (Mp3File audio (Some T')) (trace w ++
                [EMkdir (parent p); EGet url; EWrite cover_path; EOpen MP3 p;
                 ERead cover_path; ESave MP3 p]))
      as (Hmk2 & _ & Hwr' & Hp2 & Hsame).
    rewrite (set_cover_mp3_run E _ url file_path Hmp3). cbv zeta.
    fold cover_path. fold p. rewrite Hmk2, Hget, Hwr', Hp2.
    eexists. split; [reflexivity|]. cbn [fs set_fs]. rewrite Hsame.
    unfold T'. rewrite insert_insert_eq. reflexivity.
Qed.

Lemma set_cover_twice_witness :
  exists w2,
    Utilities.set_cover (sample_env (exits 0 []) answers)
      (PyStr "https://example.com/cover.png") (Some track_mp3)
      (final (Utilities.set_cover (sample_env (exits 0 []) answers)
                (PyStr "https://example.com/cover.png") (Some track_mp3))
             (on_disk [(track_mp3, Mp3File (b "audio") (Some ∅))]))
    = (Ok tt, w2) /\
    fs w2 = fs (final (Utilities.set_cover (sample_env (exits 0 []) answers)
                         (PyStr "https://example.com/cover.png") (Some track_mp3))
                      (on_disk [(track_mp3, Mp3File (b "audio") (Some ∅))])).
Proof.
  apply (set_cover_twice (sample_env (exits 0 []) answers)
           (on_disk [(track_mp3, Mp3File (b "audio") (Some ∅))])).
  unfold final.
  destruct (Utilities.set_cover _ _ _ _) as [r w1] eqn:Hrun.
  assert (Hr : r = Ok tt).
  { apply (f_equal fst) in Hrun. vm_compute in Hrun. congruence. }
  rewrite Hr. reflexivity.
Defined.

(** X13: a media file that has no tags yet gets none.  [set_cover] reaches
    for the tags of the object it has just opened, and there are none to
    assign to: it raises [TypeError] on an MP4 file and [AttributeError] on
    an MP3 file.  [set_m4a_metadata], whose own object would have been given
    tags by its first assignment, fails with it; the file is left without
    tags in every case. *)
Theorem set_cover_file_without_tags (E : env) (w : world) (url : string) (p : path)
    (status : Z) (body audio : bytes) :
  let cover_path := child (cwd E) "cover.jpg" in
  let f1 := made (fs w) (parent p) in
  p <> cover_path ->
  existsb (is_file (fs w)) (ancestors (parent p)) = false ->
  requests_get E url = Response status body ->
  is_dir f1 cover_path || negb (is_dir f1 (parent cover_path)) = false ->
  (str_endswith ".mp3" (as_posix p) = false ->
   files (fs w) !! p = Some (Mp4File audio None) ->
   (outcome (Utilities.set_cover E (PyStr url) (Some p)) w = Raise TypeError /\
    files (fs (final (Utilities.set_cover E (PyStr url) (Some p)) w)) !! p
      = Some (Mp4File audio None)) /\
   (forall md title channel upload_date webpage_url description,
      lookup_all md m4a_fields
        = Ok [title; channel; upload_date; webpage_url; description; PyStr url] ->
      outcome (Utilities.set_m4a_metadata E p md) w = Raise TypeError /\
      files (fs (final (Utilities.set_m4a_metadata E p md) w)) !! p
        = Some (Mp4File audio None))) /\
  (str_endswith ".mp3" (as_posix p) = true ->
   files (fs w) !! p = Some (Mp3File audio None) ->
   outcome (Utilities.set_cover E (PyStr url) (Some p)) w = Raise AttributeError /\
   files (fs (final (Utilities.set_cover E (PyStr url) (Some p)) w)) !! p
     = Some (Mp3File audio None)).
Proof.
  intros cover_path f1 Hne Hmk Hget Hwr. split.
  - intros Hmp3 Hp.
    assert (Hrun : forall w0, fs w0 = fs w ->
              exists w', Utilities.set_cover E (PyStr url) (Some p) w0
                         = (Raise TypeError, w') /\
                         files (fs w') !! p = Some (Mp4File audio None)).
    { intros w0 Hw0. rewrite (set_cover_mp4_run E w0 url (Some p) Hmp3).
      cbn [default from_option id]. cbv zeta. rewrite Hw0.
      fold cover_path f1. rewrite Hmk, Hget, Hwr.
      cbn [written files]. rewrite lookup_insert_ne by congruence.
      change (files f1) with (files (fs w)). rewrite Hp.
      eexists. split; [reflexivity|].
      cbn [fs record set_fs written files]. rewrite lookup_insert_ne by congruence.
      exact Hp. }
    split.
    + destruct (Hrun w eq_refl) as (w' & Hw' & Hfile). unfold outcome, final.
      rewrite Hw'. split; [reflexivity|exact Hfile].
    + intros md title channel upload_date webpage_url description Hmd.
      unfold outcome, final. rewrite set_m4a_metadata_run. cbv zeta.
      rewrite Hp. unfold m4a_read.
      rewrite (read_fields_lookup_all _ opus_fields ["thumbnail"] _ Hmd).
      destruct (forallb _ _); [|split; [reflexivity|exact Hp]].
      destruct (Hrun (record (EOpen MP4 p) w) eq_refl) as (w' & Hw' & Hfile).
      rewrite Hw'. split; [reflexivity|exact Hfile].
  - intros Hmp3 Hp. unfold outcome, final.
    rewrite (set_cover_mp3_run E w url (Some p) Hmp3).
    cbn [default from_option id]. cbv zeta.
    fold cover_path f1. rewrite Hmk, Hget, Hwr.
    cbn [written files]. rewrite lookup_insert_ne by congruence.
    change (files f1) with (files (fs w)). rewrite Hp.
    split; [reflexivity|].
    cbn [snd fs record set_fs written files]. rewrite lookup_insert_ne by congruence.
    exact Hp.
Qed.

Lemma set_cover_file_without_tags_witness :
  (outcome (Utilities.set_m4a_metadata (sample_env (exits 0 []) answers)
              track_m4a song_a)
           (on_disk [(track_m4a, Mp4File (b "audio") None)])
   = Raise TypeError) /\
  (files (fs (final (Utilities.set_m4a_metadata (sample_env (exits 0 []) answers)
                       track_m4a song_a)
                    (on_disk [(track_m4a, Mp4File (b "audio") None)])))
     !! track_m4a
   = Some (Mp4File (b "audio") None)).
Proof.
  refine (proj2 (proj1 (set_cover_file_without_tags (sample_env (exits 0 []) answers)
                          (on_disk [(track_m4a, Mp4File (b "audio") None)])
                          "https://example.com/cover.jpg" track_m4a 200 cover_bytes
                          (b "audio") _ _ _ _) _ _)
            song_a _ _ _ _ _ _);
    try (vm_compute; reflexivity).
  vm_compute. discriminate.
Defined.
(** ** What the tag writers change *)

Lemma m4a_texts_lookup title channel upload_date webpage_url description :
  let G := m4a_texts title channel upload_date webpage_url description in
  G !! KEY_nam = Some (Value title) /\ G !! KEY_ART = Some (Value channel) /\
  G !! KEY_day = Some (Value upload_date) /\ G !! KEY_cmt = Some (Value webpage_url) /\
  G !! "desc" = Some (Value description) /\
  forall k, k ∉ m4a_text_keys -> G !! k = None.
Proof.
  unfold m4a_texts. split_and!.
  - repeat (rewrite lookup_insert_ne by discriminate). apply lookup_insert_eq.
  - repeat (rewrite lookup_insert_ne by discriminate). apply lookup_insert_eq.
  - repeat (rewrite lookup_insert_ne by discriminate). apply lookup_insert_eq.
  - repeat (rewrite lookup_insert_ne by discriminate). apply lookup_insert_eq.
  - apply lookup_insert_eq.
  - intros k Hk. unfold m4a_text_keys in Hk.
    repeat (apply not_elem_of_cons in Hk as [? Hk]).
    repeat (rewrite lookup_insert_ne by congruence). apply lookup_empty.
Qed.

(** X14: what a call of [set_m4a_metadata] that returns has changed in the
    file.  The five text atoms hold the five fields of the metadata; every
    other atom is as it was before the call, and that includes the cover:
    the one written by [set_cover] in between is gone, the cover that the
    file had, or its absence, is back.  The audio is untouched. *)
Theorem set_m4a_metadata_changes_texts_only (E : env) (w w1 : world) (p : path)
    (md : pyobj) :
  Utilities.set_m4a_metadata E p md w = (Ok tt, w1) ->
  exists audio D D' title channel upload_date webpage_url description thumbnail,
    files (fs w) !! p = Some (Mp4File audio (Some D)) /\
    lookup_all md m4a_fields
      = Ok [title; channel; upload_date; webpage_url; description; thumbnail] /\
    files (fs w1) !! p = Some (Mp4File audio (Some D')) /\
    D' !! KEY_nam = Text <$> render_text title /\
    D' !! KEY_ART = Text <$> render_text channel /\
    D' !! KEY_day = Text <$> render_text upload_date /\
    D' !! KEY_cmt = Text <$> render_text webpage_url /\
    D' !! "desc" = Text <$> render_text description /\
    (forall k, k ∉ m4a_text_keys -> k <> "covr" -> D' !! k = D !! k) /\
    (forall images, D !! "covr" = Some (Covers images) ->
                    D' !! "covr" = Some (Covers images)) /\
    (D !! "covr" = None -> D' !! "covr" = None).
Proof.
  rewrite set_m4a_metadata_run. cbv zeta.
  destruct (files (fs w) !! p) as [[| audio tags0 | |]|] eqn:Hp; try discriminate.
  destruct (m4a_read md) as [vs|] eqn:Hvs; [|discriminate].
  apply m4a_read_lookup_all in Hvs. rewrite Hvs.
  destruct vs as [|title [|channel [|upload_date [|webpage_url [|description
                 [|thumbnail [|? ?]]]]]]]; try discriminate.
  destruct (Utilities.set_cover E _ _ (record _ w)) as [[[]|e] wb] eqn:Hc;
    [|discriminate].
  apply set_cover_ok_inv in Hc. cbn [default from_option id] in Hc.
  destruct Hc as (url & status & body & -> & Hne & Hmk & Hget & Hwr & Hcase).
  change (fs (record (EOpen MP4 p) w)) with (fs w) in Hcase.
  destruct Hcase as [(Hmp3 & audio' & D & Dc & Hp' & Hr & ->)
                    |(Hmp3 & audio' & T & Hp' & _)];
    [|rewrite Hp in Hp'; discriminate].
  rewrite Hp in Hp'.
  assert (audio' = audio /\ tags0 = Some D) as [-> ->] by (split; congruence).
  clear Hp'.
  rewrite MP4_save_run. cbv zeta. cbn [tags_load option_map].
  rewrite m4a_assigned_union.
  cbn [fs written files]. rewrite lookup_insert_eq.
  destruct (render_tags (_ ∪ _)) as [D2|] eqn:Hr2; [|discriminate].
  intros [= <-]. cbn [fs set_fs written files].
  destruct (m4a_texts_lookup title channel upload_date webpage_url description) as (H1 & H2 & H3 & H4 & H5 & Hother).
  cbv zeta in *.
  assert (Htext : forall k v, k <> "covr" ->
            m4a_texts title channel upload_date webpage_url description !! k
              = Some (Value v) ->
            D2 !! k = Text <$> render_text v).
  { intros k v Hk Hv. rewrite (render_tags_lookup _ _ k Hr2).
    rewrite (lookup_union_Some_l _ _ _ _ Hv). cbn. unfold atom_render.
    destruct (String.eqb_spec k "covr"); [contradiction|reflexivity]. }
  exists audio, D, D2, title, channel, upload_date, webpage_url, description,
    (PyStr url).
  split_and!; try reflexivity.
  - apply lookup_insert_eq.
  - apply (Htext KEY_nam _ ltac:(discriminate) H1).
  - apply (Htext KEY_ART _ ltac:(discriminate) H2).
  - apply (Htext KEY_day _ ltac:(discriminate) H3).
  - apply (Htext KEY_cmt _ ltac:(discriminate) H4).
  - apply (Htext "desc" _ ltac:(discriminate) H5).
  - intros k Hk Hcovr. apply (render_tags_keeps _ _ _ k Hr2 (Hother k Hk)).
    congruence.
  - intros images Hi. rewrite <- Hi.
    apply (render_tags_keeps _ _ _ "covr" Hr2).
    + apply Hother. intros H. repeat (apply elem_of_cons in H as [H|H]; [discriminate|]).
      inversion H.
    + intros _ values. rewrite Hi. discriminate.
  - intros Hn. rewrite <- Hn.
    apply (render_tags_keeps _ _ _ "covr" Hr2).
    + apply Hother. intros H.
      repeat (apply elem_of_cons in H as [H|H]; [discriminate|]).
      inversion H.
    + intros _ values. rewrite Hn. discriminate.
Qed.

Lemma set_m4a_metadata_changes_texts_only_witness :
  exists D',
    files (fs (final (Utilities.set_m4a_metadata (sample_env (exits 0 []) answers)
                        track_m4a song_a)
                     (on_disk [(track_m4a,
                                Mp4File (b "audio")
                                  (Some {["covr" :=
                                           Covers [(FORMAT_PNG, b "old image")]]}))])))
      !! track_m4a = Some (Mp4File (b "audio") (Some D')) /\
    D' !! "covr" = Some (Covers [(FORMAT_PNG, b "old image")]).
Proof.
  set (E := sample_env (exits 0 []) answers).
  set (D0 := {["covr" := Covers [(FORMAT_PNG, b "old image")]]} : gmap string atom).
  set (w := on_disk [(track_m4a, Mp4File (b "audio") (Some D0))]).
  destruct (Utilities.set_m4a_metadata E track_m4a song_a w) as [r w1] eqn:Hrun.
  assert (Hr : r = Ok tt).
  { apply (f_equal fst) in Hrun. vm_compute in Hrun. congruence. }
  subst r. unfold final. rewrite Hrun. cbn [snd].
  destruct (set_m4a_metadata_changes_texts_only E w w1 track_m4a song_a Hrun)
    as (audio & D & D' & t & c & u & wu & d & th & Hp & _ & Hp1 & _ & _ & _ & _ & _
        & _ & Hcover & _).
  assert (Hfile : files (fs w) !! track_m4a = Some (Mp4File (b "audio") (Some D0)))
    by (vm_compute; reflexivity).
  rewrite Hfile in Hp.
  assert (audio = b "audio" /\ D = D0) as [-> ->] by (split; congruence).
  exists D'. split; [exact Hp1|]. apply Hcover. vm_compute. reflexivity.
Defined.

(** The five assignments of [set_opus_metadata], for fields that are
    texts: the comments with one of the five keys go, the others stay in
    their order, and the five new comments come last. *)
Lemma opus_assigned_texts (obj : opusobj) title channel upload_date webpage_url
    description :
  opus_assigned obj (PyStr title) (PyStr channel) (PyStr upload_date)
    (PyStr webpage_url) (PyStr description)
  = filter (fun kv => negb (is_opus_key (fst kv))) obj
    ++ [("TITLE", PyStr title); ("ARTIST", PyStr channel);
        ("DATE", PyStr upload_date); ("COMMENT", PyStr webpage_url);
        ("DESCRIPTION", PyStr description)].
Proof.
  unfold opus_assigned. rewrite !OggOpus_setitem_app.
  repeat (progress (rewrite ?filter_app, ?filter_new_comments; eval_same_key;
                    cbv iota; rewrite ?filter_nil)).
  rewrite ?app_nil_r, <- ?app_assoc. cbn [app values_of map]. f_equal.
  rewrite !list_filter_filter. apply list_filter_iff. intros [k v]. cbn [fst].
  unfold is_opus_key, opus_keys. cbn [existsb].
  destruct (same_key "TITLE" k), (same_key "ARTIST" k), (same_key "DATE" k),
    (same_key "COMMENT" k), (same_key "DESCRIPTION" k); cbn; tauto.
Qed.

Lemma comments_rendered (comments : list (string * string)) :
  mapM (fun kv : string * pyobj => (fun s => (fst kv, s)) <$> as_str (snd kv))
       (map (fun kv : string * string => (fst kv, PyStr (snd kv))) comments)
  = Some comments.
Proof.
  induction comments as [|[k v] comments IH]; [reflexivity|].
  cbn [map mapM fst snd as_str fmap option_fmap option_map mbind option_bind].
  rewrite IH. reflexivity.
Qed.

(** [set_opus_metadata] for metadata whose five fields are texts. *)
Lemma set_opus_metadata_texts_run (w : world) (p : path) (md : pyobj)
    (audio : bytes) (comments : list (string * string))
    (title channel upload_date webpage_url description : string) :
  files (fs w) !! p = Some (OpusFile audio comments) ->
  lookup_all md opus_fields
    = Ok [PyStr title; PyStr channel; PyStr upload_date; PyStr webpage_url;
          PyStr description] ->
  Utilities.set_opus_metadata p md w =
    (Ok tt,
     {| fs := written (fs w) p
                (OpusFile audio
                   (filter (fun kv => negb (is_opus_key (fst kv))) comments
                    ++ [("TITLE", title); ("ARTIST", channel); ("DATE", upload_date);
                        ("COMMENT", webpage_url); ("DESCRIPTION", description)]));
        trace := trace w ++ [EOpen OggOpus p; ESave OggOpus p] |}).
Proof.
  intros Hp Hmd. rewrite set_opus_metadata_run. cbv zeta. rewrite Hp, Hmd.
  rewrite OggOpus_save_run. cbv zeta. cbn [fs record]. rewrite Hp.
  rewrite opus_assigned_texts.
  set (kept := filter (fun kv : string * string => negb (is_opus_key (fst kv)))
                 comments).
  assert (Hkept : filter (fun kv : string * pyobj => negb (is_opus_key (fst kv)))
                    (map (fun kv : string * string => (fst kv, PyStr (snd kv)))
                       comments)
                  = map (fun kv : string * string => (fst kv, PyStr (snd kv))) kept).
  { subst kept. clear. induction comments as [|[k v] comments IH]; [reflexivity|].
    cbn [map]. rewrite !filter_cons. cbn [fst snd].
    destruct (decide _); cbn [map fst snd]; rewrite IH; reflexivity. }
  rewrite Hkept.
  change [("TITLE", PyStr title); ("ARTIST", PyStr channel);
          ("DATE", PyStr upload_date); ("COMMENT", PyStr webpage_url);
          ("DESCRIPTION", PyStr description)]
    with (map (fun kv : string * string => (fst kv, PyStr (snd kv)))
            [("TITLE", title); ("ARTIST", channel); ("DATE", upload_date);
             ("COMMENT", webpage_url); ("DESCRIPTION", description)]).
  rewrite <- map_app, comments_rendered.
  unfold record, set_fs. cbn [fs trace]. rewrite <- app_assoc. reflexivity.
Qed.

(** X15: what [set_opus_metadata] writes, for metadata whose five fields
    are texts.  The comments of the file whose key is, whatever the case of
    its letters, one of [TITLE], [ARTIST], [DATE], [COMMENT] and
    [DESCRIPTION] are dropped; the others are kept in their order; the five
    new comments follow, in the order of the source, the date in full.
    Nothing else happens: no request, no scratch file, no other file
    touched, no directory made. *)
Theorem set_opus_metadata_comments (w : world) (p : path) (md : pyobj)
    (audio : bytes) (comments : list (string * string))
    (title channel upload_date webpage_url description : string) :
  files (fs w) !! p = Some (OpusFile audio comments) ->
  lookup_all md opus_fields
    = Ok [PyStr title; PyStr channel; PyStr upload_date; PyStr webpage_url;
          PyStr description] ->
  let w' := final (Utilities.set_opus_metadata p md) w in
  outcome (Utilities.set_opus_metadata p md) w = Ok tt /\
  files (fs w') !! p =
    Some (OpusFile audio
            (filter (fun kv => negb (is_opus_key (fst kv))) comments
             ++ [("TITLE", title); ("ARTIST", channel); ("DATE", upload_date);
                 ("COMMENT", webpage_url); ("DESCRIPTION", description)])) /\
  (forall q, q <> p -> files (fs w') !! q = files (fs w) !! q) /\
  dirs (fs w') = dirs (fs w) /\
  trace w' = trace w ++ [EOpen OggOpus p; ESave OggOpus p].
Proof.
  intros Hp Hmd w'. subst w'. unfold outcome, final.
  rewrite (set_opus_metadata_texts_run w p md audio comments title channel
             upload_date webpage_url description Hp Hmd).
  cbn [fst snd fs trace written files dirs]. split_and!; try reflexivity.
  - apply lookup_insert_eq.
  - intros q Hq. apply lookup_insert_ne. congruence.
Qed.

Lemma set_opus_metadata_comments_witness :
  files (fs (final (Utilities.set_opus_metadata track_opus song_a)
                   (on_disk [(track_opus,
                              OpusFile (b "audio")
                                [("title", "Old title"); ("ENCODER", "Lavf");
                                 ("Date", "2001")])])))
    !! track_opus
  = Some (OpusFile (b "audio")
            [("ENCODER", "Lavf"); ("TITLE", "Song A"); ("ARTIST", "Artist X");
             ("DATE", "20230115"); ("COMMENT", "https://example.com/v");
             ("DESCRIPTION", "desc")]).
Proof.
  destruct (set_opus_metadata_comments
              (on_disk [(track_opus,
                         OpusFile (b "audio")
                           [("title", "Old title"); ("ENCODER", "Lavf");
                            ("Date", "2001")])])
              track_opus song_a (b "audio")
              [("title", "Old title"); ("ENCODER", "Lavf"); ("Date", "2001")]
              "Song A" "Artist X" "20230115" "https://example.com/v" "desc"
              ltac:(vm_compute; reflexivity) ltac:(vm_compute; reflexivity))
    as (_ & Hfile & _).
  rewrite Hfile. vm_compute. reflexivity.
Defined.
(** ** The output directory that cannot be made *)

(** X16: when a file stands where the directory of the output, or one of
    the directories above it, should be, [download_audio_with_metadata] and
    [download_thumbnail] raise [OSError] from the making of the directory:
    the downloader is not started, nothing is printed and the disk is as
    before. *)
Theorem download_without_directory (E : env) (w : world) (url : string)
    (file_path : option path) :
  let p := default (child (cwd E) OUTPUT_TEMPLATE) file_path in
  existsb (is_file (fs w)) (ancestors (parent p)) = true ->
  Utilities.download_audio_with_metadata E url file_path w =
    (Raise OSError, {| fs := fs w; trace := trace w ++ [EMkdir (parent p)] |}) /\
  Utilities.download_thumbnail E url file_path w =
    (Raise OSError, {| fs := fs w; trace := trace w ++ [EMkdir (parent p)] |}).
Proof.
  intros p Hfile. split.
  - unfold Utilities.download_audio_with_metadata. fold p.
    rewrite run_bind. unfold mkdir_parents at 1. run_unfold. cbn [fst snd fs].
    rewrite Hfile. reflexivity.
  - unfold Utilities.download_thumbnail. fold p.
    rewrite run_bind. unfold mkdir_parents at 1. run_unfold. cbn [fst snd fs].
    rewrite Hfile. reflexivity.
Qed.

Lemma download_without_directory_witness :
  Utilities.download_thumbnail (sample_env (exits 0 []) answers) video_url
    (Some ["home"; "user"; "notes.txt"; OUTPUT_TEMPLATE])
    (on_disk [(["home"; "user"; "notes.txt"], Blob (b "to do"))])
  = (Raise OSError,
     {| fs := fs (on_disk [(["home"; "user"; "notes.txt"], Blob (b "to do"))]);
        trace := [EMkdir ["home"; "user"; "notes.txt"]] |}).
Proof.
  apply (download_without_directory (sample_env (exits 0 []) answers)
           (on_disk [(["home"; "user"; "notes.txt"], Blob (b "to do"))]) video_url
           (Some ["home"; "user"; "notes.txt"; OUTPUT_TEMPLATE])).
  vm_compute. reflexivity.
Defined.

(** ** The working directory *)

(** X17: [change_dir] gives the working directory back.  When the
    destination is a directory, the body runs with it as working directory;
    when the body ends, by returning or by raising, and the directory the
    process was in is still there, the process is in it again, whatever
    directories the body itself went to, and the result or the exception of
    the body is that of the whole.  When the destination is no directory, the
    body does not run and [OSError] is raised; when the directory the
    process was in is gone at the end of the body, [OSError] is raised in
    the place of whatever the body returned or raised. *)
Theorem change_dir_restores {A} (destination : path) (body : ChangeDir.P A)
    (s : ChangeDir.process) :
  is_dir (ChangeDir.disk s) (ChangeDir.getcwd s) = true ->
  let entered := {| ChangeDir.getcwd := destination;
                    ChangeDir.disk := ChangeDir.disk s |} in
  (is_dir (ChangeDir.disk s) destination = false ->
   ChangeDir.change_dir destination body s = (Raise OSError, s)) /\
  (is_dir (ChangeDir.disk s) destination = true ->
   is_dir (ChangeDir.disk (snd (body entered))) (ChangeDir.getcwd s) = true ->
   ChangeDir.change_dir destination body s =
     (fst (body entered),
      {| ChangeDir.getcwd := ChangeDir.getcwd s;
         ChangeDir.disk := ChangeDir.disk (snd (body entered)) |})) /\
  (is_dir (ChangeDir.disk s) destination = true ->
   is_dir (ChangeDir.disk (snd (body entered))) (ChangeDir.getcwd s) = false ->
   ChangeDir.change_dir destination body s = (Raise OSError, snd (body entered))).
Proof.
  intros Hcwd entered. unfold ChangeDir.change_dir, ChangeDir.os_getcwd.
  rewrite Hcwd. unfold ChangeDir.os_chdir. split_and!.
  - intros Hd. rewrite Hd. reflexivity.
  - intros Hd Hback. rewrite Hd. fold entered.
    destruct (body entered) as [r s2]. cbn [fst snd] in *. rewrite Hback.
    reflexivity.
  - intros Hd Hgone. rewrite Hd. fold entered.
    destruct (body entered) as [r s2]. cbn [fst snd] in *. rewrite Hgone.
    reflexivity.
Qed.

Lemma change_dir_restores_witness :
  ChangeDir.change_dir ["opt"; "youtube_music_metadata"]
    (fun s => (Raise (Exception "poetry"),
               {| ChangeDir.getcwd := ["tmp"]; ChangeDir.disk := ChangeDir.disk s |}))
    {| ChangeDir.getcwd := home;
       ChangeDir.disk := {| files := ∅;
                            dirs := list_to_set (ancestors home) ∪
                                    list_to_set
                                      (ancestors ["opt"; "youtube_music_metadata"]) |} |}
  = (Raise (Exception "poetry") : result unit,
     {| ChangeDir.getcwd := home;
        ChangeDir.disk := {| files := ∅;
                             dirs := list_to_set (ancestors home) ∪
                                     list_to_set
                                       (ancestors ["opt"; "youtube_music_metadata"]) |} |}).
Proof.
  refine (proj1 (proj2 (change_dir_restores ["opt"; "youtube_music_metadata"] _ _ _))
            _ _);
    vm_compute; reflexivity.
Defined.
(** ** The earlier script and [utilities.py] *)

Lemma fs_only_ret {A} (a : A) : fs_only (mret a).
Proof. intros w1 w2 H. split; [reflexivity|exact H]. Qed.

Lemma fs_only_raise {A} e : fs_only (raise e : M A).
Proof. intros w1 w2 H. split; [reflexivity|exact H]. Qed.

Lemma fs_only_emit e : fs_only (emit e).
Proof. intros w1 w2 H. split; [reflexivity|exact H]. Qed.

Lemma fs_only_get_fs : fs_only get_fs.
Proof. intros w1 w2 H. cbn. rewrite H. split; reflexivity. Qed.

Lemma fs_only_put_fs f : fs_only (put_fs f).
Proof. intros w1 w2 H. split; reflexivity. Qed.

Lemma fs_only_bind {A B} (m : M A) (f : A -> M B) :
  fs_only m -> (forall a, fs_only (f a)) -> fs_only (m ≫= f).
Proof.
  intros Hm Hf w1 w2 H. rewrite !run_bind. destruct (Hm w1 w2 H) as [Hr Hfs].
  destruct (m w1) as [[a|e] w1'], (m w2) as [[a'|e'] w2']; cbn [fst snd] in *;
    try discriminate.
  - injection Hr as <-. exact (Hf a w1' w2' Hfs).
  - cbn [fst snd]. injection Hr as <-. split; [reflexivity|assumption].
Qed.

Ltac fs_only_step :=
  lazymatch goal with
  | |- fs_only (mbind _ _) => apply fs_only_bind; [|intros ?]
  | |- fs_only (mret _) => apply fs_only_ret
  | |- fs_only (raise _) => apply fs_only_raise
  | |- fs_only (emit _) => apply fs_only_emit
  | |- fs_only get_fs => apply fs_only_get_fs
  | |- fs_only (put_fs _) => apply fs_only_put_fs
  | |- fs_only (match ?x with _ => _ end) => destruct x
  end.

Lemma fs_only_legacy_set_cover (E : env) p cover : fs_only (Legacy.set_cover E p cover).
Proof.
  unfold Legacy.set_cover, requests_get_content, write_bytes, read_bytes, MP3_open,
    MP4_open, MP3_tags_add, MP4_tags_setitem, MP3_save, MP4_save.
  cbv zeta. repeat fs_only_step.
Qed.

Lemma fs_only_MP4_save obj p : fs_only (MP4_save obj p).
Proof. unfold MP4_save. repeat fs_only_step. Qed.

Lemma mkdir_parents_run p w :
  mkdir_parents p w =
    if existsb (is_file (fs w)) (ancestors p)
    then (Raise OSError, record (EMkdir p) w)
    else (Ok tt, set_fs (made (fs w) p) (record (EMkdir p) w)).
Proof.
  unfold mkdir_parents, mbind, M_bind, emit, get_fs, put_fs, raise. cbn [fs record].
  destruct (existsb _ _); reflexivity.
Qed.

(** Making directories that are there changes nothing. *)
Lemma made_existing (f : filesystem) (p : path) :
  (forall q, q ∈ ancestors p -> q ∈ dirs f) -> made f p = f.
Proof.
  intros H. destruct f as [fl ds]. unfold made. cbn [files dirs] in *. f_equal.
  apply set_eq. intros q. rewrite elem_of_union, elem_of_list_to_set.
  split; [intros [?|?]; auto|auto].
Qed.

Lemma legacy_set_m4a_metadata_run (E : env) file_path file_metadata w :
  let wa := record (EOpen MP4 file_path) w in
  Legacy.set_m4a_metadata E file_path file_metadata w =
    match files (fs w) !! file_path with
    | Some (Mp4File _ tags0) =>
        match m4a_read file_metadata with
        | Ok [title; channel; upload_date; webpage_url; description; thumbnail] =>
            match Legacy.set_cover E file_path thumbnail wa with
            | (Ok _, wb) =>
                MP4_save (m4a_assigned (tags_load tags0) title channel upload_date
                            webpage_url description) file_path wb
            | (Raise e, wb) => (Raise e, wb)
            end
        | Ok _ => (Raise TypeError, wa)
        | Raise e => (Raise e, wa)
        end
    | _ => (Raise MutagenError, wa)
    end.
Proof.
  intros wa. unfold Legacy.set_m4a_metadata.
  rewrite run_bind. unfold MP4_open at 1. run_unfold. cbn -[Legacy.set_cover].
  destruct (files (fs w) !! file_path) as [[| audio tags0 | |]|]; try reflexivity.
  cbn -[Legacy.set_cover MP4_setitem].
  destruct file_metadata; try reflexivity.
  unfold m4a_read. cbn -[Legacy.set_cover MP4_setitem render_text].
  repeat (match goal with
          | |- context [dict_get items ?k] => destruct (dict_get items k)
          | |- context [MP4_setitem ?o ?k ?v ?w] =>
              rewrite (MP4_setitem_text o k v w eq_refl);
              destruct (render_text v)
          end; cbn -[Legacy.set_cover MP4_setitem render_text]; try reflexivity).
Qed.

Section Agree.
Variable E : env.
Variable w : world.
Variable p : path.
Hypothesis Hdirs : forall q, q ∈ ancestors (parent p) -> q ∈ dirs (fs w).
Hypothesis Hfiles : existsb (is_file (fs w)) (ancestors (parent p)) = false.

Lemma set_cover_agree cover w0 :
  fs w0 = fs w ->
  fst (Legacy.set_cover E p cover w0) = fst (Utilities.set_cover E cover (Some p) w0) /\
  fs (snd (Legacy.set_cover E p cover w0))
  = fs (snd (Utilities.set_cover E cover (Some p) w0)).
Proof.
  intros Hw0.
  change (Utilities.set_cover E cover (Some p))
    with (mkdir_parents (parent p) ≫= fun _ => Legacy.set_cover E p cover).
  rewrite run_bind, mkdir_parents_run, Hw0, Hfiles.
  rewrite (made_existing _ _ Hdirs).
  apply fs_only_legacy_set_cover. cbn [fs set_fs]. exact Hw0.
Qed.
End Agree.

(** X18: the earlier script writes tags as [utilities.py] does, the making
    of the directory apart.  When the directory of the media file exists,
    [set_cover] and [set_m4a_metadata] of [__main__.py] return or raise as
    those of [utilities.py] and leave the same disk; so the cover that
    [set_m4a_metadata] loses is lost by both. *)
Theorem legacy_tag_writers_agree (E : env) (w : world) (p : path) (md cover : pyobj) :
  (forall q, q ∈ ancestors (parent p) -> q ∈ dirs (fs w)) ->
  existsb (is_file (fs w)) (ancestors (parent p)) = false ->
  (outcome (Legacy.set_cover E p cover) w
   = outcome (Utilities.set_cover E cover (Some p)) w /\
   fs (final (Legacy.set_cover E p cover) w)
   = fs (final (Utilities.set_cover E cover (Some p)) w)) /\
  (outcome (Legacy.set_m4a_metadata E p md) w
   = outcome (Utilities.set_m4a_metadata E p md) w /\
   fs (final (Legacy.set_m4a_metadata E p md) w)
   = fs (final (Utilities.set_m4a_metadata E p md) w)).
Proof.
  intros Hdirs Hfiles. unfold outcome, final. split.
  - exact (set_cover_agree E w p Hdirs Hfiles cover w eq_refl).
  - rewrite legacy_set_m4a_metadata_run, set_m4a_metadata_run. cbv zeta.
    destruct (files (fs w) !! p) as [[| audio tags0 | |]|]; try (split; reflexivity).
    destruct (m4a_read md) as [vs|]; [|split; reflexivity].
    destruct vs as [|title [|channel [|upload_date [|webpage_url [|description
                   [|thumbnail [|? ?]]]]]]]; try (split; reflexivity).
    destruct (set_cover_agree E w p Hdirs Hfiles thumbnail
                (record (EOpen MP4 p) w) eq_refl) as [Hr Hfs].
    destruct (Legacy.set_cover E p thumbnail _) as [[[]|e] wb],
             (Utilities.set_cover E thumbnail (Some p) _) as [[[]|e'] wb'];
      cbn [fst snd] in Hr, Hfs; try discriminate.
    + apply fs_only_MP4_save. exact Hfs.
    + injection Hr as <-. split; [reflexivity|exact Hfs].
Qed.

Lemma legacy_tag_writers_agree_witness :
  outcome (Legacy.set_m4a_metadata (sample_env (exits 0 []) answers) track_m4a song_a)
          (on_disk [(track_m4a, Mp4File (b "audio") (Some ∅))])
  = outcome (Utilities.set_m4a_metadata (sample_env (exits 0 []) answers)
               track_m4a song_a)
            (on_disk [(track_m4a, Mp4File (b "audio") (Some ∅))]).
Proof.
  refine (proj1 (proj2 (legacy_tag_writers_agree (sample_env (exits 0 []) answers)
                          (on_disk [(track_m4a, Mp4File (b "audio") (Some ∅))])
                          track_m4a song_a PyNone _ _))).
  - intros q Hq. apply elem_of_list_to_set. exact Hq.
  - vm_compute. reflexivity.
Defined.
(** ** The script from end to end *)

(** X19: the whole of [main] for an Opus file.  With [--set-m4a-metadata]
    naming a file of extension [.opus] (in any case of letters) and a
    downloader that writes the metadata of one item, [main] sets up logging,
    runs the downloader once, replaces the five comments in the file and
    returns.  It asks for no cover: the [thumbnail] of the metadata is not
    read and no request is made. *)
Theorem main_tags_opus_file (E : env) (a : Script.args) (w w1 : world) (p : path)
    (t tail : bytes) (o : list (bytes * json)) (f' : filesystem) (audio : bytes)
    (comments : list (string * string))
    (title channel upload_date webpage_url description : string) :
  Script.metadata_only a = false -> Script.download_thumbnail a = false ->
  Script.set_m4a_metadata a = Some p -> lower (suffix p) = ".opus" ->
  Script.logging_setup E a w = (Ok tt, w1) ->
  object_text t o -> forallb is_ws tail = true ->
  let dump := [as_posix (YT_DLP_PATH E); "--dump-json"; Script.url a] in
  subprocess_run E dump (fs w1) = Completed 0 (t ++ tail) f' ->
  lookup_all (to_python (py_str E) (JObj o)) opus_fields
    = Ok [PyStr title; PyStr channel; PyStr upload_date; PyStr webpage_url;
          PyStr description] ->
  files f' !! p = Some (OpusFile audio comments) ->
  Script.main E a w =
    (Ok tt,
     {| fs := written f' p
                (OpusFile audio
                   (filter (fun kv => negb (is_opus_key (fst kv))) comments
                    ++ [("TITLE", title); ("ARTIST", channel); ("DATE", upload_date);
                        ("COMMENT", webpage_url); ("DESCRIPTION", description)]));
        trace := trace w1 ++ [ERun dump; EOpen OggOpus p; ESave OggOpus p] |}).
Proof.
  intros Hmeta Hth Hset Hext Hlog Ht Htail dump Hrun Hmd Hfile.
  assert (Hfetch : Utilities.fetch_metadata E (Script.url a) w1 =
                   (Ok (to_python (py_str E) (JObj o)),
                    {| fs := f'; trace := trace w1 ++ [ERun dump] |})).
  { rewrite (fetch_metadata_decoded _ _ _ _ _ Hrun). unfold decode_stdout.
    rewrite (loads_padded _ _ _ Ht Htail). reflexivity. }
  rewrite (main_write_tags E a p _ w w1 _ Hmeta Hth Hset Hlog Hfetch).
  unfold Script.write_tags. cbv zeta. rewrite Hext.
  cbn [String.eqb Ascii.eqb Bool.eqb].
  rewrite (set_opus_metadata_texts_run {| fs := f'; trace := trace w1 ++ [ERun dump] |}
             p _ audio comments title channel upload_date webpage_url description
             Hfile Hmd).
  cbn [fs trace]. rewrite <- app_assoc. reflexivity.
Qed.

Lemma main_tags_opus_file_witness :
  Script.main
    (sample_env (exits 0 (song_a_text ++ [LF])) answers)
    {| Script.url := video_url; Script.output_file_path := None;
       Script.no_m4a_metadata := false; Script.metadata_only := false;
       Script.download_thumbnail := false;
       Script.set_m4a_metadata := Some track_opus; Script.log_config := None |}
    (on_disk [(config_path, Blob config_text);
              (track_opus, OpusFile (b "audio") [("encoder", "Lavf")])])
  = (Ok tt,
     {| fs := written
                (fs (on_disk [(config_path, Blob config_text);
                              (track_opus, OpusFile (b "audio") [("encoder", "Lavf")])]))
                track_opus
                (OpusFile (b "audio")
                   [("encoder", "Lavf"); ("TITLE", "Song A"); ("ARTIST", "Artist X");
                    ("DATE", "20230115"); ("COMMENT", "https://example.com/v");
                    ("DESCRIPTION", "desc")]);
        trace := [ERead config_path; EDictConfig;
                  ERun ["/opt/venv/Scripts/yt-dlp.exe"; "--dump-json"; video_url];
                  EOpen OggOpus track_opus; ESave OggOpus track_opus] |}).
Proof.
  set (E := sample_env (exits 0 (song_a_text ++ [LF])) answers).
  set (w := on_disk [(config_path, Blob config_text);
                     (track_opus, OpusFile (b "audio") [("encoder", "Lavf")])]).
  set (a := {| Script.url := video_url; Script.output_file_path := None;
               Script.no_m4a_metadata := false; Script.metadata_only := false;
               Script.download_thumbnail := false;
               Script.set_m4a_metadata := Some track_opus;
               Script.log_config := None |}).
  pose (o := [(b "title", JStr (b "Song A")); (b "channel", JStr (b "Artist X"));
              (b "upload_date", JStr (b "20230115"));
              (b "webpage_url", JStr (b "https://example.com/v"));
              (b "description", JStr (b "desc"));
              (b "thumbnail", JStr (b "https://example.com/cover.jpg"))]).
  assert (Ht : object_text song_a_text o).
  { split; [eexists; reflexivity|vm_compute; reflexivity]. }
  assert (Hlog : Script.logging_setup E a w
                 = (Ok tt, {| fs := fs w; trace := [ERead config_path; EDictConfig] |}))
    by (vm_compute; reflexivity).
  rewrite (main_tags_opus_file E a w _ track_opus song_a_text [LF] o (fs w) (b "audio")
             [("encoder", "Lavf")] "Song A" "Artist X" "20230115"
             "https://example.com/v" "desc"
             eq_refl eq_refl eq_refl ltac:(vm_compute; reflexivity) Hlog Ht eq_refl
             eq_refl ltac:(vm_compute; reflexivity) ltac:(vm_compute; reflexivity)).
  vm_compute. reflexivity.
Defined.
